(** * antler-ms1: a monophonic browser synthesizer

    Shallow embedding of the two source files of the repository:

    - [random-lfo-processor.js], the audio-worklet processor that holds a
      random value and refreshes it once per LFO cycle ([Module RandomLfo]);
    - the main script (oscillator pitch, envelopes, the monophonic note
      handlers, the keyboard listeners and the parameter router)
      ([Module Synth]); the arithmetic of its knobs (targets, rotation,
      arrow keys and dragging) is in [Module Panel].

    JavaScript numbers are modelled by [JsNum.num]: exact rationals extended
    with the three special values the code tests for ([Infinity],
    [-Infinity], [NaN]).  Rounding of IEEE doubles and the sign of zero are
    not modelled; what is stated about the phase accumulator of the LFO is
    stated of the frames on which the sums and differences of the code are
    exact in double precision too (whole-number phases, the first two
    refreshes), or does not depend on the value of the phase.  The Web
    Audio automation API is modelled by the list of automation calls
    received by each [AudioParam]. *)

From Stdlib Require Import QArith Qminmax Qround Qabs Lqa ZArith Lia.
From stdpp Require Import base gmap list strings.

(* ===================================================================== *)
(** ** JavaScript numbers *)
(* ===================================================================== *)

Module JsNum.

Inductive num : Type :=
| Fin (q : Q)
| PInf
| NInf
| NaN.

Definition isNaN (a : num) : bool :=
  match a with NaN => true | _ => false end.

Definition isFinite (a : num) : bool :=
  match a with Fin _ => true | _ => false end.

Definition opp (a : num) : num :=
  match a with
  | Fin x => Fin (- x)
  | PInf => NInf
  | NInf => PInf
  | NaN => NaN
  end.

Definition add (a b : num) : num :=
  match a, b with
  | NaN, _ | _, NaN => NaN
  | Fin x, Fin y => Fin (x + y)
  | PInf, NInf | NInf, PInf => NaN
  | PInf, _ | _, PInf => PInf
  | NInf, _ | _, NInf => NInf
  end.

Definition sub (a b : num) : num := add a (opp b).

(** Sign of a rational: [Lt] negative, [Eq] zero, [Gt] positive. *)
Definition Qsign (x : Q) : comparison := (0 ?= x)%Q.

Definition mul_inf (s : comparison) (positive_inf : bool) : num :=
  match s with
  | Eq => NaN
  | Lt => if positive_inf then PInf else NInf
  | Gt => if positive_inf then NInf else PInf
  end.

Definition mul (a b : num) : num :=
  match a, b with
  | NaN, _ | _, NaN => NaN
  | Fin x, Fin y => Fin (x * y)
  | Fin x, PInf | PInf, Fin x => mul_inf (Qsign x) true
  | Fin x, NInf | NInf, Fin x => mul_inf (Qsign x) false
  | PInf, PInf | NInf, NInf => PInf
  | PInf, NInf | NInf, PInf => NInf
  end.

Definition div (a b : num) : num :=
  match a, b with
  | NaN, _ | _, NaN => NaN
  | Fin x, Fin y =>
      if Qeq_dec y 0 then mul_inf (Qsign x) true else Fin (x / y)
  | Fin _, (PInf | NInf) => Fin 0
  | PInf, Fin y => if Qlt_le_dec y 0 then NInf else PInf
  | NInf, Fin y => if Qlt_le_dec y 0 then PInf else NInf
  | (PInf | NInf), (PInf | NInf) => NaN
  end.

(** [a < b] *)
Definition ltb (a b : num) : bool :=
  match a, b with
  | NaN, _ | _, NaN => false
  | Fin x, Fin y => if Qlt_le_dec x y then true else false
  | _, NInf => false
  | NInf, _ => true
  | PInf, _ => false
  | Fin _, PInf => true
  end.

(** [a <= b] *)
Definition leb (a b : num) : bool :=
  match a, b with
  | NaN, _ | _, NaN => false
  | Fin x, Fin y => if Qlt_le_dec y x then false else true
  | NInf, _ => true
  | _, PInf => true
  | _, NInf => false
  | PInf, _ => false
  end.

(** [a > b] and [a >= b] *)
Definition gtb (a b : num) : bool := ltb b a.
Definition geb (a b : num) : bool := leb b a.

(** [a === b] on numbers ([NaN] differs from itself) *)
Definition eqb (a b : num) : bool :=
  match a, b with
  | Fin x, Fin y => if Qeq_dec x y then true else false
  | PInf, PInf | NInf, NInf => true
  | _, _ => false
  end.

(** The larger and the smaller of two rationals. *)
Definition maxQ (x y : Q) : Q := if Qlt_le_dec x y then y else x.
Definition minQ (x y : Q) : Q := if Qlt_le_dec y x then y else x.

(** [Math.max(a, b)] and [Math.min(a, b)]: [NaN] is contagious. *)
Definition Math_max (a b : num) : num :=
  match a, b with
  | NaN, _ | _, NaN => NaN
  | Fin x, Fin y => Fin (maxQ x y)
  | PInf, _ | _, PInf => PInf
  | NInf, c | c, NInf => c
  end.

Definition Math_min (a b : num) : num :=
  match a, b with
  | NaN, _ | _, NaN => NaN
  | Fin x, Fin y => Fin (minQ x y)
  | NInf, _ | _, NInf => NInf
  | PInf, c | c, PInf => c
  end.

Definition ofZ (z : Z) : num := Fin (inject_Z z).

End JsNum.

Import JsNum.

Declare Scope num_scope.
Delimit Scope num_scope with num.
Bind Scope num_scope with num.
Infix "+" := add : num_scope.
Infix "-" := sub : num_scope.
Infix "*" := mul : num_scope.
Infix "/" := div : num_scope.

(** Decimal literals of the source, as exact rationals. *)
Definition q0_001 : Q := 1 # 1000.
Definition q0_0001 : Q := 1 # 10000.
Definition q0_005 : Q := 5 # 1000.
Definition q0_5 : Q := 1 # 2.
Definition q0_2 : Q := 2 # 10.
Definition q0_010 : Q := 10 # 1000.

(* ===================================================================== *)
(** ** random-lfo-processor.js *)
(* ===================================================================== *)

Module RandomLfo.

Section Processor.

(** [sampleRate] is a global of the audio-worklet scope. *)
Variable sampleRate : Q.

(** [Math_random n] is the value returned by the [n]-th call of
    [Math.random()] in the worklet scope. *)
Variable Math_random : nat -> Q.

Record RandomLfoProcessor : Type := {
  phase : num;
  currentValue : num;
  _updateInterval : num;
  _lastFrequency : num;
  (** number of calls of [Math.random()] made so far *)
  randomCalls : nat
}.

Definition _recalculateInterval (frequency : num) (this : RandomLfoProcessor)
  : RandomLfoProcessor :=
  {| phase := phase this;
     currentValue := currentValue this;
     _updateInterval :=
       if gtb frequency (Fin 0) then (Fin sampleRate / frequency)%num
       else PInf;
     _lastFrequency := frequency;
     randomCalls := randomCalls this |}.

Definition constructor : RandomLfoProcessor :=
  _recalculateInterval (Fin 5)
    {| phase := Fin 0;
       currentValue := Fin 0;
       _updateInterval := Fin 1;
       _lastFrequency := Fin 5;
       randomCalls := 0 |}.

(** Body of the sample loop before the channel loop: advance the phase
    and refresh the held value when a cycle completes. *)
Definition advance (samplesPerCycle : num) (this : RandomLfoProcessor)
  : RandomLfoProcessor :=
  let phase1 := (phase this + Fin 1)%num in
  if geb phase1 samplesPerCycle then
    {| phase := (phase1 - samplesPerCycle)%num;
       currentValue :=
         (Fin (Math_random (randomCalls this)) * Fin 2 - Fin 1)%num;
       _updateInterval := _updateInterval this;
       _lastFrequency := _lastFrequency this;
       randomCalls := S (randomCalls this) |}
  else
    {| phase := phase1;
       currentValue := currentValue this;
       _updateInterval := _updateInterval this;
       _lastFrequency := _lastFrequency this;
       randomCalls := randomCalls this |}.

(** [for (channel = 0; channel < output.length; ++channel)
       output[channel][i] = v]
    A write past the end of a channel buffer (a typed array) is ignored. *)
Fixpoint channel_loop (v : num) (i : nat) (todo channel : nat)
    (output : list (list num)) : list (list num) :=
  match todo with
  | O => output
  | S todo' =>
      channel_loop v i todo' (S channel)
        (alter (fun ch => <[i := v]> ch) channel output)
  end.

(** [for (i = 0; i < output[0].length; ++i) { ... }] *)
Fixpoint sample_loop (samplesPerCycle : num) (todo i : nat)
    (this : RandomLfoProcessor) (output : list (list num))
  : RandomLfoProcessor * list (list num) :=
  match todo with
  | O => (this, output)
  | S todo' =>
      let this' := advance samplesPerCycle this in
      sample_loop samplesPerCycle todo' (S i) this'
        (channel_loop (currentValue this') i (length output) 0 output)
  end.

(** [process(inputs, outputs, parameters)]: [output] is [outputs[0]],
    [frequency] is [parameters.frequency[0]].  With no channel at all
    [output[0].length] throws ([None]); otherwise the call returns [true]
    together with the new processor state and the filled buffers. *)
Definition process (frequency : num) (output : list (list num))
    (this : RandomLfoProcessor)
  : option (bool * RandomLfoProcessor * list (list num)) :=
  match output with
  | [] => None
  | channel0 :: _ =>
      let this1 :=
        if eqb frequency (_lastFrequency this) then this
        else _recalculateInterval frequency this in
      let samplesPerCycle := _updateInterval this1 in
      let '(this2, output') :=
        sample_loop samplesPerCycle (length channel0) 0 this1 output in
      Some (true, this2, output')
  end.

(** The processor state after [n] frames rendered with a fixed
    threshold, and the value held on frame [i] (counted from 0). *)
Fixpoint frames (samplesPerCycle : num) (n : nat)
    (this : RandomLfoProcessor) : RandomLfoProcessor :=
  match n with
  | O => this
  | S n' => frames samplesPerCycle n' (advance samplesPerCycle this)
  end.

Definition held (samplesPerCycle : num) (i : nat)
    (this : RandomLfoProcessor) : num :=
  currentValue (frames samplesPerCycle (S i) this).

(** One channel buffer after the [todo] frames starting at index [i]
    have been written. *)
Fixpoint fill (samplesPerCycle : num) (todo i : nat)
    (this : RandomLfoProcessor) (ch : list num) : list num :=
  match todo with
  | O => ch
  | S todo' =>
      let this' := advance samplesPerCycle this in
      fill samplesPerCycle todo' (S i) this' (<[i := currentValue this']> ch)
  end.

(** The threshold [_recalculateInterval] stores for a frequency. *)
Definition interval_of (frequency : num) : num :=
  if gtb frequency (Fin 0) then (Fin sampleRate / frequency)%num else PInf.

(** States of a processor between two calls of [process]: the phase is a
    finite number and the stored threshold is the one computed from the
    stored frequency. *)
Definition consistent (this : RandomLfoProcessor) : Prop :=
  (exists phi : Q, phase this = Fin phi) /\
  _updateInterval this = interval_of (_lastFrequency this).

(** Successive calls of [process], one per render quantum: each block
    gives the value of the frequency parameter and the buffers to fill. *)
Fixpoint process_all (blocks : list (num * list (list num)))
    (this : RandomLfoProcessor)
  : option (RandomLfoProcessor * list (list (list num))) :=
  match blocks with
  | [] => Some (this, [])
  | (frequency, output) :: rest =>
      match process frequency output this with
      | None => None
      | Some (_, this', output') =>
          match process_all rest this' with
          | None => None
          | Some (this'', outputs) => Some (this'', output' :: outputs)
          end
      end
  end.



End Processor.

(** Sample data: a deterministic stand-in for the random stream and one
    mono render quantum of 128 frames. *)
Definition sample_random (n : nat) : Q := inject_Z (Z.of_nat (n mod 8)) / 8.

Definition quantum : list (list num) := [repeat (Fin 0) 128].

End RandomLfo.

(* ===================================================================== *)
(** ** The synthesizer script *)
(* ===================================================================== *)

Module Synth.

(** *** Console *)

Inductive Level : Type := LLog | LWarn | LError.

Record Msg : Type := { level : Level; text : string }.

Definition console_log (t : string) : Msg := {| level := LLog; text := t |}.
Definition console_warn (t : string) : Msg := {| level := LWarn; text := t |}.
Definition console_error (t : string) : Msg := {| level := LError; text := t |}.

(** The console messages of the note handlers and the pitch computation. *)
Definition octave_warning : Msg :=
  console_warn "Invalid VCO Octave Index, defaulting to 2 (8')".

Definition frequency_error : Msg :=
  console_error "FATAL: Calculated VCO frequency is non-finite!".

Definition noteOn_error : Msg :=
  console_error
    "noteOn called but audio context not running or VCOs not ready!".

Definition not_running_warning : Msg :=
  console_warn
    "Audio Context not running. Please click the synth panel or power button first.".

Definition not_initialized_error : Msg :=
  console_error "Audio not initialized. Cannot play note.".

(** *** Web Audio collaborators *)

Inductive ContextState : Type := suspended | running | closed.

Definition ContextState_eqb (a b : ContextState) : bool :=
  match a, b with
  | suspended, suspended | running, running | closed, closed => true
  | _, _ => false
  end.

Record AudioContext : Type := {
  state : ContextState;
  sampleRate : Q;
  currentTime : Q
}.

(** One call of the automation API on an [AudioParam]. *)
Inductive Automation : Type :=
| cancelScheduledValues (startTime : num)
| setValueAtTime (v startTime : num)
| linearRampToValueAtTime (v endTime : num)
| setTargetAtTime (target startTime timeConstant : num).

(** An [AudioParam]: its current instantaneous value (maintained by the
    rendering engine) and the automation calls it has received, oldest
    first. *)
Record AudioParam : Type := {
  value : Q;
  scheduled : list Automation
}.

Definition call (a : Automation) (p : AudioParam) : AudioParam :=
  {| value := value p; scheduled := scheduled p ++ [a] |}.

Definition set_value (v : Q) (p : AudioParam) : AudioParam :=
  {| value := v; scheduled := scheduled p |}.

(** *** Parameters *)

(** Values found in [params.vcoN.octave]. *)
Inductive jsval : Type :=
| JNumber (n : num)
| JString (s : string)
| JUndefined.

Record VcoParams : Type := { octave : jsval }.

Record EnvParams : Type := {
  attack : Q;
  decay : Q;
  sustain : Q;
  release : Q
}.

(** The part of [params] read by the functions below.  Numeric
    parameters are finite numbers. *)
Record Params : Type := {
  masterTune : Q;
  portamentoTime : Q;
  keyFollow : Q;
  legato : Q;
  vco1 : VcoParams;
  vco2 : VcoParams;
  vcfEnv : EnvParams;
  vcaEnv : EnvParams;
  filter_frequency_value : Q;
  vcfEnvGain_gain_value : Q;
  reverbWetGain_gain_value : Q
}.

Definition set_vco1 (v : VcoParams) (p : Params) : Params :=
  {| masterTune := masterTune p; portamentoTime := portamentoTime p;
     keyFollow := keyFollow p; legato := legato p;
     vco1 := v; vco2 := vco2 p;
     vcfEnv := vcfEnv p; vcaEnv := vcaEnv p;
     filter_frequency_value := filter_frequency_value p;
     vcfEnvGain_gain_value := vcfEnvGain_gain_value p;
     reverbWetGain_gain_value := reverbWetGain_gain_value p |}.

Definition set_vco2 (v : VcoParams) (p : Params) : Params :=
  {| masterTune := masterTune p; portamentoTime := portamentoTime p;
     keyFollow := keyFollow p; legato := legato p;
     vco1 := vco1 p; vco2 := v;
     vcfEnv := vcfEnv p; vcaEnv := vcaEnv p;
     filter_frequency_value := filter_frequency_value p;
     vcfEnvGain_gain_value := vcfEnvGain_gain_value p;
     reverbWetGain_gain_value := reverbWetGain_gain_value p |}.

(** *** Constants and mappings *)

Definition octaveMultipliers : list Q := [1 # 8; 1 # 4; 1 # 2; 1; 2]%Q.

Definition keyToNoteMap_entries : list (string * Z) :=
  [("KeyA", 60); ("KeyW", 61); ("KeyS", 62); ("KeyE", 63); ("KeyD", 64);
   ("KeyF", 65); ("KeyT", 66); ("KeyG", 67); ("KeyY", 68); ("KeyH", 69);
   ("KeyU", 70); ("KeyJ", 71); ("KeyK", 72)]%Z.

Fixpoint assoc (entries : list (string * Z)) (code : string) : option Z :=
  match entries with
  | [] => None
  | (k, v) :: rest => if String.eqb code k then Some v else assoc rest code
  end.

(** [keyToNoteMap[code]]; [None] is [undefined]. *)
Definition keyToNoteMap (code : string) : option Z :=
  assoc keyToNoteMap_entries code.

(** [array[index]] for a number used as an array index: an element for an
    integer inside the bounds, [undefined] otherwise. *)
Definition array_index (n : num) : option nat :=
  match n with
  | Fin q =>
      if Qeq_dec q (inject_Z (Qfloor q)) then
        if Z_lt_le_dec (Qfloor q) 0 then None else Some (Z.to_nat (Qfloor q))
      else None
  | _ => None
  end.

(** [octaveMultipliers[octaveIndex]] converted to a number by the
    multiplication that uses it ([undefined] becomes [NaN]). *)
Definition octaveMultipliers_at (octaveIndex : jsval) : num :=
  match octaveIndex with
  | JNumber n =>
      match array_index n with
      | Some i =>
          match octaveMultipliers !! i with
          | Some m => Fin m
          | None => NaN
          end
      | None => NaN
      end
  | _ => NaN
  end.

(** *** Mono synth state

    The script's global variables.  Of the audio graph the state keeps the
    [AudioParam]s that the note handlers, the envelopes and the reverb
    branch of the parameter router write to; the other nodes (LFO, noise,
    mixer and distortion gains) are set only by router branches that touch
    none of these and are left out. *)

Record State : Type := {
  audioContext : option AudioContext;
  isAudioInitialized : bool;
  isAudioResumed : bool;
  params : Params;
  (** [vcoN.frequency]; [None] while the node [vcoN] does not exist *)
  vco1_frequency : option AudioParam;
  vco2_frequency : option AudioParam;
  (** [filter.frequency], [vcaGainNode.gain] *)
  filter_frequency : option AudioParam;
  vcaGainNode_gain : option AudioParam;
  (** [reverbWetGain.gain], [reverbDryGain.gain] *)
  reverbWetGain_gain : option AudioParam;
  reverbDryGain_gain : option AudioParam;
  pressedKeys : gmap string bool;
  currentNote : option Z;
  currentFrequency : num
}.

Definition set_audioContext (c : option AudioContext) (s : State) : State :=
  {| audioContext := c;
     isAudioInitialized := isAudioInitialized s;
     isAudioResumed := isAudioResumed s; params := params s;
     vco1_frequency := vco1_frequency s; vco2_frequency := vco2_frequency s;
     filter_frequency := filter_frequency s;
     vcaGainNode_gain := vcaGainNode_gain s;
     reverbWetGain_gain := reverbWetGain_gain s;
     reverbDryGain_gain := reverbDryGain_gain s;
     pressedKeys := pressedKeys s; currentNote := currentNote s;
     currentFrequency := currentFrequency s |}.

Definition set_isAudioResumed (b : bool) (s : State) : State :=
  {| audioContext := audioContext s;
     isAudioInitialized := isAudioInitialized s;
     isAudioResumed := b; params := params s;
     vco1_frequency := vco1_frequency s; vco2_frequency := vco2_frequency s;
     filter_frequency := filter_frequency s;
     vcaGainNode_gain := vcaGainNode_gain s;
     reverbWetGain_gain := reverbWetGain_gain s;
     reverbDryGain_gain := reverbDryGain_gain s;
     pressedKeys := pressedKeys s; currentNote := currentNote s;
     currentFrequency := currentFrequency s |}.

Definition set_isAudioInitialized (b : bool) (s : State) : State :=
  {| audioContext := audioContext s;
     isAudioInitialized := b;
     isAudioResumed := isAudioResumed s; params := params s;
     vco1_frequency := vco1_frequency s; vco2_frequency := vco2_frequency s;
     filter_frequency := filter_frequency s;
     vcaGainNode_gain := vcaGainNode_gain s;
     reverbWetGain_gain := reverbWetGain_gain s;
     reverbDryGain_gain := reverbDryGain_gain s;
     pressedKeys := pressedKeys s; currentNote := currentNote s;
     currentFrequency := currentFrequency s |}.

Definition set_params (p : Params) (s : State) : State :=
  {| audioContext := audioContext s;
     isAudioInitialized := isAudioInitialized s;
     isAudioResumed := isAudioResumed s; params := p;
     vco1_frequency := vco1_frequency s; vco2_frequency := vco2_frequency s;
     filter_frequency := filter_frequency s;
     vcaGainNode_gain := vcaGainNode_gain s;
     reverbWetGain_gain := reverbWetGain_gain s;
     reverbDryGain_gain := reverbDryGain_gain s;
     pressedKeys := pressedKeys s; currentNote := currentNote s;
     currentFrequency := currentFrequency s |}.

Definition set_vco_frequencies (f1 f2 : option AudioParam) (s : State)
  : State :=
  {| audioContext := audioContext s;
     isAudioInitialized := isAudioInitialized s;
     isAudioResumed := isAudioResumed s; params := params s;
     vco1_frequency := f1; vco2_frequency := f2;
     filter_frequency := filter_frequency s;
     vcaGainNode_gain := vcaGainNode_gain s;
     reverbWetGain_gain := reverbWetGain_gain s;
     reverbDryGain_gain := reverbDryGain_gain s;
     pressedKeys := pressedKeys s; currentNote := currentNote s;
     currentFrequency := currentFrequency s |}.

Definition set_envelope_targets (f g : option AudioParam) (s : State)
  : State :=
  {| audioContext := audioContext s;
     isAudioInitialized := isAudioInitialized s;
     isAudioResumed := isAudioResumed s; params := params s;
     vco1_frequency := vco1_frequency s; vco2_frequency := vco2_frequency s;
     filter_frequency := f;
     vcaGainNode_gain := g;
     reverbWetGain_gain := reverbWetGain_gain s;
     reverbDryGain_gain := reverbDryGain_gain s;
     pressedKeys := pressedKeys s; currentNote := currentNote s;
     currentFrequency := currentFrequency s |}.

Definition set_reverb_gains (w d : option AudioParam) (s : State) : State :=
  {| audioContext := audioContext s;
     isAudioInitialized := isAudioInitialized s;
     isAudioResumed := isAudioResumed s; params := params s;
     vco1_frequency := vco1_frequency s; vco2_frequency := vco2_frequency s;
     filter_frequency := filter_frequency s;
     vcaGainNode_gain := vcaGainNode_gain s;
     reverbWetGain_gain := w;
     reverbDryGain_gain := d;
     pressedKeys := pressedKeys s; currentNote := currentNote s;
     currentFrequency := currentFrequency s |}.

Definition set_pressedKeys (k : gmap string bool) (s : State) : State :=
  {| audioContext := audioContext s;
     isAudioInitialized := isAudioInitialized s;
     isAudioResumed := isAudioResumed s; params := params s;
     vco1_frequency := vco1_frequency s; vco2_frequency := vco2_frequency s;
     filter_frequency := filter_frequency s;
     vcaGainNode_gain := vcaGainNode_gain s;
     reverbWetGain_gain := reverbWetGain_gain s;
     reverbDryGain_gain := reverbDryGain_gain s;
     pressedKeys := k; currentNote := currentNote s;
     currentFrequency := currentFrequency s |}.

Definition set_voice (n : option Z) (f : num) (s : State) : State :=
  {| audioContext := audioContext s;
     isAudioInitialized := isAudioInitialized s;
     isAudioResumed := isAudioResumed s; params := params s;
     vco1_frequency := vco1_frequency s; vco2_frequency := vco2_frequency s;
     filter_frequency := filter_frequency s;
     vcaGainNode_gain := vcaGainNode_gain s;
     reverbWetGain_gain := reverbWetGain_gain s;
     reverbDryGain_gain := reverbDryGain_gain s;
     pressedKeys := pressedKeys s; currentNote := n;
     currentFrequency := f |}.

(** *** Utility functions *)

Section Script.

(** [Math_pow x y] is [Math.pow(x, y)] on finite arguments; the script
    only uses it to convert a MIDI note number to a frequency. *)
Variable Math_pow : Q -> Q -> Q.

Definition midiToFreq (midiNote : Z) : Q :=
  (440 * Math_pow 2 ((inject_Z midiNote - 69) / 12))%Q.

(** The validation test of [calculateVcoFrequency]. *)
Definition octave_invalid (octaveIndex : jsval) : bool :=
  match octaveIndex with
  | JNumber n =>
      isNaN n || ltb n (Fin 0)
      || geb n (ofZ (Z.of_nat (length octaveMultipliers)))
  | _ => true
  end.

(** [calculateVcoFrequency(baseFreq, vcoParams)], called with an existing
    audio context: the frequency, the parameter record (corrected in
    place by the source) and the console output. *)
Definition calculateVcoFrequency (context : AudioContext) (baseFreq : num)
    (vcoParams : VcoParams) : num * VcoParams * list Msg :=
  let '(octaveIndex, vcoParams', log) :=
    if octave_invalid (octave vcoParams) then
      (JNumber (Fin 2), {| octave := JNumber (Fin 2) |},
       [octave_warning])
    else (octave vcoParams, vcoParams, []) in
  let freq := (baseFreq * octaveMultipliers_at octaveIndex)%num in
  let safeFreq :=
    Math_max (Fin 20) (Math_min (Fin (sampleRate context) / Fin 2)%num freq) in
  if negb (isFinite safeFreq) then
    (Fin 440, vcoParams',
     log ++ [frequency_error])
  else (safeFreq, vcoParams', log).

(** *** Envelope functions *)

(** The key-follow adjusted base cutoff computed by both envelope
    functions. *)
Definition baseFreqWithKeyFollow (p : Params) (baseNote : Z) : num :=
  let knobBaseFreq := Fin (filter_frequency_value p) in
  let keyFollowAmount :=
    if gtb (Fin (keyFollow p)) (Fin q0_5)
    then ((ofZ baseNote - Fin 69) / Fin 12)%num
    else Fin 0 in
  let keyFollowHz := (keyFollowAmount * (knobBaseFreq * Fin q0_2))%num in
  Math_max (Fin 20) (knobBaseFreq + keyFollowHz)%num.

(** [triggerEnvelope(envParams, targetParam, sustainValue, now, isVcf,
    baseNote)]: the target parameter after the call. *)
Definition triggerEnvelope (context : option AudioContext) (p : Params)
    (envParams : EnvParams) (targetParam : option AudioParam)
    (sustainValue now : num) (isVcf : bool) (baseNote : Z)
  : option AudioParam :=
  match context, targetParam with
  | Some ctx, Some target =>
      let safeAttack := Math_max (Fin q0_001) (Fin (attack envParams)) in
      let safeDecay := Math_max (Fin q0_001) (Fin (decay envParams)) in
      let target := call (cancelScheduledValues now) target in
      if isVcf then
        let envModAmount := Fin (vcfEnvGain_gain_value p) in
        let base := baseFreqWithKeyFollow p baseNote in
        let attackPeakFreq := (base + envModAmount)%num in
        let sustainLevelFreq := (base + sustainValue * envModAmount)%num in
        let nyquist := (Fin (sampleRate ctx) / Fin 2)%num in
        let clampedBaseFreq := Math_min nyquist (Math_max (Fin 20) base) in
        let clampedPeakFreq :=
          Math_min nyquist (Math_max (Fin 20) attackPeakFreq) in
        let clampedSustainFreq :=
          Math_min nyquist (Math_max (Fin 20) sustainLevelFreq) in
        Some
          (call (linearRampToValueAtTime clampedSustainFreq
                   (now + safeAttack + safeDecay)%num)
             (call (linearRampToValueAtTime clampedPeakFreq
                      (now + safeAttack)%num)
                (call (setValueAtTime clampedBaseFreq now) target)))
      else
        let peakVal := Fin 1 in
        let sustainLevel := Math_max (Fin q0_0001) sustainValue in
        Some
          (call (linearRampToValueAtTime sustainLevel
                   (now + safeAttack + safeDecay)%num)
             (call (linearRampToValueAtTime peakVal (now + safeAttack)%num)
                (call (setValueAtTime (Fin q0_0001) now) target)))
  | _, _ => targetParam
  end.

(** [releaseEnvelope(envParams, targetParam, now, isVcf, baseNote)] *)
Definition releaseEnvelope (context : option AudioContext) (p : Params)
    (envParams : EnvParams) (targetParam : option AudioParam)
    (now : num) (isVcf : bool) (baseNote : Z) : option AudioParam :=
  match context, targetParam with
  | Some ctx, Some target =>
      let safeRelease := Math_max (Fin q0_001) (Fin (release envParams)) in
      let target := call (cancelScheduledValues now) target in
      let releaseTargetValue :=
        if isVcf then
          Math_min (Fin (sampleRate ctx) / Fin 2)%num
            (Math_max (Fin 20) (baseFreqWithKeyFollow p baseNote))
        else Fin q0_0001 in
      Some
        (call (linearRampToValueAtTime releaseTargetValue
                 (now + safeRelease)%num)
           (call (setValueAtTime (Fin (value target)) now) target))
  | _, _ => targetParam
  end.

(** [triggerEnvelopes(note, now)] *)
Definition triggerEnvelopes (note : Z) (now : num) (s : State) : State :=
  match filter_frequency s, vcaGainNode_gain s with
  | Some _, Some _ =>
      set_envelope_targets
        (triggerEnvelope (audioContext s) (params s) (vcfEnv (params s))
           (filter_frequency s) (Fin (sustain (vcfEnv (params s)))) now
           true note)
        (triggerEnvelope (audioContext s) (params s) (vcaEnv (params s))
           (vcaGainNode_gain s) (Fin (sustain (vcaEnv (params s)))) now
           false 69)
        s
  | _, _ => s
  end.

(** [releaseEnvelopes(note, now)] *)
Definition releaseEnvelopes (note : Z) (now : num) (s : State) : State :=
  match filter_frequency s, vcaGainNode_gain s with
  | Some _, Some _ =>
      set_envelope_targets
        (releaseEnvelope (audioContext s) (params s) (vcfEnv (params s))
           (filter_frequency s) now true note)
        (releaseEnvelope (audioContext s) (params s) (vcaEnv (params s))
           (vcaGainNode_gain s) now false 69)
        s
  | _, _ => s
  end.

(** *** Monophonic note handling *)

(** [params.portamentoTime > 0.005 ? params.portamentoTime : 0] *)
Definition portamento_of (p : Params) : num :=
  if gtb (Fin (portamentoTime p)) (Fin q0_005)
  then Fin (portamentoTime p) else Fin 0.

(** The pitch change shared by [noteOn] and [noteOff]: cancel what is
    scheduled on both oscillator frequencies, then glide
    ([setTargetAtTime]) or jump ([setValueAtTime]). *)
Definition set_pitch (portamento now target1 target2 : num)
    (f1 f2 : AudioParam) (s : State) : State :=
  if gtb portamento (Fin 0) then
    set_vco_frequencies
      (Some (call (setTargetAtTime target1 now (portamento / Fin 4)%num)
               (call (cancelScheduledValues now) f1)))
      (Some (call (setTargetAtTime target2 now (portamento / Fin 4)%num)
               (call (cancelScheduledValues now) f2)))
      s
  else
    set_vco_frequencies
      (Some (call (setValueAtTime target1 now)
               (call (cancelScheduledValues now) f1)))
      (Some (call (setValueAtTime target2 now)
               (call (cancelScheduledValues now) f2)))
      s.

(** [noteOn(note, freq)] *)
Definition noteOn (note : Z) (freq : num) (s : State) : State * list Msg :=
  match audioContext s, vco1_frequency s, vco2_frequency s with
  | Some ctx, Some f1, Some f2 =>
      if negb (ContextState_eqb (state ctx) running) then
        (s, [noteOn_error])
      else
        let now := Fin (currentTime ctx) in
        let portamento := portamento_of (params s) in
        let shouldRetrigger := ltb (Fin (legato (params s))) (Fin q0_5) in
        let '(targetOsc1Freq, v1, log1) :=
          calculateVcoFrequency ctx freq (vco1 (params s)) in
        let '(targetOsc2Freq, v2, log2) :=
          calculateVcoFrequency ctx freq (vco2 (params s)) in
        let s1 := set_params (set_vco2 v2 (set_vco1 v1 (params s))) s in
        match currentNote s1 with
        | Some _ =>
            let s2 := set_voice (Some note) freq s1 in
            let s3 :=
              set_pitch portamento now targetOsc1Freq targetOsc2Freq
                f1 f2 s2 in
            let s4 :=
              if shouldRetrigger then triggerEnvelopes note now s3 else s3 in
            (s4, log1 ++ log2)
        | None =>
            let s2 := set_voice (Some note) freq s1 in
            let s3 :=
              set_pitch (Fin 0) now targetOsc1Freq targetOsc2Freq
                f1 f2 s2 in
            (triggerEnvelopes note now s3, log1 ++ log2)
        end
  | _, _, _ =>
      (s, [noteOn_error])
  end.

(** [Object.keys(pressedKeys).filter(code => pressedKeys[code] &&
    keyToNoteMap[code])] *)
Definition remainingHeldCodes (keys : gmap string bool) : list string :=
  (List.filter
     (fun kv : string * bool =>
        snd kv && bool_decide (is_Some (keyToNoteMap (fst kv))))
     (map_to_list keys)).*1.

(** The [forEach] of [noteOff]: the highest held note, starting from
    [lastNote = -1], [lastNoteFreq = 0]. *)
Definition lastNote_step (acc : Z * Q) (code : string) : Z * Q :=
  match keyToNoteMap code with
  | Some heldNote =>
      if Z_lt_le_dec (fst acc) heldNote
      then (heldNote, midiToFreq heldNote) else acc
  | None => acc
  end.

Definition lastNote_of (codes : list string) : Z * Q :=
  fold_left lastNote_step codes ((-1)%Z, 0%Q).

(** [noteOff(note)].  The source reads [audioContext.currentTime] without
    testing [audioContext]; with no context that read is an uncaught
    [TypeError] that ends the handler before any assignment. *)
Definition noteOff (note : Z) (s : State) : State * list Msg :=
  match currentNote s, vco1_frequency s, vco2_frequency s with
  | Some current, Some f1, Some f2 =>
      if negb (isAudioInitialized s) || negb (isAudioResumed s) then (s, [])
      else
        let remaining := remainingHeldCodes (pressedKeys s) in
        if negb (bool_decide (note = current)) then (s, [])
        else
          match audioContext s with
          | None => (s, [console_error "Uncaught TypeError"])
          | Some ctx =>
              match remaining with
              | _ :: _ =>
                  let '(lastNote, lastNoteFreq) := lastNote_of remaining in
                  let now := Fin (currentTime ctx) in
                  let portamento := portamento_of (params s) in
                  let '(targetOsc1Freq, v1, log1) :=
                    calculateVcoFrequency ctx (Fin lastNoteFreq)
                      (vco1 (params s)) in
                  let '(targetOsc2Freq, v2, log2) :=
                    calculateVcoFrequency ctx (Fin lastNoteFreq)
                      (vco2 (params s)) in
                  let s1 :=
                    set_params (set_vco2 v2 (set_vco1 v1 (params s))) s in
                  let s2 := set_voice (Some lastNote) (Fin lastNoteFreq) s1 in
                  (set_pitch portamento now targetOsc1Freq targetOsc2Freq
                     f1 f2 s2,
                   log1 ++ log2)
              | [] =>
                  let now := Fin (currentTime ctx) in
                  (set_voice None (Fin 0) (releaseEnvelopes current now s),
                   [])
              end
          end
  | _, _, _ => (s, [])
  end.

(** *** Audio context and initialization *)

(** What [audioContext.resume()] does when awaited: the context runs
    afterwards, it is still not running, or the promise is rejected. *)
Inductive ResumeOutcome : Type :=
| resume_running
| resume_not_running
| resume_throws.

Definition set_context_state (st : ContextState) (ctx : AudioContext)
  : AudioContext :=
  {| state := st; sampleRate := sampleRate ctx;
     currentTime := currentTime ctx |}.

(** [ensureAudioContextResumed()]: the returned boolean, the state and
    the console output. *)
Definition ensureAudioContextResumed (r : ResumeOutcome) (s : State)
  : bool * State * list Msg :=
  match audioContext s with
  | None =>
      (false, s,
       [console_error
          "Attempted to resume context, but it's not initialized."])
  | Some ctx =>
      match state ctx with
      | running => (true, set_isAudioResumed true s, [])
      | suspended =>
          let log := [console_log
                        "AudioContext suspended. Attempting to resume..."] in
          match r with
          | resume_running =>
              (true,
               set_isAudioResumed true
                 (set_audioContext (Some (set_context_state running ctx)) s),
               log ++ [console_log "AudioContext Resumed successfully."])
          | resume_not_running =>
              (false, set_isAudioResumed false s,
               log ++ [console_warn
                  "AudioContext state is still not 'running' after resume attempt:"])
          | resume_throws =>
              (false, set_isAudioResumed false s,
               log ++ [console_error "Error resuming AudioContext:"])
          end
      | closed =>
          (false, set_isAudioResumed false s,
           [console_warn "AudioContext in unexpected state:"])
      end
  end.

(** What the host does when [initAudio] builds the graph: the constructor
    of the context throws, or the context and every node are created. *)
Inductive InitOutcome : Type :=
| init_throws
| init_ok (ctx : AudioContext).

(** A fresh [AudioParam] with the default value given by the host. *)
Definition new_param (default : Q) : AudioParam :=
  {| value := default; scheduled := [] |}.

(** [initAudio()] *)
Definition initAudio (o : InitOutcome) (s : State) : State * list Msg :=
  if isAudioInitialized s then (s, [])
  else
    match o with
    | init_throws =>
        (set_isAudioInitialized false s,
         [console_log "Initializing AudioContext...";
          console_error "Error initializing Web Audio API:"])
    | init_ok ctx =>
        let p := params s in
        let wetLevel := reverbWetGain_gain_value p in
        ({| audioContext := Some ctx;
            isAudioInitialized := true;
            isAudioResumed := ContextState_eqb (state ctx) running;
            params := p;
            vco1_frequency := Some (new_param 440);
            vco2_frequency := Some (new_param 440);
            filter_frequency :=
              Some (set_value (filter_frequency_value p) (new_param 350));
            vcaGainNode_gain := Some (set_value 0 (new_param 1));
            reverbWetGain_gain := Some (set_value wetLevel (new_param 1));
            reverbDryGain_gain :=
              Some (set_value (1 - wetLevel) (new_param 1));
            pressedKeys := pressedKeys s;
            currentNote := currentNote s;
            currentFrequency := currentFrequency s |},
         [console_log "Initializing AudioContext..."])
    end.

(** *** Parameter router *)

Inductive EnvField : Type := f_attack | f_decay | f_sustain | f_release.

(** The [data-param] paths whose value is stored in [Params]. *)
Inductive ParamPath : Type :=
| path_masterTune
| path_portamentoTime
| path_keyFollow
| path_legato
| path_vcfEnv (f : EnvField)
| path_vcaEnv (f : EnvField)
| path_filter_frequency_value
| path_vcfEnvGain_gain_value
| path_reverbWetGain_gain_value.

Definition set_env (f : EnvField) (v : Q) (e : EnvParams) : EnvParams :=
  match f with
  | f_attack =>
      {| attack := v; decay := decay e; sustain := sustain e;
         release := release e |}
  | f_decay =>
      {| attack := attack e; decay := v; sustain := sustain e;
         release := release e |}
  | f_sustain =>
      {| attack := attack e; decay := decay e; sustain := v;
         release := release e |}
  | f_release =>
      {| attack := attack e; decay := decay e; sustain := sustain e;
         release := v |}
  end.

(** The assignment of [updateParameter] to the internal [params]
    object. *)
Definition assign (path : ParamPath) (v : Q) (p : Params) : Params :=
  {| masterTune :=
       match path with path_masterTune => v | _ => masterTune p end;
     portamentoTime :=
       match path with path_portamentoTime => v | _ => portamentoTime p end;
     keyFollow :=
       match path with path_keyFollow => v | _ => keyFollow p end;
     legato := match path with path_legato => v | _ => legato p end;
     vco1 := vco1 p;
     vco2 := vco2 p;
     vcfEnv :=
       match path with
       | path_vcfEnv f => set_env f v (vcfEnv p)
       | _ => vcfEnv p
       end;
     vcaEnv :=
       match path with
       | path_vcaEnv f => set_env f v (vcaEnv p)
       | _ => vcaEnv p
       end;
     filter_frequency_value :=
       match path with
       | path_filter_frequency_value => v
       | _ => filter_frequency_value p
       end;
     vcfEnvGain_gain_value :=
       match path with
       | path_vcfEnvGain_gain_value => v
       | _ => vcfEnvGain_gain_value p
       end;
     reverbWetGain_gain_value :=
       match path with
       | path_reverbWetGain_gain_value => v
       | _ => reverbWetGain_gain_value p
       end |}.

(** A call of [updateParameter(element, newValue, forceUpdate)] on a
    continuous knob (no [data-steps]) or on a plain on/off switch (no
    [data-values]) bound to one of the paths above.  The controls bound
    to the octave of an oscillator are handled by [updateOctave]
    below. *)
Inductive ControlUpdate : Type :=
| knob_update (param : ParamPath) (knob_min knob_max newValue : Q)
| switch_update (param : ParamPath) (up : bool).

Definition paramPath (u : ControlUpdate) : ParamPath :=
  match u with
  | knob_update path _ _ _ => path
  | switch_update path _ => path
  end.

Definition actualAudioValue (u : ControlUpdate) : Q :=
  match u with
  | knob_update _ knob_min knob_max newValue =>
      maxQ knob_min (minQ knob_max newValue)
  | switch_update _ up => if up then 1 else 0
  end.

(** [updateParameter]: the internal parameters are always updated, the
    audio graph only when the engine is initialized and resumed (or the
    update is forced). *)
Definition updateParameter (u : ControlUpdate) (forceUpdate : bool)
    (s : State) : State :=
  let valueToSet := actualAudioValue u in
  let s1 := set_params (assign (paramPath u) valueToSet (params s)) s in
  match audioContext s1 with
  | Some ctx =>
      if isAudioInitialized s1 && (isAudioResumed s1 || forceUpdate) then
        let now := Fin (currentTime ctx) in
        let rampTime := Fin q0_010 in
        match paramPath u with
        | path_reverbWetGain_gain_value =>
            match reverbWetGain_gain s1, reverbDryGain_gain s1 with
            | Some wet, Some dry =>
                set_reverb_gains
                  (Some (call (setTargetAtTime (Fin valueToSet) now rampTime)
                           wet))
                  (Some (call (setTargetAtTime (Fin 1 - Fin valueToSet)%num
                                 now rampTime) dry))
                  s1
            | _, _ => s1
            end
        | path_filter_frequency_value =>
            match filter_frequency s1 with
            | Some f =>
                set_envelope_targets
                  (Some (call (setTargetAtTime (Fin valueToSet) now rampTime)
                           f))
                  (vcaGainNode_gain s1) s1
            | None => s1
            end
        | _ => s1
        end
      else s1
  | None => s1
  end.

(** The two parameter paths of the octave controls, ['vco1.octave'] and
    ['vco2.octave']. *)
Inductive OctavePath : Type := path_vco1_octave | path_vco2_octave.

(** [updateParameter] on a control bound to ['vco1.octave'] or
    ['vco2.octave'].  [actualAudioValue] is what the first part of the
    function has computed from the control: for a stepped knob the value
    of the step (a number, the text of the step when it does not read as
    a number, [undefined] when there is no such step), for another
    control a number or a text.  The value is stored in
    [params.vcoN.octave]; when the engine is initialized and resumed (or
    the update is forced), the oscillator exists and a note is sounding,
    the pitch of the oscillator is computed again from
    [currentFrequency] and scheduled with twice the ramp time. *)
Definition updateOctave (paramPath : OctavePath) (actualAudioValue : jsval)
    (forceUpdate : bool) (s : State) : State * list Msg :=
  let s1 :=
    set_params
      (match paramPath with
       | path_vco1_octave =>
           set_vco1 {| octave := actualAudioValue |} (params s)
       | path_vco2_octave =>
           set_vco2 {| octave := actualAudioValue |} (params s)
       end) s in
  match audioContext s1 with
  | Some ctx =>
      if isAudioInitialized s1 && (isAudioResumed s1 || forceUpdate) then
        let now := Fin (currentTime ctx) in
        let rampTime := Fin q0_010 in
        match currentNote s1 with
        | Some _ =>
            match paramPath with
            | path_vco1_octave =>
                match vco1_frequency s1 with
                | Some f1 =>
                    let '(newFreq, v1, log) :=
                      calculateVcoFrequency ctx (currentFrequency s1)
                        (vco1 (params s1)) in
                    (set_vco_frequencies
                       (Some (call (setTargetAtTime newFreq now
                                      (rampTime * Fin 2)%num) f1))
                       (vco2_frequency s1)
                       (set_params (set_vco1 v1 (params s1)) s1),
                     log)
                | None => (s1, [])
                end
            | path_vco2_octave =>
                match vco2_frequency s1 with
                | Some f2 =>
                    let '(newFreq, v2, log) :=
                      calculateVcoFrequency ctx (currentFrequency s1)
                        (vco2 (params s1)) in
                    (set_vco_frequencies
                       (vco1_frequency s1)
                       (Some (call (setTargetAtTime newFreq now
                                      (rampTime * Fin 2)%num) f2))
                       (set_params (set_vco2 v2 (params s1)) s1),
                     log)
                | None => (s1, [])
                end
            end
        | None => (s1, [])
        end
      else (s1, [])
  | None => (s1, [])
  end.

(** [updateAllKnobs(forceUpdate); updateAllSwitches(forceUpdate)] over the
    controls of the panel. *)
Definition updateAll (controls : list ControlUpdate) (forceUpdate : bool)
    (s : State) : State :=
  fold_left (fun s' u => updateParameter u forceUpdate s') controls s.

(** *** Event listeners *)

Record KeyboardEvent : Type := {
  code : string;
  repeat : bool;
  metaKey : bool;
  ctrlKey : bool;
  altKey : bool
}.

(** First step of the key-down listener: an arrow key pressed while a
    knob has the focus adjusts that knob (possibly without changing its
    value) and is never a note. *)
Inductive KnobArrow : Type :=
| no_knob_arrow
| knob_arrow_unchanged
| knob_arrow_update (u : ControlUpdate).

(** The key-down listener.  It is an [async] function whose only [await]
    is on [ensureAudioContextResumed]; the outcome [r] of that call is part
    of the event and the listener is run as one step.  (The function
    [initializeEventListeners] of the script is never called; the
    listeners modelled here are the ones installed at top level.) *)
Definition keydown (e : KeyboardEvent) (arrow : KnobArrow)
    (r : ResumeOutcome) (s : State) : State * list Msg :=
  match arrow with
  | knob_arrow_update u => (updateParameter u false s, [])
  | knob_arrow_unchanged => (s, [])
  | no_knob_arrow =>
      if metaKey e || ctrlKey e || altKey e then (s, [])
      else
        match keyToNoteMap (code e) with
        | None => (s, [])
        | Some note =>
            if bool_decide (note = 0%Z)
               || bool_decide (pressedKeys s !! code e = Some true)
               || repeat e
            then (s, [])
            else
              let '(canPlay, s1, log) :=
                if negb (isAudioResumed s) && isAudioInitialized s
                then ensureAudioContextResumed r s
                else (isAudioResumed s, s, []) in
              if canPlay then
                let s2 :=
                  set_pressedKeys (<[code e := true]> (pressedKeys s1)) s1 in
                let '(s3, log') := noteOn note (Fin (midiToFreq note)) s2 in
                (s3, log ++ log')
              else if isAudioInitialized s1 then
                (s1, log ++ [not_running_warning])
              else
                (s1, log ++ [not_initialized_error])
        end
  end.

(** The key-up listener; [shiftRestart] is the knob adjustment made when
    releasing Shift restarts the arrow repeat. *)
Definition keyup (e : KeyboardEvent) (shiftRestart : option ControlUpdate)
    (s : State) : State * list Msg :=
  let s0 :=
    match shiftRestart with
    | Some u => updateParameter u false s
    | None => s
    end in
  match keyToNoteMap (code e) with
  | Some note =>
      if negb (bool_decide (note = 0%Z))
         && bool_decide (pressedKeys s0 !! code e = Some true)
      then
        noteOff note
          (set_pressedKeys (<[code e := false]> (pressedKeys s0)) s0)
      else (s0, [])
  | None => (s0, [])
  end.

(** The blur listener of the window. *)
Definition blur (s : State) : State :=
  let s1 :=
    match currentNote s with
    | Some note =>
        let now :=
          match audioContext s with
          | Some ctx => Fin (currentTime ctx)
          | None => Fin 0
          end in
        let s' := if gtb now (Fin 0) then releaseEnvelopes note now s else s in
        set_voice None (Fin 0) s'
    | None => s
    end in
  set_pressedKeys ∅ s1.

(** The click listener of the panel (and the first step of the mouse and
    switch listeners). *)
Definition click (r : ResumeOutcome) (s : State) : State * list Msg :=
  if negb (isAudioResumed s) && isAudioInitialized s then
    let '(_, s', log) := ensureAudioContextResumed r s in (s', log)
  else (s, []).

(** The click listener of the power button. *)
Definition powerButton (o : InitOutcome) (controls : list ControlUpdate)
    (r : ResumeOutcome) (s : State) : State * list Msg :=
  if negb (isAudioInitialized s) then
    let '(s1, log1) := initAudio o s in
    let s2 := updateAll controls true s1 in
    match audioContext s2 with
    | Some ctx =>
        if ContextState_eqb (state ctx) suspended then
          let '(_, s3, log3) := ensureAudioContextResumed r s2 in
          (s3, log1 ++ log3)
        else (s2, log1)
    | None => (s2, log1)
    end
  else
    let '(_, s1, log1) := ensureAudioContextResumed r s in (s1, log1).

(** The [DOMContentLoaded] listener. *)
Definition domContentLoaded (controls : list ControlUpdate)
    (o : InitOutcome) (s : State) : State * list Msg :=
  initAudio o (updateAll controls false s).

(** *** The script as a reactive system

    [ControlChange] is a call of [updateParameter] on a continuous knob
    or an on/off switch by one of the mouse, double-click and timer
    listeners; [OctaveChange] is a call of [updateParameter] on a control
    bound to the octave of an oscillator, whichever listener makes it
    (the key-down listener returns right after an arrow key has adjusted
    a knob).  The passes of [DOMContentLoaded] and [PowerButton] carry
    the continuous knobs and the on/off switches; they run while the
    engine is not initialized, when an octave control only stores its
    value, so the octave controls of a pass are [OctaveChange] events of
    their own. *)

Inductive Event : Type :=
| DOMContentLoaded (controls : list ControlUpdate) (o : InitOutcome)
| PowerButton (o : InitOutcome) (controls : list ControlUpdate)
    (r : ResumeOutcome)
| Click (r : ResumeOutcome)
| ControlChange (u : ControlUpdate)
| KeyDown (e : KeyboardEvent) (arrow : KnobArrow) (r : ResumeOutcome)
| KeyUp (e : KeyboardEvent) (shiftRestart : option ControlUpdate)
| Blur
| OctaveChange (paramPath : OctavePath) (actualAudioValue : jsval).

Definition handle (ev : Event) (s : State) : State * list Msg :=
  match ev with
  | DOMContentLoaded controls o => domContentLoaded controls o s
  | PowerButton o controls r => powerButton o controls r s
  | Click r => click r s
  | ControlChange u => (updateParameter u false s, [])
  | KeyDown e arrow r => keydown e arrow r s
  | KeyUp e shiftRestart => keyup e shiftRestart s
  | Blur => (blur s, [])
  | OctaveChange path v => updateOctave path v false s
  end.

Fixpoint run (evs : list Event) (s : State) : State * list Msg :=
  match evs with
  | [] => (s, [])
  | ev :: rest =>
      let '(s1, log1) := handle ev s in
      let '(s2, log2) := run rest s1 in
      (s2, log1 ++ log2)
  end.

End Script.

(** *** Specification-side definitions *)

(** [x] clamped to the range [[lo, hi]]. *)
Definition clampQ (lo hi x : Q) : Q :=
  if Qlt_le_dec x lo then lo else if Qlt_le_dec hi x then hi else x.

(** An octave index outside [[0, 4]], as the specification words it: not
    a number, [NaN], infinite, or a number below 0 or above 4. *)
Definition index_outside (octaveIndex : jsval) : Prop :=
  match octaveIndex with
  | JNumber (Fin q) => (q < 0)%Q \/ (4 < q)%Q
  | _ => True
  end.

(** An octave index the validation test turns down: not a number, [NaN],
    infinite, or a number below 0 or at least 5. *)
Definition index_rejected (octaveIndex : jsval) : Prop :=
  match octaveIndex with
  | JNumber (Fin q) => (q < 0)%Q \/ (5 <= q)%Q
  | _ => True
  end.

(** A fractional index between 0 and 5: it passes the validation test and
    selects no multiplier. *)
Definition fractional_index (octaveIndex : jsval) : Prop :=
  match octaveIndex with
  | JNumber (Fin q) =>
      (0 <= q < 5)%Q /\ ~ exists z : Z, (q == inject_Z z)%Q
  | _ => False
  end.

(** The five fixed ratios of the specification, by index. *)
Definition spec_ratio (index : Z) : Q :=
  match index with
  | 0%Z => 1 # 8
  | 1%Z => 1 # 4
  | 2%Z => 1 # 2
  | 3%Z => 1
  | _ => 2
  end.

(** The filter-cutoff targets as the specification words them: the base
    is the knob value plus the key-follow offset, the peak adds the
    envelope depth, the sustain adds the depth scaled by the sustain
    level. *)
Definition spec_keyFollowOffset (p : Params) (note : Z) : Q :=
  if Qlt_le_dec q0_5 (keyFollow p)
  then (inject_Z note - 69) / 12 * (filter_frequency_value p * q0_2)
  else 0.

Definition spec_base (p : Params) (note : Z) : Q :=
  filter_frequency_value p + spec_keyFollowOffset p note.

Definition spec_peak (p : Params) (note : Z) : Q :=
  spec_base p note + vcfEnvGain_gain_value p.

Definition spec_sustain (p : Params) (note : Z) (sustainLevel : Q) : Q :=
  spec_base p note + sustainLevel * vcfEnvGain_gain_value p.

(** An envelope is retriggered at [now] when its target receives a
    cancellation, a value hold and the attack and decay ramps. *)
Definition retriggered (before after : AudioParam) (now : num) : Prop :=
  exists v0 v1 t1 v2 t2 : num,
    scheduled after =
    scheduled before ++
      [cancelScheduledValues now; setValueAtTime v0 now;
       linearRampToValueAtTime v1 t1; linearRampToValueAtTime v2 t2].

(** The value an [AudioParam] is heading to: the target of the latest
    automation call, or its value when nothing was scheduled. *)
Definition automation_target (a : Automation) (before : num) : num :=
  match a with
  | cancelScheduledValues _ => before
  | setValueAtTime v _ => v
  | linearRampToValueAtTime v _ => v
  | setTargetAtTime v _ _ => v
  end.

Definition gain_target (p : AudioParam) : num :=
  fold_left (fun acc a => automation_target a acc) (scheduled p)
    (Fin (value p)).

(** A console output without any error-level message. *)
Definition no_error (log : list Msg) : Prop :=
  Forall (fun m => level m <> LError) log.

(** What holds of the engine and of the voice between two events. *)
Definition engine_ok (s : State) : Prop :=
  (isAudioResumed s = true ->
   isAudioInitialized s = true /\
   exists ctx, audioContext s = Some ctx /\ state ctx = running) /\
  (isAudioInitialized s = true ->
   is_Some (audioContext s) /\
   is_Some (vco1_frequency s) /\ is_Some (vco2_frequency s) /\
   is_Some (filter_frequency s) /\ is_Some (vcaGainNode_gain s)) /\
  (isAudioInitialized s = false -> audioContext s = None).

Definition voice_ok (s : State) : Prop :=
  (forall n : Z, currentNote s = Some n ->
     isAudioResumed s = true /\
     exists c : string,
       pressedKeys s !! c = Some true /\ keyToNoteMap c = Some n) /\
  (currentNote s = None ->
     forall c : string,
       pressedKeys s !! c = Some true -> keyToNoteMap c = None).

(** The wet and dry reverb gains exist together and head to
    complementary targets. *)
Definition reverb_ok (s : State) : Prop :=
  match reverbWetGain_gain s, reverbDryGain_gain s with
  | Some wet, Some dry =>
      exists w d : Q,
        gain_target wet = Fin w /\ gain_target dry = Fin d /\ (w + d == 1)%Q
  | None, None => True
  | _, _ => False
  end.

(** What the parameter router leaves untouched. *)
Definition router_frame (s s' : State) : Prop :=
  audioContext s' = audioContext s /\
  isAudioInitialized s' = isAudioInitialized s /\
  isAudioResumed s' = isAudioResumed s /\
  vco1_frequency s' = vco1_frequency s /\
  vco2_frequency s' = vco2_frequency s /\
  (is_Some (filter_frequency s') <-> is_Some (filter_frequency s)) /\
  vcaGainNode_gain s' = vcaGainNode_gain s /\
  pressedKeys s' = pressedKeys s /\
  currentNote s' = currentNote s /\
  currentFrequency s' = currentFrequency s.

(** What an octave control leaves untouched. *)
Definition octave_frame (s s' : State) : Prop :=
  audioContext s' = audioContext s /\
  isAudioInitialized s' = isAudioInitialized s /\
  isAudioResumed s' = isAudioResumed s /\
  (is_Some (vco1_frequency s') <-> is_Some (vco1_frequency s)) /\
  (is_Some (vco2_frequency s') <-> is_Some (vco2_frequency s)) /\
  filter_frequency s' = filter_frequency s /\
  vcaGainNode_gain s' = vcaGainNode_gain s /\
  reverbWetGain_gain s' = reverbWetGain_gain s /\
  reverbDryGain_gain s' = reverbDryGain_gain s /\
  pressedKeys s' = pressedKeys s /\
  currentNote s' = currentNote s /\
  currentFrequency s' = currentFrequency s.

(** What the envelope helpers leave untouched. *)
Definition envelope_frame (s s' : State) : Prop :=
  audioContext s' = audioContext s /\
  isAudioInitialized s' = isAudioInitialized s /\
  isAudioResumed s' = isAudioResumed s /\
  params s' = params s /\
  vco1_frequency s' = vco1_frequency s /\
  vco2_frequency s' = vco2_frequency s /\
  (is_Some (filter_frequency s') <-> is_Some (filter_frequency s)) /\
  (is_Some (vcaGainNode_gain s') <-> is_Some (vcaGainNode_gain s)) /\
  reverbWetGain_gain s' = reverbWetGain_gain s /\
  reverbDryGain_gain s' = reverbDryGain_gain s /\
  pressedKeys s' = pressedKeys s /\
  currentNote s' = currentNote s /\
  currentFrequency s' = currentFrequency s.

(** What the note and resume handlers leave untouched of the reverb. *)
Definition reverb_same (s s' : State) : Prop :=
  reverbWetGain_gain s' = reverbWetGain_gain s /\
  reverbDryGain_gain s' = reverbDryGain_gain s.

(** The parameters and the state when the script has been loaded. *)
Definition default_params : Params :=
  {| masterTune := 0;
     portamentoTime := 0;
     keyFollow := 0;
     legato := 1;
     vco1 := {| octave := JNumber (Fin 2) |};
     vco2 := {| octave := JNumber (Fin 2) |};
     vcfEnv := {| attack := 1 # 100; decay := 1 # 10; sustain := 8 # 10;
                  release := 2 # 10 |};
     vcaEnv := {| attack := 1 # 100; decay := 1 # 10; sustain := 1;
                  release := 2 # 10 |};
     filter_frequency_value := 20000;
     vcfEnvGain_gain_value := 4000;
     reverbWetGain_gain_value := 2 # 10 |}.

Definition loaded (p : Params) : State :=
  {| audioContext := None;
     isAudioInitialized := false;
     isAudioResumed := false;
     params := p;
     vco1_frequency := None;
     vco2_frequency := None;
     filter_frequency := None;
     vcaGainNode_gain := None;
     reverbWetGain_gain := None;
     reverbDryGain_gain := None;
     pressedKeys := ∅;
     currentNote := None;
     currentFrequency := Fin 0 |}.

(** *** Sample data *)

(** A stand-in for [Math.pow], exact on whole exponents. *)
Definition sample_pow (x y : Q) : Q := Qpower x (Qfloor y).

Definition sample_context : AudioContext :=
  {| state := running; sampleRate := 44100; currentTime := 1 |}.

Definition sample_suspended : AudioContext :=
  {| state := suspended; sampleRate := 44100; currentTime := 1 |}.

Definition key (c : string) : KeyboardEvent :=
  {| code := c; repeat := false; metaKey := false; ctrlKey := false;
     altKey := false |}.

(** The page loaded with a running engine, then A, D pressed. *)
Definition sample_events : list Event :=
  [DOMContentLoaded [] (init_ok sample_context);
   KeyDown (key "KeyA") no_knob_arrow resume_running;
   KeyDown (key "KeyD") no_knob_arrow resume_running].

(** A cutoff knob at its lowest position with key-follow on. *)
Definition low_cutoff_params : Params :=
  {| masterTune := 0;
     portamentoTime := 0;
     keyFollow := 1;
     legato := 1;
     vco1 := {| octave := JNumber (Fin 2) |};
     vco2 := {| octave := JNumber (Fin 2) |};
     vcfEnv := {| attack := 1 # 100; decay := 1 # 10; sustain := 8 # 10;
                  release := 2 # 10 |};
     vcaEnv := {| attack := 1 # 100; decay := 1 # 10; sustain := 1;
                  release := 2 # 10 |};
     filter_frequency_value := 20;
     vcfEnvGain_gain_value := 100;
     reverbWetGain_gain_value := 2 # 10 |}.

End Synth.

(* ===================================================================== *)
(** ** Invariants of the voice *)
(* ===================================================================== *)

Module SynthSpec.

Import Synth.

Section Script.

Variable Math_pow : Q -> Q -> Q.

(** The pitch bookkeeping agrees with the sounding note: a sounding note
    is one of the note map and [currentFrequency] is its frequency; in
    silence [currentFrequency] is 0. *)
Definition pitch_ok (s : State) : Prop :=
  match currentNote s with
  | Some n =>
      (exists c : string, keyToNoteMap c = Some n) /\
      currentFrequency s = Fin (midiToFreq Math_pow n)
  | None => currentFrequency s = Fin 0
  end.

End Script.

(** An automation call whose value, if it has one, is a finite number of
    [[lo, hi]]. *)
Definition automation_within (lo hi : Q) (a : Automation) : Prop :=
  match a with
  | cancelScheduledValues _ => True
  | setValueAtTime v _
  | linearRampToValueAtTime v _
  | setTargetAtTime v _ _ => exists q : Q, v = Fin q /\ (lo <= q <= hi)%Q
  end.

(** Everything scheduled on the two oscillator frequencies lies between
    20 Hz and half the sample rate of the context. *)
Definition oscillators_safe (s : State) : Prop :=
  forall (ctx : AudioContext) (f : AudioParam),
    audioContext s = Some ctx ->
    vco1_frequency s = Some f \/ vco2_frequency s = Some f ->
    Forall (automation_within 20 (sampleRate ctx / 2)) (scheduled f).

(** The sample rate of the context is at least [lo]. *)
Definition context_rate_from (lo : Q) (s : State) : Prop :=
  forall ctx : AudioContext,
    audioContext s = Some ctx -> (lo <= sampleRate ctx)%Q.

(** The sample rate of every context the host hands out in a sequence of
    events is at least [lo]. *)
Definition created_context (ev : Event) : option AudioContext :=
  match ev with
  | DOMContentLoaded _ (init_ok ctx) => Some ctx
  | PowerButton (init_ok ctx) _ _ => Some ctx
  | _ => None
  end.

Definition sample_rates_from (lo : Q) (evs : list Event) : Prop :=
  Forall
    (fun ev =>
       match created_context ev with
       | Some ctx => (lo <= sampleRate ctx)%Q
       | None => True
       end)
    evs.

End SynthSpec.

(* ===================================================================== *)
(** ** The knobs of the panel *)
(* ===================================================================== *)

Module Panel.

(** [Math.round(a)]: the nearest integer, halves going up. *)
Definition Math_round (a : num) : num :=
  match a with
  | Fin x => Fin (inject_Z (Qfloor (x + (1 # 2))))
  | _ => a
  end.

(** [Math.abs(a)] *)
Definition Math_abs (a : num) : num :=
  match a with
  | Fin x => Fin (Qabs x)
  | PInf | NInf => PInf
  | NaN => NaN
  end.

(** The number read back from [a.toFixed(5)]: [a] rounded to five
    decimals, halves going away from zero; numbers of magnitude 1e21 and
    above are printed in full. *)
Definition toFixed5 (a : num) : num :=
  match a with
  | Fin x =>
      if Qlt_le_dec (Qabs x) (inject_Z (10 ^ 21)) then
        let n := Qfloor (Qabs x * 100000 + (1 # 2)) in
        if Qlt_le_dec x 0 then Fin (- (inject_Z n / 100000))
        else Fin (inject_Z n / 100000)
      else a
  | _ => a
  end.

(** One entry of [knob.dataset.steps.split(',')]: its text and the
    number [parseFloat] reads from it ([NaN] when it reads none). *)
Record Step : Type := {
  step_text : string;
  step_number : num
}.

(** What the script reads from a knob element: [dataset.param] ([None]
    when the attribute is missing), [parseFloat] of [dataset.min],
    [dataset.max] and [dataset.value], and the entries of [dataset.steps]
    ([None] when the attribute is missing or empty). *)
Record Knob : Type := {
  knob_param : option string;
  knob_min : num;
  knob_max : num;
  knob_steps : option (list Step);
  knob_value : num
}.

Definition set_knob_value (v : num) (k : Knob) : Knob :=
  {| knob_param := knob_param k;
     knob_min := knob_min k; knob_max := knob_max k;
     knob_steps := knob_steps k; knob_value := v |}.

(** [Math.max(0, Math.min(steps.length - 1, x))] *)
Definition clampIndex (steps : list Step) (x : num) : num :=
  Math_max (Fin 0)
    (Math_min (ofZ (Z.of_nat (length steps)) - Fin 1)%num x).

(** [steps[stepIndex]]; [None] is [undefined]. *)
Definition step_at (steps : list Step) (stepIndex : num) : option Step :=
  match Synth.array_index stepIndex with
  | Some i => steps !! i
  | None => None
  end.

(** [updateKnobVisual(knob, value)]: the knob with its new
    [dataset.value], and the rotation in degrees written to its style.
    The texts of the shape and octave indicators are not modelled. *)
Definition updateKnobVisual (knob : Knob) (value : num) : Knob * num :=
  let stored :=
    match knob_steps knob with
    | Some _ => Math_round value
    | None => toFixed5 value
    end in
  let percentage :=
    match knob_steps knob with
    | Some steps =>
        let stepIndex := clampIndex steps (Math_round value) in
        if gtb (ofZ (Z.of_nat (length steps))) (Fin 1)
        then (stepIndex / (ofZ (Z.of_nat (length steps)) - Fin 1))%num
        else Fin (1 # 2)
    | None =>
        let range := (knob_max knob - knob_min knob)%num in
        if negb (eqb range (Fin 0))
        then ((value - knob_min knob) / range)%num
        else Fin (1 # 2)
    end in
  let percentage := Math_max (Fin 0) (Math_min (Fin 1) percentage) in
  let rotation := (Fin (-135) + percentage * Fin 270)%num in
  (set_knob_value stored knob, rotation).

(** [!paramPath || paramPath === 'dummy.xmod'] *)
Definition ignored_control (paramPath : option string) : bool :=
  match paramPath with
  | None => true
  | Some path => String.eqb path "" || String.eqb path "dummy.xmod"
  end.

(** The knob branch of [updateParameter(element, newValue)]: [None] for
    a control that is ignored, otherwise the knob after
    [updateKnobVisual], the rotation, and the value sent on to the
    parameters ([actualAudioValue]). *)
Definition updateParameter_knob (element : Knob) (newValue : num)
  : option (Knob * num * Synth.jsval) :=
  if ignored_control (knob_param element) then None else
  let '(targetValue, actualAudioValue) :=
    match knob_steps element with
    | Some steps =>
        let stepIndex := clampIndex steps (Math_round newValue) in
        (stepIndex,
         match step_at steps stepIndex with
         | Some st =>
             if isNaN (step_number st) then Synth.JString (step_text st)
             else Synth.JNumber (step_number st)
         | None => Synth.JUndefined
         end)
    | None =>
        let targetValue :=
          Math_max (knob_min element) (Math_min (knob_max element) newValue) in
        (targetValue, Synth.JNumber targetValue)
    end in
  let '(element', rotation) := updateKnobVisual element targetValue in
  Some (element', rotation, actualAudioValue).

(** [handleKnobInteraction(knob, adjustmentFn)]: the value with which
    [updateParameter(knob, newValue)] is called, or [None] when the
    change is too small for a call. *)
Definition handleKnobInteraction (knob : Knob)
    (adjustmentFn : num -> num -> num) : option num :=
  let currentValue := knob_value knob in
  let newValue :=
    match knob_steps knob with
    | Some steps =>
        let currentStepIndex := Math_round currentValue in
        clampIndex steps (adjustmentFn currentStepIndex (Fin 1))
    | None =>
        let range := (knob_max knob - knob_min knob)%num in
        let range := if leb range (Fin 0) then Fin 1 else range in
        let stepAmount := (range / Fin 100)%num in
        Math_max (knob_min knob)
          (Math_min (knob_max knob) (adjustmentFn currentValue stepAmount))
    end in
  if gtb (Math_abs (newValue - currentValue)%num) (Fin (1 # 1000000000))
  then Some newValue else None.

(** The two values of [direction]. *)
Inductive Direction : Type := dir_left | dir_right.

(** [handleArrowPress(knob, direction, isShift)] *)
Definition handleArrowPress (knob : Knob) (direction : Direction)
    (isShift : bool) : option num :=
  let multiplier := if isShift then Fin 10 else Fin 1 in
  handleKnobInteraction knob
    (fun current step =>
       let effectiveStep := (step * multiplier)%num in
       match direction with
       | dir_left => (current - effectiveStep)%num
       | dir_right => (current + effectiveStep)%num
       end).

(** The drag started by a mouse-down on a knob: [startY] and
    [startValue]. *)
Record Drag : Type := {
  startY : num;
  startValue : num
}.

(** [handleKnobMouseMove(e)]: [drag] is [None] when no drag is under way,
    [dragKnob] is the knob being dragged, [clientY] is [e.clientY]. *)
Definition handleKnobMouseMove (drag : option Drag) (dragKnob : Knob)
    (clientY : num) : option num :=
  match drag with
  | None => None
  | Some d =>
      let deltaY := (startY d - clientY)%num in
      handleKnobInteraction dragKnob
        (fun _ _ =>
           let range := (knob_max dragKnob - knob_min dragKnob)%num in
           let changePerPixel :=
             ((if gtb range (Fin 0) then range / Fin 150
               else Fin 1 / Fin 150)
              * Fin (18 # 10) * Fin 1)%num in
           let valueChange := (deltaY * changePerPixel)%num in
           let newValue := (startValue d + valueChange)%num in
           match knob_steps dragKnob with
           | Some _ => Math_round newValue
           | None => newValue
           end)
  end.

(** Sample data: the cutoff knob (20 Hz to 20 kHz) and a five-step
    knob. *)
Definition sample_knob : Knob :=
  {| knob_param := Some "filter.frequency.value";
     knob_min := Fin 20; knob_max := Fin 20000; knob_steps := None;
     knob_value := Fin 1000 |}.

Definition sample_steps : list Step :=
  [{| step_text := "0"; step_number := Fin 0 |};
   {| step_text := "1"; step_number := Fin 1 |};
   {| step_text := "2"; step_number := Fin 2 |};
   {| step_text := "3"; step_number := Fin 3 |};
   {| step_text := "4"; step_number := Fin 4 |}].

Definition sample_stepped_knob : Knob :=
  {| knob_param := Some "vco1.octave";
     knob_min := Fin 0; knob_max := Fin 4; knob_steps := Some sample_steps;
     knob_value := Fin 2 |}.

End Panel.

(* ===================================================================== *)
(** ** Facts about random-lfo-processor.js *)
(* ===================================================================== *)

Module RandomLfoFacts.

Import RandomLfo.

Section LfoFacts.
Variable sampleRate : Q.
Variable Math_random : nat -> Q.

Local Abbreviation advance := (RandomLfo.advance Math_random).
Local Abbreviation frames := (RandomLfo.frames Math_random).
Local Abbreviation held := (RandomLfo.held Math_random).
Local Abbreviation fill := (RandomLfo.fill Math_random).
Local Abbreviation sample_loop := (RandomLfo.sample_loop Math_random).
Local Abbreviation process := (RandomLfo.process sampleRate Math_random).
Local Abbreviation process_all := (RandomLfo.process_all sampleRate Math_random).
Local Abbreviation interval_of := (RandomLfo.interval_of sampleRate).
Local Abbreviation consistent := (RandomLfo.consistent sampleRate).

Lemma channel_loop_lookup (v : num) (i todo channel c : nat)
    (output : list (list num)) :
  channel + todo = length output ->
  channel_loop v i todo channel output !! c =
  if decide (channel <= c) then (fun ch => <[i := v]> ch) <$> output !! c
  else output !! c.
Proof.
  revert channel output.
  induction todo as [|todo IH]; intros channel output Hlen; simpl.
  - case_decide; [|done].
    rewrite (lookup_ge_None_2 output c) by lia. done.
  - rewrite IH by (rewrite length_alter; lia).
    destruct (decide (c = channel)) as [->|Hne].
    + rewrite decide_False by lia. rewrite decide_True by lia.
      by rewrite list_lookup_alter_eq.
    + rewrite list_lookup_alter_ne by done.
      repeat case_decide; done || lia.
Qed.

Lemma channel_loop_fmap (v : num) (i : nat) (output : list (list num)) :
  channel_loop v i (length output) 0 output =
  (fun ch => <[i := v]> ch) <$> output.
Proof.
  apply list_eq. intros c.
  rewrite channel_loop_lookup by lia.
  rewrite decide_True by lia. by rewrite list_lookup_fmap.
Qed.

Lemma sample_loop_fill (spc : num) (todo i : nat) (this : RandomLfoProcessor)
    (output : list (list num)) :
  sample_loop spc todo i this output =
  (frames spc todo this, fill spc todo i this <$> output).
Proof.
  revert i this output.
  induction todo as [|todo IH]; intros i this output; simpl.
  - by rewrite list_fmap_id.
  - rewrite channel_loop_fmap, IH. f_equal.
    rewrite <- list_fmap_compose. done.
Qed.

Lemma frames_S_end (spc : num) (n : nat) (this : RandomLfoProcessor) :
  frames spc (S n) this = advance spc (frames spc n this).
Proof.
  revert this. induction n as [|n IH]; intros this; [done|].
  change (frames spc (S (S n)) this) with (frames spc (S n) (advance spc this)).
  rewrite IH. done.
Qed.

Lemma frames_add (spc : num) (n m : nat) (this : RandomLfoProcessor) :
  frames spc (n + m) this = frames spc m (frames spc n this).
Proof. revert this. induction n as [|n IH]; intros this; simpl; [done|apply IH]. Qed.

Lemma fill_length (spc : num) (todo i : nat) (this : RandomLfoProcessor)
    (ch : list num) :
  length (fill spc todo i this ch) = length ch.
Proof.
  revert i this ch. induction todo as [|todo IH]; intros i this ch; simpl; [done|].
  rewrite IH. apply length_insert.
Qed.

Lemma fill_lookup (spc : num) (todo i j : nat) (this : RandomLfoProcessor)
    (ch : list num) :
  fill spc todo i this ch !! j =
  if decide (i <= j < i + todo /\ j < length ch)
  then Some (held spc (j - i) this) else ch !! j.
Proof.
  revert i this ch. induction todo as [|todo IH]; intros i this ch; simpl.
  - rewrite decide_False by lia. done.
  - rewrite IH. rewrite length_insert.
    destruct (decide (j = i)) as [->|Hne].
    + rewrite decide_False by lia.
      destruct (decide (i < length ch)) as [Hlt|Hge].
      * rewrite decide_True by lia. rewrite list_lookup_insert_eq by done.
        replace (i - i) with 0 by lia. done.
      * rewrite decide_False by lia. rewrite list_insert_ge by lia. done.
    + rewrite list_lookup_insert_ne by done.
      destruct (decide (S i <= j < S i + todo /\ j < length ch)) as [H|H].
      * rewrite decide_True by lia. unfold RandomLfo.held.
        replace (j - i) with (S (j - S i)) by lia. done.
      * rewrite decide_False by lia. done.
Qed.

Lemma geb_Fin (a b : Q) :
  geb (Fin a) (Fin b) = if Qlt_le_dec a b then false else true.
Proof. reflexivity. Qed.


(** A frame that completes the cycle subtracts the threshold from the
    phase and draws a new value. *)
Lemma advance_reach (c phi : Q) (this : RandomLfoProcessor) :
  phase this = Fin phi -> (c <= phi + 1)%Q ->
  advance (Fin c) this =
  {| phase := Fin (phi + 1 + - c);
     currentValue := Fin (Math_random (randomCalls this) * 2 + - (1));
     _updateInterval := _updateInterval this;
     _lastFrequency := _lastFrequency this;
     randomCalls := S (randomCalls this) |}.
Proof.
  intros Hphi Hle. unfold RandomLfo.advance. rewrite Hphi. simpl.
  destruct (Qlt_le_dec (phi + 1) c); [lra | done].
Qed.

Lemma advance_never (this : RandomLfoProcessor) (phi : Q) :
  phase this = Fin phi ->
  advance PInf this =
  {| phase := Fin (phi + 1); currentValue := currentValue this;
     _updateInterval := _updateInterval this;
     _lastFrequency := _lastFrequency this;
     randomCalls := randomCalls this |}.
Proof. intros Hphi. unfold RandomLfo.advance. rewrite Hphi. done. Qed.



Lemma frames_never (k : nat) :
  forall (this : RandomLfoProcessor) (phi : Q),
  phase this = Fin phi ->
  exists phi' : Q,
    phase (frames PInf k this) = Fin phi' /\
    currentValue (frames PInf k this) = currentValue this /\
    randomCalls (frames PInf k this) = randomCalls this /\
    _updateInterval (frames PInf k this) = _updateInterval this /\
    _lastFrequency (frames PInf k this) = _lastFrequency this.
Proof.
  induction k as [|k IH]; intros this phi Hphi.
  - exists phi. done.
  - simpl RandomLfo.frames. rewrite (advance_never this phi) by done.
    edestruct (IH {| phase := Fin (phi + 1); currentValue := currentValue this;
     _updateInterval := _updateInterval this;
     _lastFrequency := _lastFrequency this;
     randomCalls := randomCalls this |} (phi + 1)%Q) as (phi' & H1 & H2 & H3 & H4 & H5);
      [done|].
    exists phi'. done.
Qed.

(** The threshold used by a call of [process] with a positive
    frequency. *)
Lemma process_threshold (f : Q) (this : RandomLfoProcessor) :
  (0 < f)%Q -> consistent this ->
  exists c : Q, (c == sampleRate / f)%Q /\
    _updateInterval
      (if eqb (Fin f) (_lastFrequency this) then this
       else RandomLfo._recalculateInterval sampleRate (Fin f) this) = Fin c /\
    phase
      (if eqb (Fin f) (_lastFrequency this) then this
       else RandomLfo._recalculateInterval sampleRate (Fin f) this) = phase this /\
    currentValue
      (if eqb (Fin f) (_lastFrequency this) then this
       else RandomLfo._recalculateInterval sampleRate (Fin f) this) = currentValue this /\
    randomCalls
      (if eqb (Fin f) (_lastFrequency this) then this
       else RandomLfo._recalculateInterval sampleRate (Fin f) this) = randomCalls this.
Proof.
  intros Hf [_ Hint].
  destruct (eqb (Fin f) (_lastFrequency this)) eqn:Heq.
  - destruct (_lastFrequency this) as [f0| | |] eqn:Hlast; simpl in Heq; try done.
    destruct (Qeq_dec f f0) as [Hff|]; [|done].
    exists (sampleRate / f0)%Q. split; [by rewrite Hff|].
    split; [|done]. rewrite Hint. unfold RandomLfo.interval_of. simpl.
    destruct (Qlt_le_dec 0 f0); [|lra]. destruct (Qeq_dec f0 0); [lra|done].
  - exists (sampleRate / f)%Q. split; [reflexivity|]. split; [|done].
    simpl. destruct (Qlt_le_dec 0 f); [|lra]. destruct (Qeq_dec f 0); [lra|done].
Qed.

Lemma process_unfold (frequency : num) (channel0 : list num)
    (rest : list (list num)) (this : RandomLfoProcessor) :
  process frequency (channel0 :: rest) this =
  let this1 :=
    if eqb frequency (_lastFrequency this) then this
    else RandomLfo._recalculateInterval sampleRate frequency this in
  Some (true, frames (_updateInterval this1) (length channel0) this1,
        fill (_updateInterval this1) (length channel0) 0 this1
          <$> (channel0 :: rest)).
Proof.
  unfold RandomLfo.process. cbv zeta. rewrite sample_loop_fill. done.
Qed.

Lemma advance_interval (spc : num) (this : RandomLfoProcessor) :
  _updateInterval (advance spc this) = _updateInterval this /\
  _lastFrequency (advance spc this) = _lastFrequency this.
Proof. unfold RandomLfo.advance. by destruct (geb _ _). Qed.

Lemma frames_interval (spc : num) (n : nat) (this : RandomLfoProcessor) :
  _updateInterval (frames spc n this) = _updateInterval this /\
  _lastFrequency (frames spc n this) = _lastFrequency this.
Proof.
  revert this. induction n as [|n IH]; intros this; [done|].
  simpl. destruct (IH (advance spc this)) as [-> ->]. apply advance_interval.
Qed.

Lemma consistent_recalculate (frequency : num) (this : RandomLfoProcessor) :
  (exists phi : Q, phase this = Fin phi) ->
  consistent (RandomLfo._recalculateInterval sampleRate frequency this).
Proof. intros H. split; done. Qed.





(** One call of [process] with a frequency that is not positive. *)
Lemma process_not_positive (f : num) (channel0 : list num)
    (rest : list (list num)) (this : RandomLfoProcessor) :
  gtb f (Fin 0) = false ->
  (exists phi : Q, phase this = Fin phi) ->
  (eqb f (_lastFrequency this) = true -> _updateInterval this = PInf) ->
  exists (this' : RandomLfoProcessor) (output' : list (list num)),
    process f (channel0 :: rest) this = Some (true, this', output') /\
    (exists phi : Q, phase this' = Fin phi) /\
    _updateInterval this' = PInf /\
    currentValue this' = currentValue this /\
    randomCalls this' = randomCalls this /\
    forall (c j : nat) (ch ch' : list num),
      (channel0 :: rest) !! c = Some ch -> output' !! c = Some ch' ->
      j < length channel0 -> j < length ch ->
      ch' !! j = Some (currentValue this).
Proof.
  intros Hf [phi Hphi] Hsame.
  rewrite process_unfold. cbv zeta.
  set (this1 := if eqb f (_lastFrequency this) then this
                else RandomLfo._recalculateInterval sampleRate f this).
  assert (_updateInterval this1 = PInf) as Hint.
  { unfold this1. destruct (eqb f (_lastFrequency this)); [by apply Hsame|].
    unfold RandomLfo._recalculateInterval. cbn [RandomLfo._updateInterval].
    by rewrite Hf. }
  assert (phase this1 = Fin phi /\ currentValue this1 = currentValue this /\
          randomCalls this1 = randomCalls this) as (Hp1 & Hc1 & Hr1).
  { unfold this1. by destruct (eqb f (_lastFrequency this)). }
  rewrite Hint.
  destruct (frames_never (length channel0) this1 phi Hp1)
    as (phi' & H1 & H2 & H3 & H4 & H5).
  eexists _, _. split; [reflexivity|].
  split; [by exists phi'|]. split; [by rewrite H4|].
  split; [by rewrite H2|]. split; [by rewrite H3|].
  intros c j ch ch' Hch Hch' Hjl Hj.
  rewrite list_lookup_fmap, Hch in Hch'. simpl in Hch'. injection Hch' as <-.
  rewrite fill_lookup. rewrite decide_True by lia.
  unfold RandomLfo.held.
  destruct (frames_never (S (j - 0)) this1 phi Hp1) as (? & _ & -> & _).
  by rewrite Hc1.
Qed.

Lemma eqb_gtb_zero (f g : num) :
  eqb f g = true -> gtb g (Fin 0) = gtb f (Fin 0).
Proof.
  destruct f as [a| | |], g as [b| | |]; simpl; try done.
  destruct (Qeq_dec a b) as [Hab|]; [|done]. intros _.
  destruct (Qlt_le_dec 0 b), (Qlt_le_dec 0 a); done || lra.
Qed.

Lemma leb_not_gtb (f : num) : leb f (Fin 0) = true -> gtb f (Fin 0) = false.
Proof.
  destruct f as [a| | |]; simpl; try done.
  destruct (Qlt_le_dec 0 a); done.
Qed.

Lemma process_all_not_positive (blocks : list (num * list (list num))) :
  forall this : RandomLfoProcessor,
  (exists phi : Q, phase this = Fin phi) ->
  (forall f output, head blocks = Some (f, output) ->
     eqb f (_lastFrequency this) = true -> _updateInterval this = PInf) ->
  Forall (fun b => leb b.1 (Fin 0) = true /\ b.2 <> []) blocks ->
  exists (this' : RandomLfoProcessor) (outputs : list (list (list num))),
    process_all blocks this = Some (this', outputs) /\
    currentValue this' = currentValue this /\
    randomCalls this' = randomCalls this /\
    length outputs = length blocks /\
    forall (k c j : nat) (f : num) (output output' : list (list num))
           (channel0 ch ch' : list num),
      blocks !! k = Some (f, output) -> outputs !! k = Some output' ->
      head output = Some channel0 ->
      output !! c = Some ch -> output' !! c = Some ch' ->
      j < length channel0 -> j < length ch ->
      ch' !! j = Some (currentValue this).
Proof.
  induction blocks as [|[f output] blocks IH]; intros this Hphase Hsame Hall.
  - exists this, []; repeat split; try done; intros k; by rewrite lookup_nil.
  - apply Forall_cons in Hall as [[Hf Hne] Hall]. simpl in Hf, Hne.
    destruct output as [|channel0 rest]; [done|].
    destruct (process_not_positive f channel0 rest this (leb_not_gtb f Hf)
                Hphase (Hsame _ _ eq_refl))
      as (this1 & output1 & Hproc & Hphase1 & Hint1 & Hcv1 & Hrc1 & Hout1).
    destruct (IH this1 Hphase1 ltac:(done) Hall)
      as (this2 & outputs & Hall2 & Hcv2 & Hrc2 & Hlen & Hout2).
    exists this2, (output1 :: outputs).
    cbn [RandomLfo.process_all]. rewrite Hproc, Hall2.
    split; [done|]. split; [by rewrite Hcv2|]. split; [by rewrite Hrc2|].
    split; [simpl; by rewrite Hlen|].
    intros [|k] c j f' output output' channel0' ch ch' Hb Ho Hhd Hch Hch' Hjl Hj;
      simpl in Hb, Ho.
    + injection Hb as <- <-. injection Ho as <-. simpl in Hhd.
      injection Hhd as <-. by eapply Hout1.
    + rewrite <- Hcv1. by eapply Hout2.
Qed.

(** C9.  Once the frequency parameter is [0] or below, the processor never
    draws again: whatever the number and the size of the following render
    quanta, the held value and the count of random draws stay what they
    were, and every sample written to every channel is that held value. *)
Theorem C9_frozen_when_frequency_not_positive
    (blocks : list (num * list (list num))) (this : RandomLfoProcessor) :
  consistent this ->
  Forall (fun b => leb b.1 (Fin 0) = true /\ b.2 <> []) blocks ->
  exists (this' : RandomLfoProcessor) (outputs : list (list (list num))),
    process_all blocks this = Some (this', outputs) /\
    currentValue this' = currentValue this /\
    randomCalls this' = randomCalls this /\
    length outputs = length blocks /\
    forall (k c j : nat) (f : num) (output output' : list (list num))
           (channel0 ch ch' : list num),
      blocks !! k = Some (f, output) -> outputs !! k = Some output' ->
      head output = Some channel0 ->
      output !! c = Some ch -> output' !! c = Some ch' ->
      j < length channel0 -> j < length ch ->
      ch' !! j = Some (currentValue this).
Proof.
  intros [Hphase Hint] Hall.
  apply process_all_not_positive; [done| |done].
  intros f output Hhd Heq.
  destruct blocks as [|b blocks]; [done|]. simpl in Hhd. injection Hhd as ->.
  apply Forall_cons in Hall as [[Hf _] _]. simpl in Hf.
  rewrite Hint. unfold RandomLfo.interval_of.
  by rewrite (eqb_gtb_zero _ _ Heq), (leb_not_gtb _ Hf).
Qed.

End LfoFacts.




(** C9 at a concrete input: two render quanta with frequencies 0 and -3
    after construction. *)
Lemma C9_frozen_witness :
  RandomLfo.consistent 44100 (RandomLfo.constructor 44100) /\
  Forall (fun b : num * list (list num) => leb b.1 (Fin 0) = true /\ b.2 <> [])
    [(Fin 0, quantum); (Fin (-3), quantum)] /\
  exists (this' : RandomLfo.RandomLfoProcessor)
         (outputs : list (list (list num))),
    RandomLfo.process_all 44100 sample_random
      [(Fin 0, quantum); (Fin (-3), quantum)] (RandomLfo.constructor 44100)
    = Some (this', outputs) /\
    RandomLfo.currentValue this' = Fin 0 /\
    RandomLfo.randomCalls this' = 0.
Proof.
  assert (RandomLfo.consistent 44100 (RandomLfo.constructor 44100)) as H1.
  { split; [by exists 0%Q | reflexivity]. }
  assert (Forall (fun b : num * list (list num) =>
                    leb b.1 (Fin 0) = true /\ b.2 <> [])
            [(Fin 0, quantum); (Fin (-3), quantum)]) as H2.
  { repeat constructor; discriminate. }
  split; [exact H1|]. split; [exact H2|].
  destruct (C9_frozen_when_frequency_not_positive 44100 sample_random _ _ H1 H2)
    as (this' & outputs & Hp & Hc & Hr & _).
  exists this', outputs. split; [exact Hp|]. split; [exact Hc | exact Hr].
Defined.

Section LfoBlocks.
Variable sampleRate : Q.
Variable Math_random : nat -> Q.

Local Abbreviation advance := (RandomLfo.advance Math_random).
Local Abbreviation frames := (RandomLfo.frames Math_random).
Local Abbreviation held := (RandomLfo.held Math_random).
Local Abbreviation fill := (RandomLfo.fill Math_random).
Local Abbreviation process := (RandomLfo.process sampleRate Math_random).
Local Abbreviation process_all := (RandomLfo.process_all sampleRate Math_random).
Local Abbreviation consistent := (RandomLfo.consistent sampleRate).

(** A frame draws at most one value. *)
Lemma advance_draws (spc : num) (this : RandomLfoProcessor) :
  randomCalls this <= randomCalls (advance spc this)
  <= S (randomCalls this).
Proof.
  unfold RandomLfo.advance.
  destruct (geb _ _); cbn [RandomLfo.randomCalls]; lia.
Qed.

Lemma frames_draws (spc : num) (n : nat) (this : RandomLfoProcessor) :
  randomCalls this <= randomCalls (frames spc n this)
  <= randomCalls this + n.
Proof.
  induction n as [|n IH]; [cbn [RandomLfo.frames]; lia|].
  rewrite frames_S_end.
  pose proof (advance_draws spc (frames spc n this)). lia.
Qed.

(** With a threshold of at most one frame, every frame from a
    non-negative phase completes a cycle. *)
Lemma frames_all_draw (c : Q) (n : nat) :
  (c <= 1)%Q ->
  forall (this : RandomLfoProcessor) (phi : Q),
  phase this = Fin phi -> (0 <= phi)%Q ->
  randomCalls (frames (Fin c) n this) = randomCalls this + n /\
  (exists phi' : Q,
     phase (frames (Fin c) n this) = Fin phi' /\ (0 <= phi')%Q) /\
  (0 < n ->
   currentValue (frames (Fin c) n this) =
   Fin (Math_random (randomCalls this + n - 1) * 2 + - (1))).
Proof.
  intros Hc this phi Hphi Hrange.
  induction n as [|n IH].
  - cbn [RandomLfo.frames]. split; [lia|]. split; [by exists phi | lia].
  - destruct IH as (Hk & (phi' & Hp & Hr) & _).
    rewrite frames_S_end.
    rewrite (advance_reach Math_random c phi') by (done || lra).
    cbn [RandomLfo.randomCalls RandomLfo.phase RandomLfo.currentValue].
    split; [lia|]. split; [eexists; split; [reflexivity | lra]|].
    intros _. rewrite Hk. do 4 f_equal. lia.
Qed.

(** X1.  One call of [process] from a non-negative phase draws at most
    one value per frame, whatever the frequency parameter.  With a
    frequency at or above the sample rate (a threshold of at most one
    frame) every frame draws: frame [j] of every channel holds the value
    made from the [j]-th call of [Math.random()] of the block, and the
    phase stays non-negative. *)
Theorem X1_one_draw_per_frame (this : RandomLfoProcessor) (phi : Q)
    (channel0 : list num) (rest : list (list num)) :
  consistent this -> phase this = Fin phi -> (0 <= phi)%Q ->
  (forall frequency : num,
     exists (this' : RandomLfoProcessor) (output' : list (list num)),
       process frequency (channel0 :: rest) this
       = Some (true, this', output') /\
       randomCalls this <= randomCalls this'
       <= randomCalls this + length channel0) /\
  (forall f : Q,
     (0 < f)%Q -> (sampleRate <= f)%Q ->
     exists (this' : RandomLfoProcessor) (output' : list (list num))
            (phi' : Q),
       process (Fin f) (channel0 :: rest) this
       = Some (true, this', output') /\
       randomCalls this' = randomCalls this + length channel0 /\
       phase this' = Fin phi' /\ (0 <= phi')%Q /\
       consistent this' /\
       forall (c : nat) (ch : list num) (j : nat),
         output' !! c = Some ch ->
         j < length channel0 -> j < length ch ->
         ch !! j =
         Some (Fin (Math_random (randomCalls this + j) * 2 + - (1)))).
Proof.
  intros Hcons Hphase Hphi. split.
  - intros frequency. rewrite process_unfold. cbv zeta.
    set (this1 := if eqb frequency (_lastFrequency this) then this
                  else RandomLfo._recalculateInterval sampleRate frequency
                         this).
    assert (randomCalls this1 = randomCalls this) as Hrc
      by (unfold this1; by destruct (eqb _ _)).
    eexists _, _. split; [reflexivity|].
    pose proof (frames_draws (_updateInterval this1) (length channel0) this1).
    lia.
  - intros f Hf Hle.
    assert (sampleRate / f <= 1)%Q as Hc1 by (apply Qle_shift_div_r; lra).
    destruct (process_threshold sampleRate f this Hf Hcons)
      as (c & Hc & Hint & Hph & Hcv & Hrc).
    rewrite process_unfold. cbv zeta.
    set (this1 := if eqb (Fin f) (_lastFrequency this) then this
                  else RandomLfo._recalculateInterval sampleRate (Fin f) this)
      in *.
    assert (consistent this1) as Hcons1.
    { unfold this1. destruct (eqb _ _); [done|].
      apply consistent_recalculate. by exists phi. }
    rewrite Hint.
    assert (c <= 1)%Q as Hc1' by lra.
    assert (phase this1 = Fin phi) as Hphase1 by (by rewrite Hph).
    destruct (frames_all_draw c (length channel0) Hc1' this1 phi Hphase1 Hphi)
      as (Hk & (phi' & Hp & Hr) & _).
    eexists _, _, phi'. split; [reflexivity|].
    split; [by rewrite Hk, Hrc|]. split; [done|]. split; [done|].
    split.
    { destruct Hcons1 as [_ Hi1].
      destruct (frames_interval Math_random (Fin c) (length channel0) this1)
        as [Hi Hl].
      split; [by exists phi'|]. by rewrite Hi, Hl. }
    intros i ch j Hch Hj Hjl.
    rewrite list_lookup_fmap in Hch.
    destruct ((channel0 :: rest) !! i) as [ch0|] eqn:Hch0; [|done].
    injection Hch as <-.
    rewrite fill_length in Hjl.
    rewrite fill_lookup. rewrite decide_True by lia.
    unfold RandomLfo.held. replace (j - 0) with j by lia.
    destruct (frames_all_draw c (S j) Hc1' this1 phi Hphase1 Hphi)
      as (_ & _ & Hv).
    rewrite (Hv ltac:(lia)), Hrc. do 5 f_equal. lia.
Qed.





(** Filling [n] frames of a channel is filling its first [a] frames and
    then the [n - a] frames that follow. *)
Lemma fill_split (spc : num) (n a : nat) (this : RandomLfoProcessor)
    (ch : list num) :
  a <= n ->
  fill spc n 0 this ch =
  fill spc a 0 this (take a ch)
  ++ fill spc (n - a) 0 (frames spc a this) (drop a ch).
Proof.
  intros Ha. apply list_eq. intros j.
  rewrite fill_lookup.
  destruct (decide (j < length (take a ch))) as [Hj|Hj].
  - rewrite lookup_app_l by (by rewrite fill_length).
    rewrite fill_lookup. rewrite length_take in Hj.
    rewrite lookup_take_lt by lia.
    destruct (decide (0 <= j < 0 + n /\ j < length ch)),
             (decide (0 <= j < 0 + a /\ j < length (take a ch)));
      rewrite ?length_take in *; try done; lia.
  - rewrite lookup_app_r by (rewrite fill_length; lia).
    rewrite fill_length, fill_lookup, lookup_drop, length_drop.
    rewrite length_take in Hj |- *.
    destruct (decide (length ch <= a)) as [Hl|Hl].
    + rewrite Nat.min_r in Hj |- * by done.
      rewrite decide_False by lia. rewrite decide_False by lia.
      rewrite !lookup_ge_None_2 by lia. done.
    + rewrite Nat.min_l in Hj |- * by lia.
      replace (a + (j - a)) with j by lia.
      destruct (decide (0 <= j < 0 + n /\ j < length ch)) as [Hc|Hc].
      * rewrite decide_True by lia.
        unfold RandomLfo.held.
        rewrite <- (frames_add Math_random spc a (S (j - a - 0)) this).
        do 3 f_equal. lia.
      * rewrite decide_False by lia. done.
Qed.

(** A second call with the same frequency reuses the threshold. *)
Lemma recalculate_again (frequency : num) (n : nat)
    (this : RandomLfoProcessor) :
  let this1 :=
    if eqb frequency (_lastFrequency this) then this
    else RandomLfo._recalculateInterval sampleRate frequency this in
  let t := frames (_updateInterval this1) n this1 in
  (if eqb frequency (_lastFrequency t) then t
   else RandomLfo._recalculateInterval sampleRate frequency t) = t.
Proof.
  intros this1 t.
  destruct (frames_interval Math_random (_updateInterval this1) n this1)
    as [Hi Hl]. fold t in Hi, Hl.
  destruct (eqb frequency (_lastFrequency t)) eqn:E; [done|].
  assert (_lastFrequency this1 = frequency /\
          _updateInterval this1 =
          (if gtb frequency (Fin 0) then (Fin sampleRate / frequency)%num
           else PInf)) as [H1 H2].
  { unfold this1 in *. destruct (eqb frequency (_lastFrequency this)) eqn:E';
      [by rewrite Hl, E' in E | done]. }
  unfold RandomLfo._recalculateInterval. rewrite <- H2, <- Hi.
  rewrite <- H1 at 1. rewrite <- Hl. by destruct t.
Qed.

(** X3.  The result does not depend on how the frames are grouped into
    calls: rendering a block in one call of [process], or its first [a]
    frames in one call and the remaining frames in a second call with the
    same frequency, leaves the same processor state and writes the same
    samples to every channel. *)
Theorem X3_block_size_independence (frequency : num) (a : nat)
    (channel0 : list num) (rest : list (list num))
    (this : RandomLfoProcessor) :
  a <= length channel0 ->
  exists (t1 t2 : RandomLfoProcessor) (out1 out2 : list (list num)),
    process frequency (take a <$> (channel0 :: rest)) this
    = Some (true, t1, out1) /\
    process frequency (drop a <$> (channel0 :: rest)) t1
    = Some (true, t2, out2) /\
    process frequency (channel0 :: rest) this
    = Some (true, t2, zip_with app out1 out2).
Proof.
  intros Ha.
  change (take a <$> (channel0 :: rest))
    with (take a channel0 :: (take a <$> rest)).
  change (drop a <$> (channel0 :: rest))
    with (drop a channel0 :: (drop a <$> rest)).
  rewrite !process_unfold. cbv zeta.
  set (this1 := if eqb frequency (_lastFrequency this) then this
                else RandomLfo._recalculateInterval sampleRate frequency this).
  set (spc := _updateInterval this1).
  rewrite length_take_le by done.
  eexists _, _, _, _. split; [reflexivity|].
  rewrite process_unfold. cbv zeta.
  pose proof (recalculate_again frequency a this) as Hagain.
  cbv zeta in Hagain. fold this1 in Hagain. fold spc in Hagain.
  rewrite Hagain.
  destruct (frames_interval Math_random spc a this1) as [Hi _].
  rewrite Hi. fold spc. rewrite length_drop.
  split; [reflexivity|].
  rewrite <- (frames_add Math_random spc a (length channel0 - a) this1).
  replace (a + (length channel0 - a)) with (length channel0) by lia.
  do 2 f_equal.
  change (take a channel0 :: (take a <$> rest))
    with (take a <$> (channel0 :: rest)).
  change (drop a channel0 :: (drop a <$> rest))
    with (drop a <$> (channel0 :: rest)).
  rewrite <- !list_fmap_compose.
  rewrite zip_with_fmap_l, zip_with_fmap_r, zip_with_diag.
  apply list_fmap_ext. intros _ ch _. simpl.
  by apply fill_split.
Qed.

End LfoBlocks.

(** X1 at a concrete input: the processor as constructed, in a
    worklet scope whose sample rate is 100 Hz, with the frequency at the
    top of its range (100 Hz): every frame of the block draws. *)
Lemma X1_one_draw_per_frame_witness :
  RandomLfo.consistent 100 (RandomLfo.constructor 100) /\
  (0 <= 0)%Q /\ (0 < 100)%Q /\ (100 <= 100)%Q /\
  exists (this' : RandomLfoProcessor) (output' : list (list num)),
    RandomLfo.process 100 sample_random (Fin 100) quantum
      (RandomLfo.constructor 100)
    = Some (true, this', output') /\
    randomCalls this' = 128.
Proof.
  assert (RandomLfo.consistent 100 (RandomLfo.constructor 100)) as H1.
  { split; [by exists 0%Q | reflexivity]. }
  assert ((0 <= 0)%Q) as H2 by (unfold Qle; simpl; lia).
  assert ((0 < 100)%Q) as H3 by reflexivity.
  assert ((100 <= 100)%Q) as H4 by (unfold Qle; simpl; lia).
  split; [exact H1|]. split; [exact H2|]. split; [exact H3|].
  split; [exact H4|].
  destruct (X1_one_draw_per_frame 100 sample_random
              (RandomLfo.constructor 100) 0 (repeat (Fin 0) 128) []
              H1 eq_refl H2) as [_ Hall].
  destruct (Hall 100%Q H3 H4) as (this' & output' & phi' & Hp & Hk & _).
  exists this', output'. split; [exact Hp|]. exact Hk.
Defined.


(** X3 at a concrete input: a render quantum of 128 frames at 80 Hz,
    rendered as 40 frames and then 88 frames. *)
Lemma X3_block_size_independence_witness :
  40 <= length (repeat (Fin 0) 128) /\
  exists (t1 t2 : RandomLfoProcessor) (out1 out2 : list (list num)),
    RandomLfo.process 44100 sample_random (Fin 80)
      [repeat (Fin 0) 40] (RandomLfo.constructor 44100)
    = Some (true, t1, out1) /\
    RandomLfo.process 44100 sample_random (Fin 80)
      [repeat (Fin 0) 88] t1
    = Some (true, t2, out2) /\
    RandomLfo.process 44100 sample_random (Fin 80) quantum
      (RandomLfo.constructor 44100)
    = Some (true, t2, zip_with app out1 out2).
Proof.
  assert (40 <= length (repeat (Fin 0) 128)) as H1 by (simpl; lia).
  split; [exact H1|].
  destruct (X3_block_size_independence 44100 sample_random (Fin 80) 40
              (repeat (Fin 0) 128) [] (RandomLfo.constructor 44100) H1)
    as (t1 & t2 & out1 & out2 & Ha & Hb & Hc).
  exists t1, t2, out1, out2.
  split; [exact Ha|]. split; [exact Hb | exact Hc].
Defined.

End RandomLfoFacts.

(* ===================================================================== *)
(** ** Facts about the main script *)
(* ===================================================================== *)

Module SynthFacts.

Import Synth.

(** ** Arithmetic on [num] *)

Lemma maxQ_spec (x y : Q) :
  (x <= maxQ x y)%Q /\ (y <= maxQ x y)%Q /\ (maxQ x y = x \/ maxQ x y = y).
Proof. unfold maxQ. destruct (Qlt_le_dec x y); repeat split; auto; lra. Qed.

Lemma minQ_spec (x y : Q) :
  (minQ x y <= x)%Q /\ (minQ x y <= y)%Q /\ (minQ x y = x \/ minQ x y = y).
Proof. unfold minQ. destruct (Qlt_le_dec y x); repeat split; auto; lra. Qed.

Lemma div_Fin (x y : Q) : ~ (y == 0)%Q -> (Fin x / Fin y)%num = Fin (x / y).
Proof. intros Hy. simpl. destruct (Qeq_dec y 0); [done|reflexivity]. Qed.

Lemma nyquist_Fin (sr : Q) : (Fin sr / Fin 2)%num = Fin (sr / 2).
Proof. apply div_Fin. intros H. lra. Qed.

(** The clamp written [Math.min(hi, Math.max(lo, x))] or
    [Math.max(lo, Math.min(hi, x))] in the source. *)
Lemma min_max_clamp (lo hi x : Q) :
  (lo <= hi)%Q -> (minQ hi (maxQ lo x) == clampQ lo hi x)%Q.
Proof.
  intros Hle. unfold minQ, maxQ, clampQ.
  destruct (Qlt_le_dec lo x), (Qlt_le_dec x lo); try lra;
    repeat (destruct (Qlt_le_dec _ _)); lra.
Qed.

Lemma max_min_clamp (lo hi x : Q) :
  (lo <= hi)%Q -> (maxQ lo (minQ hi x) == clampQ lo hi x)%Q.
Proof.
  intros Hle. unfold minQ, maxQ, clampQ.
  destruct (Qlt_le_dec x hi), (Qlt_le_dec x lo); try lra;
    repeat (destruct (Qlt_le_dec _ _)); lra.
Qed.

Lemma clampQ_range (lo hi x : Q) :
  (lo <= hi)%Q -> (lo <= clampQ lo hi x <= hi)%Q.
Proof.
  intros Hle. unfold clampQ.
  destruct (Qlt_le_dec x lo); [lra|]. destruct (Qlt_le_dec hi x); lra.
Qed.

(** ** calculateVcoFrequency *)

(** The validation test turns down exactly what is not a number, [NaN],
    infinite, below 0 or at least 5. *)
Lemma octave_invalid_rejected (v : jsval) :
  octave_invalid v = true <-> index_rejected v.
Proof.
  destruct v as [[q| | |]|s|]; simpl; try done.
  unfold ofZ. simpl. change (inject_Z (Z.of_nat 5)) with 5%Q.
  destruct (Qlt_le_dec q 0) as [H0|H0]; simpl.
  { split; [intros _; left; lra | done]. }
  destruct (Qlt_le_dec q 5) as [H5|H5]; simpl.
  - split; [done | intros [H|H]; lra].
  - split; [intros _; right; lra | done].
Qed.

(** Every octave value is of exactly one of three kinds. *)
Lemma octave_index_cases (v : jsval) :
  index_rejected v \/
  (exists (q : Q) (z : Z),
     v = JNumber (Fin q) /\ (q == inject_Z z)%Q /\ (0 <= z <= 4)%Z) \/
  fractional_index v.
Proof.
  destruct v as [[q| | |]|s|]; simpl; try (by left).
  destruct (Qlt_le_dec q 0) as [H0|H0]; [left; by left|].
  destruct (Qlt_le_dec q 5) as [H5|H5]; [|left; by right].
  right.
  destruct (Qeq_dec q (inject_Z (Qfloor q))) as [Hw|Hw].
  - left. exists q, (Qfloor q). split; [done|]. split; [done|].
    rewrite Hw in H0, H5.
    change 0%Q with (inject_Z 0) in H0. change 5%Q with (inject_Z 5) in H5.
    rewrite <- Zle_Qle in H0. rewrite <- Zlt_Qlt in H5. lia.
  - right. split; [done|]. intros [z Hz]. apply Hw.
    rewrite (Qfloor_comp _ _ Hz), Qfloor_Z. done.
Qed.

Lemma octaveMultipliers_at_whole (z : Z) :
  (0 <= z <= 4)%Z ->
  forall q : Q, (q == inject_Z z)%Q ->
  octaveMultipliers !! Z.to_nat z = Some (spec_ratio z) /\
  octaveMultipliers_at (JNumber (Fin q)) = Fin (spec_ratio z).
Proof.
  intros Hz q Hq. unfold octaveMultipliers_at, array_index.
  assert (Qfloor q = z) as Hfl by (rewrite (Qfloor_comp _ _ Hq); apply Qfloor_Z).
  rewrite Hfl.
  destruct (Qeq_dec q (inject_Z z)); [|done].
  destruct (Z_lt_le_dec z 0); [lia|].
  assert (z = 0 \/ z = 1 \/ z = 2 \/ z = 3 \/ z = 4)%Z as Hc by lia.
  destruct Hc as [->|[->|[->|[->| ->]]]]; simpl; split; reflexivity.
Qed.

(** A fractional index selects no element of the array. *)
Lemma octaveMultipliers_at_fractional (v : jsval) :
  fractional_index v -> octaveMultipliers_at v = NaN.
Proof.
  destruct v as [[q| | |]|s|]; simpl; try done.
  intros [_ Hfrac]. unfold array_index.
  destruct (Qeq_dec q (inject_Z (Qfloor q))) as [Hw|Hw]; [|done].
  exfalso. apply Hfrac. by exists (Qfloor q).
Qed.

Lemma spec_ratio_positive (z : Z) : (0 < spec_ratio z)%Q.
Proof.
  unfold spec_ratio.
  destruct z as [|[p|p|]|]; try reflexivity;
    destruct p as [p|p|]; reflexivity.
Qed.

Lemma mul_inf_positive (m : Q) (b : bool) :
  (0 < m)%Q -> mul_inf (Qsign m) b = if b then PInf else NInf.
Proof.
  intros Hm. unfold Qsign.
  assert ((0 ?= m)%Q = Lt) as -> by (by apply Qlt_alt). done.
Qed.

(** The clamped frequency for each kind of base frequency. *)
Lemma safeFreq_cases (sr m : Q) (baseFreq : num) :
  (0 < m)%Q -> (40 <= sr)%Q ->
  match baseFreq with
  | Fin b =>
      exists q : Q,
        Math_max (Fin 20) (Math_min (Fin sr / Fin 2)%num (baseFreq * Fin m)%num)
        = Fin q /\ (q == clampQ 20 (sr / 2) (b * m))%Q
  | PInf =>
      Math_max (Fin 20) (Math_min (Fin sr / Fin 2)%num (baseFreq * Fin m)%num)
      = Fin (maxQ 20 (sr / 2))
  | NInf =>
      Math_max (Fin 20) (Math_min (Fin sr / Fin 2)%num (baseFreq * Fin m)%num)
      = Fin 20
  | NaN =>
      Math_max (Fin 20) (Math_min (Fin sr / Fin 2)%num (baseFreq * Fin m)%num)
      = NaN
  end.
Proof.
  intros Hm Hsr. rewrite nyquist_Fin.
  destruct baseFreq as [b| | |]; cbn [mul].
  - eexists. split; [reflexivity|]. apply max_min_clamp.
    apply Qle_shift_div_l; lra.
  - rewrite mul_inf_positive by done. reflexivity.
  - rewrite mul_inf_positive by done. reflexivity.
  - reflexivity.
Qed.

(** The result when the index in use selects the multiplier [m]. *)
Lemma safeFreq_result (sr m : Q) (baseFreq : num) :
  (0 < m)%Q -> (40 <= sr)%Q ->
  exists (freq : Q) (extra : list Msg),
    (if negb (isFinite
                (Math_max (Fin 20)
                   (Math_min (Fin sr / Fin 2)%num (baseFreq * Fin m)%num)))
     then (Fin 440, [frequency_error])
     else (Math_max (Fin 20)
             (Math_min (Fin sr / Fin 2)%num (baseFreq * Fin m)%num), []))
    = (Fin freq, extra) /\
    ((20 <= freq <= sr / 2)%Q \/ freq = 440%Q) /\
    (forall b : Q, baseFreq = Fin b ->
       (freq == clampQ 20 (sr / 2) (b * m))%Q /\ extra = []) /\
    (baseFreq = PInf -> (freq == sr / 2)%Q /\ extra = []) /\
    (baseFreq = NInf -> (freq == 20)%Q /\ extra = []) /\
    (baseFreq = NaN -> freq = 440%Q /\ extra = [frequency_error]).
Proof.
  intros Hm Hsr.
  pose proof (safeFreq_cases sr m baseFreq Hm Hsr) as Hsafe.
  assert (20 <= sr / 2)%Q as Hnyq by (apply Qle_shift_div_l; lra).
  destruct baseFreq as [b| | |].
  - destruct Hsafe as (q & -> & Hclamp). exists q, []. cbn.
    split; [done|].
    split; [left; rewrite Hclamp; by apply clampQ_range|].
    split; [by intros b' [= <-]|]. done.
  - rewrite Hsafe. exists (maxQ 20 (sr / 2)), []. cbn.
    assert (maxQ 20 (sr / 2) == sr / 2)%Q as Hmax.
    { unfold maxQ. destruct (Qlt_le_dec _ _); lra. }
    split; [done|]. split; [left; lra|]. done.
  - rewrite Hsafe. exists 20%Q, []. cbn.
    split; [done|]. split; [left; lra|]. done.
  - rewrite Hsafe. exists 440%Q, [frequency_error]. cbn.
    split; [done|]. split; [by right|]. done.
Qed.

(** C7 (amended).  [calculateVcoFrequency] always returns a finite
    frequency and never throws.  An octave index that the validation
    test turns down (not a number, [NaN], infinite, below 0 or at least
    5) is replaced by index 2, written back to the parameter record and
    reported by a warning.  With a whole index from 0 to 4 the record is
    left as it is, and the result is the base frequency times the ratio
    of that index (1/8, 1/4, 1/2, 1, 2) clamped to
    [[20, sampleRate / 2]].  A fractional index between 0 and 5 passes
    the test, is neither replaced nor reported by the warning, selects
    no ratio, and the result is the safe default 440 with the error
    message.  The safe default is also the result for a base frequency
    that is not a number. *)
Theorem C7_octave_index_corrected (context : AudioContext) (baseFreq : num)
    (vcoParams : VcoParams) :
  (40 <= sampleRate context)%Q ->
  exists (freq : Q) (vcoParams' : VcoParams) (log : list Msg),
    calculateVcoFrequency context baseFreq vcoParams
    = (Fin freq, vcoParams', log) /\
    ((20 <= freq <= sampleRate context / 2)%Q \/ freq = 440%Q) /\
    (* an index turned down by the validation test *)
    (index_rejected (octave vcoParams) ->
       vcoParams' = {| octave := JNumber (Fin 2) |} /\
       (octave_warning ∈ log) /\
       forall b : Q, baseFreq = Fin b ->
         (freq == clampQ 20 (sampleRate context / 2) (b * spec_ratio 2))%Q /\
         log = [octave_warning]) /\
    (* a whole index from 0 to 4 *)
    (forall (q : Q) (z : Z),
       octave vcoParams = JNumber (Fin q) -> (q == inject_Z z)%Q ->
       (0 <= z <= 4)%Z ->
       octaveMultipliers !! Z.to_nat z = Some (spec_ratio z) /\
       vcoParams' = vcoParams /\ (octave_warning ∉ log) /\
       forall b : Q, baseFreq = Fin b ->
         (freq == clampQ 20 (sampleRate context / 2) (b * spec_ratio z))%Q /\
         log = []) /\
    (* a fractional index between 0 and 5 *)
    (fractional_index (octave vcoParams) ->
       vcoParams' = vcoParams /\ freq = 440%Q /\ log = [frequency_error]) /\
    (* a base frequency that is not finite *)
    (~ fractional_index (octave vcoParams) ->
       (baseFreq = PInf -> (freq == sampleRate context / 2)%Q) /\
       (baseFreq = NInf -> (freq == 20)%Q) /\
       (baseFreq = NaN -> freq = 440%Q /\ (frequency_error ∈ log))).
Proof.
  intros Hsr. unfold calculateVcoFrequency.
  pose proof (octave_invalid_rejected (octave vcoParams)) as Hinv.
  destruct (octave_invalid (octave vcoParams)) eqn:E.
  - (* turned down: index 2 is used *)
    assert (index_rejected (octave vcoParams)) as Hrej by (by apply Hinv).
    destruct (octaveMultipliers_at_whole 2 ltac:(lia) 2%Q ltac:(reflexivity))
      as [_ ->].
    destruct (safeFreq_result (sampleRate context) (spec_ratio 2) baseFreq
                (spec_ratio_positive 2) Hsr)
      as (freq & extra & Hres & Hrange & Hfin & Hpinf & Hninf & Hnan).
    exists freq, {| octave := JNumber (Fin 2) |}, ([octave_warning] ++ extra).
    split.
    { destruct (negb (isFinite _)); injection Hres as <- <-; reflexivity. }
    split; [done|].
    split.
    { intros _. split; [done|].
      split; [apply elem_of_app; left; by apply list_elem_of_singleton|].
      intros b Hb. destruct (Hfin b Hb) as [Hf ->]. done. }
    split.
    { intros q z Hq Hz Hz04. exfalso.
      rewrite Hq in Hrej. simpl in Hrej. rewrite Hz in Hrej.
      change 0%Q with (inject_Z 0) in Hrej.
      change 5%Q with (inject_Z 5) in Hrej.
      rewrite <- Zlt_Qlt, <- Zle_Qle in Hrej. lia. }
    split.
    { intros Hfrac. exfalso.
      destruct (octave vcoParams) as [[q| | |]|s|]; simpl in Hfrac, Hrej;
        try done.
      destruct Hfrac as [? _]. lra. }
    intros _. split; [by intros H; apply Hpinf|].
    split; [by intros H; apply Hninf|].
    intros H. destruct (Hnan H) as [-> ->]. split; [done|].
    apply elem_of_app. right. by apply list_elem_of_singleton.
  - (* accepted: the index is a number from 0 up to, not including, 5 *)
    assert (~ index_rejected (octave vcoParams)) as Hacc.
    { intros H. apply Hinv in H. congruence. }
    destruct (octave_index_cases (octave vcoParams))
      as [Hrej|[(q & z & Hq & Hz & Hz04)|Hfrac]]; [done| |].
    + (* a whole index *)
      rewrite Hq.
      destruct (octaveMultipliers_at_whole z Hz04 q Hz) as [Hm ->].
      destruct (safeFreq_result (sampleRate context) (spec_ratio z) baseFreq
                  (spec_ratio_positive z) Hsr)
        as (freq & extra & Hres & Hrange & Hfin & Hpinf & Hninf & Hnan).
      exists freq, vcoParams, ([] ++ extra).
      split.
      { destruct (negb (isFinite _)); injection Hres as <- <-; reflexivity. }
      split; [done|].
      split; [intros H; exfalso; apply Hacc; by rewrite Hq|].
      split.
      { intros q' z' Hq' Hz' Hz04'.
        injection Hq' as <-.
        assert (z' = z) as -> by (apply inject_Z_injective; by rewrite <- Hz, <- Hz').
        split; [done|]. split; [done|].
        split.
        { cbn [app]. intros Hin.
          assert (extra = [] \/ extra = [frequency_error]) as [->| ->].
          { destruct baseFreq as [b| | |].
            - left. by apply (Hfin b).
            - left. by apply Hpinf.
            - left. by apply Hninf.
            - right. by apply Hnan. }
          - by apply not_elem_of_nil in Hin.
          - apply list_elem_of_singleton in Hin. discriminate. }
        intros b Hb. destruct (Hfin b Hb) as [Hf ->]. done. }
      split.
      { intros Hfrac. exfalso. simpl in Hfrac.
        destruct Hfrac as [_ Hfrac]. apply Hfrac. by exists z. }
      intros _. split; [by intros H; apply Hpinf|].
      split; [by intros H; apply Hninf|].
      intros H. destruct (Hnan H) as [-> ->]. split; [done|].
      by apply list_elem_of_singleton.
    + (* a fractional index *)
      rewrite (octaveMultipliers_at_fractional _ Hfrac).
      assert ((baseFreq * NaN)%num = NaN) as -> by (by destruct baseFreq).
      exists 440%Q, vcoParams, [frequency_error].
      split; [reflexivity|]. split; [by right|].
      split; [done|].
      split.
      { intros q z Hq Hz Hz04. exfalso. rewrite Hq in Hfrac. simpl in Hfrac.
        destruct Hfrac as [_ Hfrac]. apply Hfrac. by exists z. }
      split; [done|]. done.
Qed.

(** C7 (amended) at a concrete input: octave index 7 with base frequency
    440 Hz at a sample rate of 44100 Hz. *)
Lemma C7_octave_index_corrected_witness :
  (40 <= sampleRate sample_context)%Q /\
  index_rejected (JNumber (Fin 7)) /\
  exists freq : Q,
    calculateVcoFrequency sample_context (Fin 440)
      {| octave := JNumber (Fin 7) |}
    = (Fin freq, {| octave := JNumber (Fin 2) |}, [octave_warning]) /\
    (freq == 220)%Q.
Proof.
  assert ((40 <= sampleRate sample_context)%Q) as H1
    by (unfold Qle; simpl; lia).
  assert (index_rejected (JNumber (Fin 7))) as H2
    by (right; unfold Qle; simpl; lia).
  split; [exact H1|]. split; [exact H2|].
  destruct (C7_octave_index_corrected sample_context (Fin 440)
              {| octave := JNumber (Fin 7) |} H1)
    as (freq & vcoParams' & log & Hcalc & _ & Hrej & _).
  exists freq.
  destruct (Hrej H2) as (-> & _ & Hfreq).
  destruct (Hfreq 440%Q eq_refl) as [Hf ->].
  split; [exact Hcalc|]. rewrite Hf. reflexivity.
Defined.

(** C7 as stated fails: the octave index 4.5 is outside [[0, 4]], yet it
    passes the validation test; it is neither replaced by 2 nor reported
    by the warning, and with a base frequency of 1000 Hz the result is
    the default 440, which is not the base frequency times any of the
    five ratios. *)
Lemma C7_counterexample :
  index_outside (JNumber (Fin (9 # 2))) /\
  calculateVcoFrequency sample_context (Fin 1000)
    {| octave := JNumber (Fin (9 # 2)) |}
  = (Fin 440, {| octave := JNumber (Fin (9 # 2)) |}, [frequency_error]) /\
  Forall
    (fun m : Q =>
       ~ (440 == clampQ 20 (sampleRate sample_context / 2) (1000 * m))%Q)
    octaveMultipliers.
Proof.
  split; [right; reflexivity|]. split; [reflexivity|].
  repeat constructor; vm_compute; discriminate.
Qed.

(** ** Envelopes *)

Lemma baseFreqWithKeyFollow_Fin (p : Params) (note : Z) :
  exists base : Q,
    baseFreqWithKeyFollow p note = Fin base /\
    (base == maxQ 20 (spec_base p note))%Q.
Proof.
  unfold baseFreqWithKeyFollow, spec_base, spec_keyFollowOffset, gtb, ofZ.
  cbn [ltb sub opp add].
  destruct (Qlt_le_dec q0_5 (keyFollow p)).
  - rewrite div_Fin by (intros H; lra). cbn [mul add Math_max].
    eexists. split; [reflexivity|]. reflexivity.
  - cbn [mul add Math_max]. eexists. split; [reflexivity|].
    unfold maxQ.
    destruct (Qlt_le_dec 20 _), (Qlt_le_dec 20 _); lra.
Qed.

(** C5.  A release on the gate-gain target first cancels what was
    scheduled, then holds the parameter at its current value (whatever
    the sustain level) and ramps linearly to 0.0001 over the release time
    floored to 0.001 s. *)
Theorem C5_release_gate_gain (ctx : AudioContext) (p : Params)
    (envParams : EnvParams) (target : AudioParam) (now : Q) (baseNote : Z) :
  exists (t : Q) (target' : AudioParam),
    releaseEnvelope (Some ctx) p envParams (Some target) (Fin now) false
      baseNote = Some target' /\
    value target' = value target /\
    scheduled target' =
    scheduled target ++
      [cancelScheduledValues (Fin now);
       setValueAtTime (Fin (value target)) (Fin now);
       linearRampToValueAtTime (Fin q0_0001) (Fin t)] /\
    (t - now == maxQ q0_001 (release envParams))%Q /\
    (q0_001 <= t - now)%Q /\ (release envParams <= t - now)%Q /\
    (t - now == q0_001 \/ t - now == release envParams)%Q /\
    (0 < q0_0001)%Q.
Proof.
  exists (now + maxQ q0_001 (release envParams))%Q. eexists.
  split; [reflexivity|]. split; [reflexivity|].
  split. { simpl. rewrite <- !app_assoc. reflexivity. }
  destruct (maxQ_spec q0_001 (release envParams)) as (H1 & H2 & H3).
  assert (now + maxQ q0_001 (release envParams) - now
          == maxQ q0_001 (release envParams))%Q as Hd by lra.
  split; [done|]. rewrite Hd.
  split; [done|]. split; [done|].
  split; [destruct H3 as [-> | ->]; [left|right]; reflexivity | reflexivity].
Qed.

(** C6 (amended).  A trigger of the filter-cutoff envelope for note [n]
    cancels what was scheduled and schedules three cutoff values, each
    clamped to [[20, sampleRate / 2]]: the base, which is the knob value
    plus the key-follow offset, floored at 20 Hz; the attack peak, which
    is that floored base plus the envelope depth; the sustain value,
    which is that floored base plus the sustain level times the depth. *)
Theorem C6_filter_envelope_targets (ctx : AudioContext) (p : Params)
    (envParams : EnvParams) (target : AudioParam)
    (sustainLevel now : Q) (note : Z) :
  (40 <= sampleRate ctx)%Q ->
  exists (base vb vp vs t1 t2 : Q) (target' : AudioParam),
    triggerEnvelope (Some ctx) p envParams (Some target) (Fin sustainLevel)
      (Fin now) true note = Some target' /\
    scheduled target' =
    scheduled target ++
      [cancelScheduledValues (Fin now);
       setValueAtTime (Fin vb) (Fin now);
       linearRampToValueAtTime (Fin vp) (Fin t1);
       linearRampToValueAtTime (Fin vs) (Fin t2)] /\
    (base == maxQ 20 (spec_base p note))%Q /\
    ((20 <= spec_base p note)%Q -> (base == spec_base p note)%Q) /\
    (vb == clampQ 20 (sampleRate ctx / 2) base)%Q /\
    (vp == clampQ 20 (sampleRate ctx / 2) (base + vcfEnvGain_gain_value p))%Q /\
    (vs == clampQ 20 (sampleRate ctx / 2)
             (base + sustainLevel * vcfEnvGain_gain_value p))%Q /\
    (t1 == now + maxQ q0_001 (attack envParams))%Q /\
    (t2 == t1 + maxQ q0_001 (decay envParams))%Q /\
    (20 <= vb <= sampleRate ctx / 2)%Q /\
    (20 <= vp <= sampleRate ctx / 2)%Q /\
    (20 <= vs <= sampleRate ctx / 2)%Q.
Proof.
  intros Hsr.
  assert (20 <= sampleRate ctx / 2)%Q as Hnyq
    by (apply Qle_shift_div_l; lra).
  destruct (baseFreqWithKeyFollow_Fin p note) as (base & Hbase & Hspec).
  unfold triggerEnvelope. rewrite Hbase, nyquist_Fin.
  cbn [mul add Math_max Math_min].
  exists base. do 5 eexists. eexists.
  split; [reflexivity|].
  split. { simpl. rewrite <- !app_assoc. reflexivity. }
  split; [done|].
  split. { intros H. rewrite Hspec. unfold maxQ.
           destruct (Qlt_le_dec 20 _); lra. }
  pose proof (min_max_clamp 20 (sampleRate ctx / 2) base Hnyq) as H1.
  pose proof (min_max_clamp 20 (sampleRate ctx / 2)
                (base + vcfEnvGain_gain_value p) Hnyq) as H2.
  pose proof (min_max_clamp 20 (sampleRate ctx / 2)
                (base + sustainLevel * vcfEnvGain_gain_value p) Hnyq) as H3.
  split; [done|]. split; [done|]. split; [done|].
  split; [reflexivity|]. split; [reflexivity|].
  rewrite H1, H2, H3. repeat split; by apply clampQ_range.
Qed.

(** C6 (amended) at a concrete input: the default parameters, note 60,
    sample rate 44100 Hz. *)
Lemma C6_filter_envelope_targets_witness :
  (40 <= sampleRate sample_context)%Q /\
  exists (vb vp vs t1 t2 : Q) (target' : AudioParam),
    triggerEnvelope (Some sample_context) default_params
      (vcfEnv default_params) (Some (new_param 350)) (Fin (8 # 10)) (Fin 1)
      true 60 = Some target' /\
    scheduled target' =
      [cancelScheduledValues (Fin 1); setValueAtTime (Fin vb) (Fin 1);
       linearRampToValueAtTime (Fin vp) (Fin t1);
       linearRampToValueAtTime (Fin vs) (Fin t2)] /\
    (vb == 20000)%Q /\ (vp == 22050)%Q /\ (vs == 22050)%Q.
Proof.
  assert ((40 <= sampleRate sample_context)%Q) as H1
    by (unfold Qle; simpl; lia).
  split; [exact H1|].
  destruct (C6_filter_envelope_targets sample_context default_params
              (vcfEnv default_params) (new_param 350) (8 # 10) 1 60 H1)
    as (base & vb & vp & vs & t1 & t2 & target' & Htrig & Hsched & _).
  exists vb, vp, vs, t1, t2, target'.
  split; [exact Htrig|]. split; [exact Hsched|].
  vm_compute in Htrig. injection Htrig as <-.
  vm_compute in Hsched. injection Hsched as <- <- _ <- _.
  repeat split; reflexivity.
Defined.

(** C6 as stated fails: with the cutoff knob at 20 Hz, key-follow on,
    note 60 and an envelope depth of 100 Hz the knob value plus the
    offset is 17 Hz, so the stated peak is 117 Hz, but the scheduled peak
    is 120 Hz. *)
Lemma C6_counterexample :
  exists (vb vp vs t1 t2 : Q) (target' : AudioParam),
    triggerEnvelope (Some sample_context) low_cutoff_params
      (vcfEnv low_cutoff_params) (Some (new_param 350)) (Fin (8 # 10)) (Fin 1)
      true 60 = Some target' /\
    scheduled target' =
      [cancelScheduledValues (Fin 1); setValueAtTime (Fin vb) (Fin 1);
       linearRampToValueAtTime (Fin vp) (Fin t1);
       linearRampToValueAtTime (Fin vs) (Fin t2)] /\
    (spec_base low_cutoff_params 60 == 17)%Q /\
    (vp == 120)%Q /\
    (clampQ 20 (sampleRate sample_context / 2)
       (spec_peak low_cutoff_params 60) == 117)%Q /\
    ~ (vp == clampQ 20 (sampleRate sample_context / 2)
               (spec_peak low_cutoff_params 60))%Q.
Proof.
  do 5 eexists. eexists.
  split; [vm_compute; reflexivity|].
  split; [vm_compute; reflexivity|].
  split; [reflexivity|]. split; [reflexivity|]. split; [reflexivity|].
  vm_compute. discriminate.
Qed.

(** ** Note handling *)

Lemma triggerEnvelope_retriggered (ctx : AudioContext) (p : Params)
    (envParams : EnvParams) (target : AudioParam) (sustainValue now : num)
    (isVcf : bool) (baseNote : Z) :
  exists target' : AudioParam,
    triggerEnvelope (Some ctx) p envParams (Some target) sustainValue now
      isVcf baseNote = Some target' /\
    value target' = value target /\
    retriggered target target' now.
Proof.
  unfold triggerEnvelope. destruct isVcf; eexists; (split; [reflexivity|]);
    (split; [reflexivity|]); do 5 eexists; simpl; rewrite <- !app_assoc;
    reflexivity.
Qed.

Lemma not_retriggered_same (target : AudioParam) (now : num) :
  ~ retriggered target target now.
Proof.
  intros (v0 & v1 & t1 & v2 & t2 & H).
  apply (f_equal length) in H. rewrite length_app in H. simpl in H. lia.
Qed.

Lemma set_pitch_glide (p : Params) (now target1 target2 : num)
    (f1 f2 : AudioParam) (s : State) :
  (q0_005 < portamentoTime p)%Q ->
  set_pitch (portamento_of p) now target1 target2 f1 f2 s =
  set_vco_frequencies
    (Some (call (setTargetAtTime target1 now (Fin (portamentoTime p / 4)))
             (call (cancelScheduledValues now) f1)))
    (Some (call (setTargetAtTime target2 now (Fin (portamentoTime p / 4)))
             (call (cancelScheduledValues now) f2)))
    s.
Proof.
  intros Hp. unfold set_pitch, portamento_of, gtb. cbn [ltb].
  destruct (Qlt_le_dec q0_005 (portamentoTime p)); [|lra]. cbn [ltb].
  destruct (Qlt_le_dec 0 (portamentoTime p)); [|unfold q0_005 in *; lra].
  rewrite div_Fin by (intros H; lra). reflexivity.
Qed.

Lemma set_pitch_jump (p : Params) (now target1 target2 : num)
    (f1 f2 : AudioParam) (s : State) :
  (portamentoTime p <= q0_005)%Q ->
  set_pitch (portamento_of p) now target1 target2 f1 f2 s =
  set_vco_frequencies
    (Some (call (setValueAtTime target1 now)
             (call (cancelScheduledValues now) f1)))
    (Some (call (setValueAtTime target2 now)
             (call (cancelScheduledValues now) f2)))
    s.
Proof.
  intros Hp. unfold set_pitch, portamento_of, gtb. cbn [ltb].
  destruct (Qlt_le_dec q0_005 (portamentoTime p)); [lra|]. cbn [ltb].
  destruct (Qlt_le_dec 0 0); [lra|]. reflexivity.
Qed.

Lemma set_pitch_zero (now target1 target2 : num)
    (f1 f2 : AudioParam) (s : State) :
  set_pitch (Fin 0) now target1 target2 f1 f2 s =
  set_vco_frequencies
    (Some (call (setValueAtTime target1 now)
             (call (cancelScheduledValues now) f1)))
    (Some (call (setValueAtTime target2 now)
             (call (cancelScheduledValues now) f2)))
    s.
Proof.
  unfold set_pitch, gtb. cbn [ltb].
  destruct (Qlt_le_dec 0 0); [lra|]. reflexivity.
Qed.

(** C1.  A key-down while another note is sounding and the engine is
    running: both envelopes are retriggered exactly when legato is below
    0.5; with legato on, the filter and gate targets are left as they
    were and only the voice and the oscillator frequencies change; the
    pitch glides ([setTargetAtTime]) when the portamento time exceeds
    0.005 s and jumps ([setValueAtTime]) otherwise. *)
Theorem C1_retrigger_iff_legato_off (s : State) (note prevNote : Z)
    (freq : num) (ctx : AudioContext) (f1 f2 ff g : AudioParam) :
  audioContext s = Some ctx -> state ctx = running ->
  vco1_frequency s = Some f1 -> vco2_frequency s = Some f2 ->
  filter_frequency s = Some ff -> vcaGainNode_gain s = Some g ->
  currentNote s = Some prevNote -> note <> prevNote ->
  let now := Fin (currentTime ctx) in
  let target1 := (calculateVcoFrequency ctx freq (vco1 (params s))).1.1 in
  let target2 := (calculateVcoFrequency ctx freq (vco2 (params s))).1.1 in
  exists (s' : State) (log : list Msg) (f1' f2' ff' g' : AudioParam),
    noteOn note freq s = (s', log) /\
    currentNote s' = Some note /\ currentFrequency s' = freq /\
    vco1_frequency s' = Some f1' /\ vco2_frequency s' = Some f2' /\
    filter_frequency s' = Some ff' /\ vcaGainNode_gain s' = Some g' /\
    ((retriggered ff ff' now /\ retriggered g g' now) <->
     (legato (params s) < q0_5)%Q) /\
    ((q0_5 <= legato (params s))%Q -> ff' = ff /\ g' = g) /\
    ((q0_005 < portamentoTime (params s))%Q ->
       scheduled f1' =
       scheduled f1 ++
         [cancelScheduledValues now;
          setTargetAtTime target1 now (Fin (portamentoTime (params s) / 4))] /\
       scheduled f2' =
       scheduled f2 ++
         [cancelScheduledValues now;
          setTargetAtTime target2 now (Fin (portamentoTime (params s) / 4))]) /\
    ((portamentoTime (params s) <= q0_005)%Q ->
       scheduled f1' =
       scheduled f1 ++ [cancelScheduledValues now; setValueAtTime target1 now] /\
       scheduled f2' =
       scheduled f2 ++ [cancelScheduledValues now; setValueAtTime target2 now]) /\
    pressedKeys s' = pressedKeys s /\
    audioContext s' = audioContext s /\
    isAudioInitialized s' = isAudioInitialized s /\
    isAudioResumed s' = isAudioResumed s /\
    reverbWetGain_gain s' = reverbWetGain_gain s /\
    reverbDryGain_gain s' = reverbDryGain_gain s.
Proof.
  intros Hctx Hrun Hf1 Hf2 Hff Hg Hnote Hne now target1 target2.
  unfold noteOn. rewrite Hctx, Hf1, Hf2, Hrun. cbn [ContextState_eqb negb].
  subst target1 target2.
  destruct (calculateVcoFrequency ctx freq (vco1 (params s)))
    as [[t1 v1] log1].
  destruct (calculateVcoFrequency ctx freq (vco2 (params s)))
    as [[t2 v2] log2].
  cbn [fst snd set_params currentNote]. rewrite Hnote.
  fold now.
  set (p' := set_vco2 v2 (set_vco1 v1 (params s))).
  assert (exists f1' f2',
            forall s0, set_pitch (portamento_of (params s)) now t1 t2 f1 f2 s0
                       = set_vco_frequencies (Some f1') (Some f2') s0 /\
            ((q0_005 < portamentoTime (params s))%Q ->
               scheduled f1' =
               scheduled f1 ++
                 [cancelScheduledValues now;
                  setTargetAtTime t1 now (Fin (portamentoTime (params s) / 4))] /\
               scheduled f2' =
               scheduled f2 ++
                 [cancelScheduledValues now;
                  setTargetAtTime t2 now (Fin (portamentoTime (params s) / 4))]) /\
            ((portamentoTime (params s) <= q0_005)%Q ->
               scheduled f1' =
               scheduled f1 ++
                 [cancelScheduledValues now; setValueAtTime t1 now] /\
               scheduled f2' =
               scheduled f2 ++
                 [cancelScheduledValues now; setValueAtTime t2 now]))
    as (f1' & f2' & Hpitch).
  { destruct (Qlt_le_dec q0_005 (portamentoTime (params s))) as [Hp|Hp].
    - eexists _, _. intros s0. split; [by apply set_pitch_glide|].
      split; [|intros; lra]. intros _. simpl. rewrite <- !app_assoc. done.
    - eexists _, _. intros s0. split; [by apply set_pitch_jump|].
      split; [intros; lra|]. intros _. simpl. rewrite <- !app_assoc. done. }
  destruct (Hpitch (set_voice (Some note) freq
                      (set_params p' s))) as (-> & Hglide & Hjump).
  unfold ltb.
  destruct (Qlt_le_dec (legato (params s)) q0_5) as [Hleg|Hleg].
  - (* legato off: both envelopes are triggered *)
    unfold triggerEnvelopes.
    cbn [set_vco_frequencies set_voice set_params filter_frequency
         vcaGainNode_gain audioContext params].
    rewrite Hff, Hg, Hctx.
    destruct (triggerEnvelope_retriggered ctx p' (vcfEnv p') ff
                (Fin (sustain (vcfEnv p'))) now true note)
      as (ff' & -> & _ & Hrf).
    destruct (triggerEnvelope_retriggered ctx p' (vcaEnv p') g
                (Fin (sustain (vcaEnv p'))) now false 69)
      as (g' & -> & _ & Hrg).
    eexists _, _, f1', f2', ff', g'.
    split; [reflexivity|].
    cbn. repeat split; try done; try (intros; lra);
      try (by apply Hglide); try (by apply Hjump).
  - (* legato on: the envelopes are left alone *)
    eexists _, _, f1', f2', ff, g.
    split; [reflexivity|].
    cbn. repeat split; try done; try (intros; lra);
      try (by apply Hglide); try (by apply Hjump).
    intros [H _]. by apply not_retriggered_same in H.
Qed.

(** ** Held keys *)

Lemma keyToNoteMap_range (c : string) (n : Z) :
  keyToNoteMap c = Some n -> (60 <= n <= 72)%Z.
Proof.
  unfold keyToNoteMap, keyToNoteMap_entries. cbn [assoc].
  repeat (destruct (String.eqb c _); [intros [= <-]; lia|]). done.
Qed.

Lemma elem_of_remainingHeldCodes (keys : gmap string bool) (c : string) :
  c ∈ remainingHeldCodes keys <->
  keys !! c = Some true /\ is_Some (keyToNoteMap c).
Proof.
  unfold remainingHeldCodes. rewrite list_elem_of_fmap. split.
  - intros ([c' b] & -> & Hin). apply list_elem_of_In, filter_In in Hin.
    destruct Hin as [Hin Hf]. apply list_elem_of_In, elem_of_map_to_list in Hin.
    simpl in *. apply andb_prop in Hf as [-> Hn].
    apply bool_decide_eq_true in Hn. done.
  - intros [Hk Hn]. exists (c, true). split; [done|].
    apply list_elem_of_In, filter_In. split.
    + by apply list_elem_of_In, elem_of_map_to_list.
    + simpl. by apply bool_decide_eq_true.
Qed.

Section HeldNotes.

Variable Math_pow : Q -> Q -> Q.

Local Abbreviation midiToFreq := (Synth.midiToFreq Math_pow).
Local Abbreviation lastNote_step := (Synth.lastNote_step Math_pow).
Local Abbreviation lastNote_of := (Synth.lastNote_of Math_pow).
Local Abbreviation noteOff := (Synth.noteOff Math_pow).
Local Abbreviation keydown := (Synth.keydown Math_pow).
Local Abbreviation keyup := (Synth.keyup Math_pow).
Local Abbreviation handle := (Synth.handle Math_pow).
Local Abbreviation run := (Synth.run Math_pow).

Lemma lastNote_fold (codes : list string) :
  forall acc : Z * Q,
  let r := fold_left lastNote_step codes acc in
  (r = acc \/
   exists c : string, c ∈ codes /\ keyToNoteMap c = Some r.1 /\
                      r.2 = midiToFreq r.1) /\
  (acc.1 <= r.1)%Z /\
  forall (c : string) (n : Z),
    c ∈ codes -> keyToNoteMap c = Some n -> (n <= r.1)%Z.
Proof.
  induction codes as [|c0 codes IH]; intros acc; cbn [fold_left].
  - split; [by left|]. split; [lia|]. intros c n Hc. by apply elem_of_nil in Hc.
  - specialize (IH (lastNote_step acc c0)). cbv zeta in IH.
    destruct IH as (Hr & Hle & Hmax).
    set (r := fold_left lastNote_step codes (lastNote_step acc c0)) in *.
    assert ((lastNote_step acc c0 = acc /\
             forall n, keyToNoteMap c0 = Some n -> (n <= acc.1)%Z) \/
            (exists n, keyToNoteMap c0 = Some n /\ (acc.1 < n)%Z /\
                       lastNote_step acc c0 = (n, midiToFreq n))) as Hstep.
    { unfold Synth.lastNote_step. destruct (keyToNoteMap c0) as [n|].
      - destruct (Z_lt_le_dec acc.1 n).
        + right. by exists n.
        + left. split; [done|]. by intros n' [= <-].
      - left. split; [done|]. by intros n' [=]. }
    split; [|split].
    + destruct Hr as [Hr|(c & Hc & Hn & Hf)].
      * destruct Hstep as [[Hs _]|(n & Hn & _ & Hs)].
        -- left. by rewrite Hr.
        -- right. exists c0. rewrite Hr, Hs. simpl.
           split; [apply elem_of_cons; by left | done].
      * right. exists c. split; [apply elem_of_cons; by right | done].
    + destruct Hstep as [[Hs _]|(n & Hn & Hlt & Hs)]; rewrite Hs in Hle;
        simpl in Hle; lia.
    + intros c n Hc Hn. apply elem_of_cons in Hc as [->|Hc].
      * destruct Hstep as [[Hs Hb]|(n' & Hn' & Hlt & Hs)].
        -- specialize (Hb n Hn). rewrite Hs in Hle. lia.
        -- rewrite Hn in Hn'. injection Hn' as <-. rewrite Hs in Hle.
           simpl in Hle. lia.
      * by eapply Hmax.
Qed.

(** The note selected by [noteOff] is the highest held one. *)
Lemma lastNote_of_highest (codes : list string) :
  codes <> [] ->
  (forall c, c ∈ codes -> is_Some (keyToNoteMap c)) ->
  exists (m : Z) (c : string),
    lastNote_of codes = (m, midiToFreq m) /\
    c ∈ codes /\ keyToNoteMap c = Some m /\
    forall (c' : string) (n' : Z),
      c' ∈ codes -> keyToNoteMap c' = Some n' -> (n' <= m)%Z.
Proof.
  intros Hne Hall. unfold Synth.lastNote_of.
  pose proof (lastNote_fold codes ((-1)%Z, 0%Q)) as H. cbv zeta in H.
  destruct H as (Hr & _ & Hmax).
  set (r := fold_left lastNote_step codes ((-1)%Z, 0%Q)) in *.
  destruct Hr as [Hr|(c & Hc & Hn & Hf)].
  - destruct codes as [|c0 codes]; [done|].
    destruct (Hall c0) as [n Hn]; [apply elem_of_cons; by left|].
    pose proof (keyToNoteMap_range _ _ Hn).
    specialize (Hmax c0 n ltac:(apply elem_of_cons; by left) Hn).
    rewrite Hr in Hmax. simpl in Hmax. lia.
  - exists r.1, c. split; [|done].
    destruct r as [m fm]. simpl in *. by rewrite Hf.
Qed.

End HeldNotes.

Lemma router_frame_refl (s : State) : router_frame s s.
Proof. repeat split; done. Qed.

Lemma router_frame_trans (s1 s2 s3 : State) :
  router_frame s1 s2 -> router_frame s2 s3 -> router_frame s1 s3.
Proof.
  intros (A1 & A2 & A3 & A4 & A5 & A6 & A7 & A8 & A9 & A10)
         (B1 & B2 & B3 & B4 & B5 & B6 & B7 & B8 & B9 & B10).
  repeat split; try congruence; tauto.
Qed.

Lemma updateParameter_frame (u : ControlUpdate) (forceUpdate : bool)
    (s : State) :
  router_frame s (updateParameter u forceUpdate s).
Proof.
  unfold updateParameter.
  cbn [set_params audioContext isAudioInitialized isAudioResumed
       reverbWetGain_gain reverbDryGain_gain filter_frequency].
  destruct (audioContext s) as [ctx|] eqn:Hctx; [|by repeat split].
  destruct (isAudioInitialized s && (isAudioResumed s || forceUpdate));
    [|by repeat split].
  destruct (paramPath u); try (by repeat split).
  - destruct (filter_frequency s) eqn:Hf.
    + repeat split; simpl; try done; rewrite ?Hf; by eexists.
    + repeat split; simpl; done.
  - destruct (reverbWetGain_gain s), (reverbDryGain_gain s);
      by repeat split.
Qed.

Lemma updateAll_frame (controls : list ControlUpdate) (forceUpdate : bool) :
  forall s : State, router_frame s (updateAll controls forceUpdate s).
Proof.
  unfold updateAll.
  induction controls as [|u controls IH]; intros s; simpl.
  - apply router_frame_refl.
  - eapply router_frame_trans; [apply updateParameter_frame | apply IH].
Qed.

Lemma engine_ok_frame (s s' : State) :
  router_frame s s' -> engine_ok s -> engine_ok s'.
Proof.
  intros (A1 & A2 & A3 & A4 & A5 & A6 & A7 & A8 & A9 & A10) (H1 & H2 & H3).
  unfold engine_ok. rewrite A1, A2, A3, A4, A5, A6, A7. done.
Qed.

Lemma voice_ok_frame (s s' : State) :
  router_frame s s' -> voice_ok s -> voice_ok s'.
Proof.
  intros (A1 & A2 & A3 & A4 & A5 & A6 & A7 & A8 & A9 & A10) [H1 H2].
  unfold voice_ok. rewrite A3, A8, A9. done.
Qed.

(** An octave control stores the octave and, at most, schedules a new
    pitch on the oscillator it belongs to. *)
Lemma updateOctave_frame (path : OctavePath) (v : jsval) (force : bool)
    (s : State) :
  octave_frame s (updateOctave path v force s).1.
Proof.
  unfold updateOctave.
  cbn [set_params audioContext isAudioInitialized isAudioResumed
       currentNote vco1_frequency vco2_frequency currentFrequency params].
  destruct (audioContext s) as [ctx|] eqn:Hctx; [|by repeat split].
  destruct (isAudioInitialized s && (isAudioResumed s || force));
    [|by repeat split].
  destruct (currentNote s) as [n|] eqn:Hn; [|by repeat split].
  destruct path.
  - destruct (vco1_frequency s) as [f1|] eqn:Hf1; [|by repeat split].
    destruct (calculateVcoFrequency ctx _ _) as [[newFreq v1] log].
    repeat split; simpl; try done; rewrite ?Hf1; by eexists.
  - destruct (vco2_frequency s) as [f2|] eqn:Hf2; [|by repeat split].
    destruct (calculateVcoFrequency ctx _ _) as [[newFreq v2] log].
    repeat split; simpl; try done; rewrite ?Hf2; by eexists.
Qed.

Lemma engine_ok_octave (s s' : State) :
  octave_frame s s' -> engine_ok s -> engine_ok s'.
Proof.
  intros (A1 & A2 & A3 & A4 & A5 & A6 & A7 & _) (H1 & H2 & H3).
  unfold engine_ok. rewrite A1, A2, A3, A4, A5, A6, A7. done.
Qed.

Lemma voice_ok_octave (s s' : State) :
  octave_frame s s' -> voice_ok s -> voice_ok s'.
Proof.
  intros (_ & _ & A3 & _ & _ & _ & _ & _ & _ & A10 & A11 & _) [H1 H2].
  unfold voice_ok. rewrite A3, A10, A11. done.
Qed.

Lemma set_pitch_frame (portamento now target1 target2 : num)
    (f1 f2 : AudioParam) (s : State) :
  exists f1' f2' : AudioParam,
    set_pitch portamento now target1 target2 f1 f2 s =
    set_vco_frequencies (Some f1') (Some f2') s.
Proof. unfold set_pitch. destruct (gtb portamento (Fin 0)); by eexists _, _. Qed.

Lemma triggerEnvelope_is_Some (context : option AudioContext) (p : Params)
    (envParams : EnvParams) (target : AudioParam) (sustainValue now : num)
    (isVcf : bool) (baseNote : Z) :
  is_Some (triggerEnvelope context p envParams (Some target) sustainValue now
             isVcf baseNote).
Proof. unfold triggerEnvelope. destruct context, isVcf; by eexists. Qed.

Lemma releaseEnvelope_is_Some (context : option AudioContext) (p : Params)
    (envParams : EnvParams) (target : AudioParam) (now : num)
    (isVcf : bool) (baseNote : Z) :
  is_Some (releaseEnvelope context p envParams (Some target) now isVcf
             baseNote).
Proof. unfold releaseEnvelope. destruct context; by eexists. Qed.

Lemma triggerEnvelopes_frame (note : Z) (now : num) (s : State) :
  envelope_frame s (triggerEnvelopes note now s).
Proof.
  unfold triggerEnvelopes.
  destruct (filter_frequency s) as [ff|] eqn:Hff;
    [|by repeat split; rewrite ?Hff].
  destruct (vcaGainNode_gain s) as [g|] eqn:Hg;
    [|by repeat split; rewrite ?Hff, ?Hg].
  repeat split; simpl; try done; intros _;
    rewrite ?Hff, ?Hg; try (by eexists);
    apply triggerEnvelope_is_Some.
Qed.

Lemma releaseEnvelopes_frame (note : Z) (now : num) (s : State) :
  envelope_frame s (releaseEnvelopes note now s).
Proof.
  unfold releaseEnvelopes.
  destruct (filter_frequency s) as [ff|] eqn:Hff;
    [|by repeat split; rewrite ?Hff].
  destruct (vcaGainNode_gain s) as [g|] eqn:Hg;
    [|by repeat split; rewrite ?Hff, ?Hg].
  repeat split; simpl; try done; intros _;
    rewrite ?Hff, ?Hg; try (by eexists);
    apply releaseEnvelope_is_Some.
Qed.

(** [noteOn] on a running engine: the note becomes the sounding note. *)
Lemma noteOn_running (note : Z) (freq : num) (s : State)
    (ctx : AudioContext) :
  audioContext s = Some ctx -> state ctx = running ->
  is_Some (vco1_frequency s) -> is_Some (vco2_frequency s) ->
  exists (s' : State) (log : list Msg),
    noteOn note freq s = (s', log) /\
    currentNote s' = Some note /\ currentFrequency s' = freq /\
    audioContext s' = audioContext s /\
    isAudioInitialized s' = isAudioInitialized s /\
    isAudioResumed s' = isAudioResumed s /\
    is_Some (vco1_frequency s') /\ is_Some (vco2_frequency s') /\
    (is_Some (filter_frequency s') <-> is_Some (filter_frequency s)) /\
    (is_Some (vcaGainNode_gain s') <-> is_Some (vcaGainNode_gain s)) /\
    reverbWetGain_gain s' = reverbWetGain_gain s /\
    reverbDryGain_gain s' = reverbDryGain_gain s /\
    pressedKeys s' = pressedKeys s.
Proof.
  intros Hctx Hrun [f1 Hf1] [f2 Hf2].
  unfold noteOn. rewrite Hctx, Hf1, Hf2, Hrun. cbn [ContextState_eqb negb].
  destruct (calculateVcoFrequency ctx freq (vco1 (params s)))
    as [[t1 v1] log1].
  destruct (calculateVcoFrequency ctx freq (vco2 (params s)))
    as [[t2 v2] log2].
  set (s1 := set_params (set_vco2 v2 (set_vco1 v1 (params s))) s).
  set (s2 := set_voice (Some note) freq s1).
  assert (forall portamento, exists f1' f2',
            set_pitch portamento (Fin (currentTime ctx)) t1 t2 f1 f2 s2 =
            set_vco_frequencies (Some f1') (Some f2') s2) as Hpitch
    by (intros; apply set_pitch_frame).
  destruct (currentNote s1).
  - destruct (Hpitch (portamento_of (params s))) as (f1' & f2' & ->).
    destruct (ltb (Fin (legato (params s))) (Fin q0_5)).
    + eexists _, _. split; [reflexivity|].
      destruct (triggerEnvelopes_frame note (Fin (currentTime ctx))
                  (set_vco_frequencies (Some f1') (Some f2') s2))
        as (A1 & A2 & A3 & A4 & A5 & A6 & A7 & A8 & A9 & A10 & A11 & A12 & A13).
      rewrite A1, A2, A3, A5, A6, A7, A8, A9, A10, A11, A12, A13.
      simpl. repeat split; try done; by eexists.
    + eexists _, _. split; [reflexivity|].
      simpl. repeat split; try done; by eexists.
  - destruct (Hpitch (Fin 0)) as (f1' & f2' & ->).
    eexists _, _. split; [reflexivity|].
    destruct (triggerEnvelopes_frame note (Fin (currentTime ctx))
                (set_vco_frequencies (Some f1') (Some f2') s2))
      as (A1 & A2 & A3 & A4 & A5 & A6 & A7 & A8 & A9 & A10 & A11 & A12 & A13).
    rewrite A1, A2, A3, A5, A6, A7, A8, A9, A10, A11, A12, A13.
    simpl. repeat split; try done; by eexists.
Qed.

Section Reachable.

Variable Math_pow : Q -> Q -> Q.

Local Abbreviation midiToFreq := (Synth.midiToFreq Math_pow).
Local Abbreviation lastNote_of := (Synth.lastNote_of Math_pow).
Local Abbreviation noteOff := (Synth.noteOff Math_pow).
Local Abbreviation keydown := (Synth.keydown Math_pow).
Local Abbreviation keyup := (Synth.keyup Math_pow).
Local Abbreviation handle := (Synth.handle Math_pow).
Local Abbreviation run := (Synth.run Math_pow).

Lemma noteOff_silent (note : Z) (s : State) :
  currentNote s = None -> noteOff note s = (s, []).
Proof. intros H. unfold Synth.noteOff. by rewrite H. Qed.

Lemma noteOff_other (note current : Z) (s : State) :
  currentNote s = Some current -> note <> current ->
  noteOff note s = (s, []).
Proof.
  intros H Hne. unfold Synth.noteOff. rewrite H.
  destruct (vco1_frequency s), (vco2_frequency s); try done.
  destruct (negb (isAudioInitialized s) || negb (isAudioResumed s)); [done|].
  rewrite bool_decide_eq_false_2 by done. done.
Qed.

Lemma noteOff_last_key (note : Z) (s : State) (ctx : AudioContext) :
  isAudioInitialized s = true -> isAudioResumed s = true ->
  audioContext s = Some ctx ->
  is_Some (vco1_frequency s) -> is_Some (vco2_frequency s) ->
  currentNote s = Some note ->
  remainingHeldCodes (pressedKeys s) = [] ->
  noteOff note s =
  (set_voice None (Fin 0)
     (releaseEnvelopes note (Fin (currentTime ctx)) s), []).
Proof.
  intros Hi Hr Hctx [f1 Hf1] [f2 Hf2] Hn Hrem.
  unfold Synth.noteOff. rewrite Hn, Hf1, Hf2, Hi, Hr, Hctx, Hrem.
  cbn [negb orb]. rewrite bool_decide_eq_true_2 by done. done.
Qed.

Lemma noteOff_transition (note : Z) (s : State) (ctx : AudioContext)
    (f1 f2 : AudioParam) :
  isAudioInitialized s = true -> isAudioResumed s = true ->
  audioContext s = Some ctx ->
  vco1_frequency s = Some f1 -> vco2_frequency s = Some f2 ->
  currentNote s = Some note ->
  remainingHeldCodes (pressedKeys s) <> [] ->
  exists (m : Z) (c : string),
    c ∈ remainingHeldCodes (pressedKeys s) /\ keyToNoteMap c = Some m /\
    (forall (c' : string) (n' : Z),
       c' ∈ remainingHeldCodes (pressedKeys s) ->
       keyToNoteMap c' = Some n' -> (n' <= m)%Z) /\
    let r1 := calculateVcoFrequency ctx (Fin (midiToFreq m)) (vco1 (params s)) in
    let r2 := calculateVcoFrequency ctx (Fin (midiToFreq m)) (vco2 (params s)) in
    noteOff note s =
    (set_pitch (portamento_of (params s)) (Fin (currentTime ctx))
       r1.1.1 r2.1.1 f1 f2
       (set_voice (Some m) (Fin (midiToFreq m))
          (set_params (set_vco2 r2.1.2 (set_vco1 r1.1.2 (params s))) s)),
     r1.2 ++ r2.2).
Proof.
  intros Hi Hr Hctx Hf1 Hf2 Hn Hrem.
  destruct (lastNote_of_highest Math_pow (remainingHeldCodes (pressedKeys s)) Hrem)
    as (m & c & Hlast & Hc & Hm & Hmax).
  { intros c Hc. by apply elem_of_remainingHeldCodes in Hc as [_ ?]. }
  exists m, c. split; [done|]. split; [done|]. split; [done|].
  cbv zeta. unfold Synth.noteOff.
  rewrite Hn, Hf1, Hf2, Hi, Hr, Hctx. cbn [negb orb].
  rewrite bool_decide_eq_true_2 by done. cbn [negb].
  destruct (remainingHeldCodes (pressedKeys s)) as [|c0 rest] eqn:E; [done|].
  rewrite Hlast.
  destruct (calculateVcoFrequency ctx (Fin (midiToFreq m)) (vco1 (params s)))
    as [[t1 v1] log1].
  destruct (calculateVcoFrequency ctx (Fin (midiToFreq m)) (vco2 (params s)))
    as [[t2 v2] log2].
  reflexivity.
Qed.

(** *** The invariants of the engine and of the voice *)

Lemma ensureAudioContextResumed_ok (r : ResumeOutcome) (s : State) :
  engine_ok s -> voice_ok s -> isAudioInitialized s = true ->
  exists (b : bool) (s' : State) (log : list Msg),
    ensureAudioContextResumed r s = (b, s', log) /\
    engine_ok s' /\ voice_ok s' /\
    isAudioResumed s' = b /\
    isAudioInitialized s' = true /\
    pressedKeys s' = pressedKeys s /\
    currentNote s' = currentNote s /\
    reverbWetGain_gain s' = reverbWetGain_gain s /\
    reverbDryGain_gain s' = reverbDryGain_gain s.
Proof.
  intros (He1 & He2 & He3) [Hv1 Hv2] Hinit.
  destruct (He2 Hinit) as ([ctx Hctx] & Hn1 & Hn2 & Hn3 & Hn4).
  unfold ensureAudioContextResumed. rewrite Hctx.
  assert (state ctx <> running -> isAudioResumed s = false) as Hnot.
  { intros Hst. destruct (isAudioResumed s) eqn:E; [|done].
    destruct (He1 eq_refl) as (_ & ctx' & Hctx' & Hrun). congruence. }
  assert (isAudioResumed s = false -> currentNote s = None) as Hsilent.
  { intros Hr. destruct (currentNote s) as [n|] eqn:E; [|done].
    destruct (Hv1 n eq_refl) as [? _]. congruence. }
  destruct (state ctx) eqn:Hst.
  - (* suspended *)
    pose proof (Hnot ltac:(done)) as Hr. pose proof (Hsilent Hr) as Hcn.
    destruct r; eexists _, _, _; (split; [reflexivity|]);
      unfold engine_ok, voice_ok; simpl; rewrite ?Hcn;
      repeat split; try done; try (by eexists); try (by rewrite Hctx);
      try (intros; congruence); eauto.
  - (* running *)
    eexists _, _, _. split; [reflexivity|].
    unfold engine_ok, voice_ok; simpl.
    repeat split; try done; eauto.
    match goal with H : currentNote s = Some _ |- _ =>
      by destruct (Hv1 _ H) end.
  - (* closed *)
    pose proof (Hnot ltac:(done)) as Hr. pose proof (Hsilent Hr) as Hcn.
    eexists _, _, _. split; [reflexivity|].
    unfold engine_ok, voice_ok; simpl; rewrite ?Hcn.
    repeat split; try done; try (by rewrite Hctx); try (intros; congruence);
      eauto.
Qed.

Lemma initAudio_ok (o : InitOutcome) (s : State) :
  engine_ok s -> voice_ok s ->
  engine_ok (initAudio o s).1 /\ voice_ok (initAudio o s).1.
Proof.
  intros He Hv. unfold initAudio.
  destruct (isAudioInitialized s) eqn:Hinit; [done|].
  destruct He as (He1 & He2 & He3), Hv as [Hv1 Hv2].
  assert (isAudioResumed s = false) as Hr.
  { destruct (isAudioResumed s) eqn:E; [|done].
    destruct (He1 eq_refl) as [? _]. congruence. }
  assert (currentNote s = None) as Hcn.
  { destruct (currentNote s) as [n|] eqn:E; [|done].
    destruct (Hv1 n eq_refl) as [? _]. congruence. }
  destruct o as [|ctx]; unfold engine_ok, voice_ok; simpl; rewrite ?Hcn, ?Hr.
  - repeat split; try done; eauto.
  - repeat split; try done; try (by eexists); eauto.
    exists ctx. split; [done|]. by destruct (state ctx).
Qed.

Lemma blur_ok (s : State) :
  engine_ok s -> engine_ok (blur s) /\ voice_ok (blur s).
Proof.
  intros (He1 & He2 & He3). unfold blur.
  assert (forall s0, currentNote s0 = None ->
            voice_ok (set_pressedKeys ∅ s0)) as Hvoice.
  { intros s0 H0. split; simpl; [by rewrite H0|].
    intros _ c Hc. by rewrite lookup_empty in Hc. }
  destruct (currentNote s) as [note|] eqn:Hcn.
  - set (now := match audioContext s with
                | Some ctx => Fin (currentTime ctx) | None => Fin 0 end).
    destruct (gtb now (Fin 0)).
    + destruct (releaseEnvelopes_frame note now s)
        as (A1 & A2 & A3 & A4 & A5 & A6 & A7 & A8 & A9 & A10 & A11 & A12 & A13).
      split; [|by apply Hvoice].
      unfold engine_ok. simpl. rewrite A1, A2, A3, A5, A6, A7, A8. done.
    + split; [done | by apply Hvoice].
  - split; [done | by apply Hvoice].
Qed.

Lemma keydown_ok (e : KeyboardEvent) (arrow : KnobArrow) (r : ResumeOutcome)
    (s : State) :
  engine_ok s -> voice_ok s ->
  engine_ok (keydown e arrow r s).1 /\ voice_ok (keydown e arrow r s).1.
Proof.
  intros He Hv. unfold Synth.keydown.
  destruct arrow as [| |u]; [|done|].
  2:{ simpl. split; [eapply engine_ok_frame | eapply voice_ok_frame];
        try apply updateParameter_frame; done. }
  destruct (metaKey e || ctrlKey e || altKey e); [done|].
  destruct (keyToNoteMap (code e)) as [note|] eqn:Hnote; [|done].
  destruct (bool_decide (note = 0%Z)
            || bool_decide (pressedKeys s !! code e = Some true)
            || repeat e); [done|].
  (* the state and the verdict after the resume attempt *)
  assert (exists (canPlay : bool) (s1 : State) (log : list Msg),
            (if negb (isAudioResumed s) && isAudioInitialized s
             then ensureAudioContextResumed r s
             else (isAudioResumed s, s, [])) = (canPlay, s1, log) /\
            engine_ok s1 /\ voice_ok s1 /\ isAudioResumed s1 = canPlay)
    as (canPlay & s1 & log & -> & He1 & Hv1 & Hres).
  { destruct (negb (isAudioResumed s) && isAudioInitialized s) eqn:E.
    - apply andb_prop in E as [_ Hinit].
      destruct (ensureAudioContextResumed_ok r s He Hv Hinit)
        as (b & s1 & log & Heq & ? & ? & ? & _).
      by exists b, s1, log.
    - by eexists _, _, _. }
  destruct canPlay.
  - (* the note is played *)
    set (s2 := set_pressedKeys (<[code e := true]> (pressedKeys s1)) s1).
    destruct He1 as (He11 & He12 & He13).
    destruct (He11 Hres) as (Hinit1 & ctx & Hctx & Hrun).
    destruct (He12 Hinit1) as (_ & Hn1 & Hn2 & Hn3 & Hn4).
    destruct (noteOn_running note (Fin (midiToFreq note)) s2 ctx Hctx Hrun
                Hn1 Hn2)
      as (s3 & log' & -> & Hcn & _ & A1 & A2 & A3 & B1 & B2 & B3 & B4 & _ & _ & A7).
    simpl. split.
    + unfold engine_ok. rewrite A1, A2, A3, B3, B4.
      split; [done|]. split; [|simpl; intros; congruence].
      intros _. repeat split; try done; by eexists.
    + split.
      * intros n Hn. rewrite Hcn in Hn. injection Hn as <-.
        rewrite A3, A7. split; [done|]. exists (code e).
        split; [|done]. simpl. apply lookup_insert_eq.
      * intros Hn. congruence.
  - destruct (isAudioInitialized s1); done.
Qed.

Lemma engine_ok_set_pressedKeys (k : gmap string bool) (s : State) :
  engine_ok s -> engine_ok (set_pressedKeys k s).
Proof. done. Qed.

Lemma noteOff_release_ok (c : string) (note : Z) (s0 : State) :
  engine_ok s0 -> voice_ok s0 -> keyToNoteMap c = Some note ->
  let s1 := set_pressedKeys (<[c := false]> (pressedKeys s0)) s0 in
  engine_ok (noteOff note s1).1 /\ voice_ok (noteOff note s1).1.
Proof.
  intros He Hv Hc s1.
  assert (engine_ok s1) as He1 by done.
  destruct Hv as [Hv1 Hv2].
  destruct (currentNote s0) as [cur|] eqn:Hcn.
  - destruct (Hv1 cur eq_refl) as (Hres & c0 & Hc0 & Hn0).
    destruct He as (He_r & He_i & He_n).
    destruct (He_r Hres) as (Hinit & ctx & Hctx & Hrun).
    destruct (He_i Hinit) as (_ & [f1 Hf1] & [f2 Hf2] & Hff & Hg).
    destruct (decide (note = cur)) as [->|Hne].
    + destruct (remainingHeldCodes (pressedKeys s1)) as [|c1 rest] eqn:Hrem.
      * rewrite (noteOff_last_key cur s1 ctx) by (done || by eexists).
        destruct (releaseEnvelopes_frame cur (Fin (currentTime ctx)) s1)
          as (A1 & A2 & A3 & A4 & A5 & A6 & A7 & A8 & A9 & A10 & A11 & A12 & A13).
        split.
        -- unfold engine_ok. simpl. rewrite A1, A2, A3, A5, A6, A7, A8. done.
        -- split; simpl; [done|]. intros _ c' Hc'. rewrite A11 in Hc'.
           destruct (keyToNoteMap c') as [n'|] eqn:Hn'; [|done].
           assert (c' ∈ remainingHeldCodes (pressedKeys s1)) as Hin
             by (apply elem_of_remainingHeldCodes; split; [done | by eexists]).
           rewrite Hrem in Hin. by apply elem_of_nil in Hin.
      * assert (remainingHeldCodes (pressedKeys s1) <> []) as Hne
          by (by rewrite Hrem).
        destruct (noteOff_transition cur s1 ctx f1 f2 Hinit Hres Hctx Hf1 Hf2
                    Hcn Hne) as (m & c' & Hin & Hm & _ & Heq).
        cbv zeta in Heq. rewrite Heq.
        match goal with
        | |- context [set_pitch ?p ?n ?a ?b f1 f2 ?st] =>
            destruct (set_pitch_frame p n a b f1 f2 st) as (f1' & f2' & ->)
        end.
        apply elem_of_remainingHeldCodes in Hin as [Hin _].
        split.
        -- unfold engine_ok. simpl. split; [done|].
           split; [|intros; congruence]. intros _.
           repeat split; try done; by eexists.
        -- split; simpl; [|done]. intros n [= <-]. split; [done|].
           by exists c'.
    + rewrite (noteOff_other note cur s1) by done.
      split; [done|]. split; simpl.
      * intros n Hn. rewrite Hcn in Hn. injection Hn as <-.
        split; [done|]. exists c0. split; [|done].
        rewrite lookup_insert_ne; [done|]. intros ->. congruence.
      * rewrite Hcn. done.
  - rewrite noteOff_silent by done.
    split; [done|]. split; simpl.
    + intros n Hn. congruence.
    + intros _ c' Hc'. destruct (decide (c = c')) as [->|Hne].
      * by rewrite lookup_insert_eq in Hc'.
      * rewrite lookup_insert_ne in Hc' by done. by apply Hv2.
Qed.

Lemma keyup_ok (e : KeyboardEvent) (shiftRestart : option ControlUpdate)
    (s : State) :
  engine_ok s -> voice_ok s ->
  engine_ok (keyup e shiftRestart s).1 /\ voice_ok (keyup e shiftRestart s).1.
Proof.
  intros He Hv. unfold Synth.keyup.
  set (s0 := match shiftRestart with
             | Some u => updateParameter u false s | None => s end).
  assert (engine_ok s0 /\ voice_ok s0) as [He0 Hv0].
  { unfold s0. destruct shiftRestart as [u|]; [|done].
    split; [eapply engine_ok_frame | eapply voice_ok_frame];
      try apply updateParameter_frame; done. }
  destruct (keyToNoteMap (code e)) as [note|] eqn:Hnote; [|done].
  destruct (negb (bool_decide (note = 0%Z))
            && bool_decide (pressedKeys s0 !! code e = Some true)); [|done].
  by apply noteOff_release_ok.
Qed.

Lemma click_ok (r : ResumeOutcome) (s : State) :
  engine_ok s -> voice_ok s ->
  engine_ok (click r s).1 /\ voice_ok (click r s).1.
Proof.
  intros He Hv. unfold click.
  destruct (negb (isAudioResumed s) && isAudioInitialized s) eqn:E; [|done].
  apply andb_prop in E as [_ Hinit].
  destruct (ensureAudioContextResumed_ok r s He Hv Hinit)
    as (b & s1 & log & -> & ? & ? & _). done.
Qed.

Lemma updateAll_ok (controls : list ControlUpdate) (force : bool) (s : State) :
  engine_ok s -> voice_ok s ->
  engine_ok (updateAll controls force s) /\
  voice_ok (updateAll controls force s).
Proof.
  intros He Hv.
  split; [eapply engine_ok_frame | eapply voice_ok_frame];
    try apply updateAll_frame; done.
Qed.

Lemma powerButton_ok (o : InitOutcome) (controls : list ControlUpdate)
    (r : ResumeOutcome) (s : State) :
  engine_ok s -> voice_ok s ->
  engine_ok (powerButton o controls r s).1 /\
  voice_ok (powerButton o controls r s).1.
Proof.
  intros He Hv. unfold powerButton.
  destruct (isAudioInitialized s) eqn:Hinit; cbn [negb].
  - destruct (ensureAudioContextResumed_ok r s He Hv Hinit)
      as (b & s1 & log & -> & ? & ? & _). done.
  - destruct (initAudio_ok o s He Hv) as [He1 Hv1].
    destruct (initAudio o s) as [s1 log1]. simpl in He1, Hv1.
    destruct (updateAll_ok controls true s1 He1 Hv1) as [He2 Hv2].
    destruct (audioContext (updateAll controls true s1)) as [ctx|] eqn:Hctx;
      [|done].
    destruct (ContextState_eqb (state ctx) suspended); [|done].
    destruct (isAudioInitialized (updateAll controls true s1)) eqn:Hinit2.
    + destruct (ensureAudioContextResumed_ok r _ He2 Hv2 Hinit2)
        as (b & s3 & log3 & -> & ? & ? & _). done.
    + destruct He2 as (_ & _ & He23). rewrite He23 in Hctx by done. done.
Qed.

Lemma domContentLoaded_ok (controls : list ControlUpdate) (o : InitOutcome)
    (s : State) :
  engine_ok s -> voice_ok s ->
  engine_ok (domContentLoaded controls o s).1 /\
  voice_ok (domContentLoaded controls o s).1.
Proof.
  intros He Hv. unfold domContentLoaded.
  destruct (updateAll_ok controls false s He Hv). by apply initAudio_ok.
Qed.

Lemma handle_ok (ev : Event) (s : State) :
  engine_ok s -> voice_ok s ->
  engine_ok (handle ev s).1 /\ voice_ok (handle ev s).1.
Proof.
  intros He Hv. destruct ev; cbn [Synth.handle].
  - by apply domContentLoaded_ok.
  - by apply powerButton_ok.
  - by apply click_ok.
  - simpl. split; [eapply engine_ok_frame | eapply voice_ok_frame];
      try apply updateParameter_frame; done.
  - by apply keydown_ok.
  - by apply keyup_ok.
  - simpl. by apply blur_ok.
  - split; [eapply engine_ok_octave | eapply voice_ok_octave];
      try apply updateOctave_frame; done.
Qed.

Lemma run_ok (evs : list Event) :
  forall s : State,
  engine_ok s -> voice_ok s ->
  engine_ok (run evs s).1 /\ voice_ok (run evs s).1.
Proof.
  induction evs as [|ev evs IH]; intros s He Hv; [done|].
  cbn [Synth.run].
  destruct (handle_ok ev s He Hv) as [He1 Hv1].
  destruct (handle ev s) as [s1 log1]. simpl in He1, Hv1.
  destruct (IH s1 He1 Hv1) as [He2 Hv2].
  destruct (run evs s1) as [s2 log2]. done.
Qed.

Lemma loaded_ok (p : Params) : engine_ok (loaded p) /\ voice_ok (loaded p).
Proof.
  unfold engine_ok, voice_ok. simpl. repeat split; done.
Qed.

(** C3.  After any sequence of events (key-down and key-up among them)
    handled from the loaded page, a note is sounding exactly when some
    held key maps to a note. *)
Theorem C3_sounding_iff_key_held (evs : list Event) (p : Params) :
  let s := (run evs (loaded p)).1 in
  currentNote s <> None <-> remainingHeldCodes (pressedKeys s) <> [].
Proof.
  intros s.
  destruct (loaded_ok p) as [He0 Hv0].
  destruct (run_ok evs (loaded p) He0 Hv0) as [_ [Hv1 Hv2]]. fold s in Hv1, Hv2.
  split.
  - intros Hcn Hrem. destruct (currentNote s) as [n|] eqn:E; [|done].
    destruct (Hv1 n eq_refl) as (_ & c & Hc & Hn).
    assert (c ∈ remainingHeldCodes (pressedKeys s)) as Hin
      by (apply elem_of_remainingHeldCodes; split; [done | by eexists]).
    rewrite Hrem in Hin. by apply elem_of_nil in Hin.
  - intros Hrem Hcn.
    destruct (remainingHeldCodes (pressedKeys s)) as [|c rest] eqn:E; [done|].
    assert (c ∈ remainingHeldCodes (pressedKeys s)) as Hin
      by (rewrite E; apply elem_of_cons; by left).
    apply elem_of_remainingHeldCodes in Hin as [Hc [n Hn]].
    specialize (Hv2 Hcn c Hc). congruence.
Qed.

(** C2.  In any state reached from the loaded page, releasing the key of
    the sounding note while another note key is held moves the voice to
    the highest note among the keys still held: [currentNote] and
    [currentFrequency] are updated, both oscillator frequencies glide or
    jump according to the portamento time, and nothing is scheduled on
    the filter and gate envelope targets, whatever the parameters. *)
Theorem C2_release_moves_to_highest_held (evs : list Event) (p : Params)
    (e : KeyboardEvent) (note : Z) :
  let s := (run evs (loaded p)).1 in
  keyToNoteMap (code e) = Some note ->
  pressedKeys s !! code e = Some true ->
  currentNote s = Some note ->
  (exists other : string,
     other <> code e /\ pressedKeys s !! other = Some true /\
     is_Some (keyToNoteMap other)) ->
  exists (s' : State) (log : list Msg) (m : Z) (c : string)
         (ctx : AudioContext) (f1 f2 f1' f2' : AudioParam),
    keyup e None s = (s', log) /\
    c <> code e /\ pressedKeys s !! c = Some true /\
    keyToNoteMap c = Some m /\
    (forall (c' : string) (n' : Z),
       c' <> code e -> pressedKeys s !! c' = Some true ->
       keyToNoteMap c' = Some n' -> (n' <= m)%Z) /\
    currentNote s' = Some m /\
    currentFrequency s' = Fin (midiToFreq m) /\
    audioContext s = Some ctx /\
    vco1_frequency s = Some f1 /\ vco2_frequency s = Some f2 /\
    vco1_frequency s' = Some f1' /\ vco2_frequency s' = Some f2' /\
    (let now := Fin (currentTime ctx) in
     let target1 :=
       (calculateVcoFrequency ctx (Fin (midiToFreq m)) (vco1 (params s))).1.1 in
     let target2 :=
       (calculateVcoFrequency ctx (Fin (midiToFreq m)) (vco2 (params s))).1.1 in
     ((q0_005 < portamentoTime (params s))%Q ->
        scheduled f1' =
        scheduled f1 ++
          [cancelScheduledValues now;
           setTargetAtTime target1 now
             (Fin (portamentoTime (params s) / 4))] /\
        scheduled f2' =
        scheduled f2 ++
          [cancelScheduledValues now;
           setTargetAtTime target2 now
             (Fin (portamentoTime (params s) / 4))]) /\
     ((portamentoTime (params s) <= q0_005)%Q ->
        scheduled f1' =
        scheduled f1 ++
          [cancelScheduledValues now; setValueAtTime target1 now] /\
        scheduled f2' =
        scheduled f2 ++
          [cancelScheduledValues now; setValueAtTime target2 now])) /\
    filter_frequency s' = filter_frequency s /\
    vcaGainNode_gain s' = vcaGainNode_gain s /\
    pressedKeys s' = <[code e := false]> (pressedKeys s).
Proof.
  intros s Hnote Hheld Hcn (other & Hother & Hoheld & Hon).
  destruct (loaded_ok p) as [He0 Hv0].
  destruct (run_ok evs (loaded p) He0 Hv0) as [He [Hv1 Hv2]].
  fold s in He, Hv1, Hv2.
  destruct (Hv1 note Hcn) as (Hres & _).
  destruct He as (He_r & He_i & _).
  destruct (He_r Hres) as (Hinit & ctx & Hctx & Hrun).
  destruct (He_i Hinit) as (_ & [f1 Hf1] & [f2 Hf2] & _ & _).
  pose proof (keyToNoteMap_range _ _ Hnote) as Hrange.
  unfold Synth.keyup. rewrite Hnote.
  rewrite (bool_decide_eq_false_2 (note = 0%Z)) by lia.
  rewrite bool_decide_eq_true_2 by done. cbn [negb andb].
  set (s1 := set_pressedKeys (<[code e := false]> (pressedKeys s)) s).
  assert (forall c' : string,
            c' ∈ remainingHeldCodes (pressedKeys s1) <->
            c' <> code e /\ pressedKeys s !! c' = Some true /\
            is_Some (keyToNoteMap c')) as Hrem.
  { intros c'. rewrite elem_of_remainingHeldCodes. simpl.
    destruct (decide (code e = c')) as [<-|Hne].
    - rewrite lookup_insert_eq. split; [by intros [[=] _] | by intros [? _]].
    - rewrite lookup_insert_ne by done. split; [by intros [? ?] | by intros (_ & ? & ?)]. }
  assert (remainingHeldCodes (pressedKeys s1) <> []) as Hne.
  { intros Hnil. assert (other ∈ remainingHeldCodes (pressedKeys s1)) as Hin
      by (by apply Hrem).
    rewrite Hnil in Hin. by apply elem_of_nil in Hin. }
  destruct (noteOff_transition note s1 ctx f1 f2 Hinit Hres Hctx Hf1 Hf2 Hcn Hne)
    as (m & c & Hin & Hm & Hmax & Heq).
  cbv zeta in Heq. rewrite Heq. clear Heq.
  apply Hrem in Hin as (Hc1 & Hc2 & _).
  change (params s1) with (params s).
  destruct (calculateVcoFrequency ctx (Fin (midiToFreq m)) (vco1 (params s)))
    as [[t1 v1] log1] eqn:E1.
  destruct (calculateVcoFrequency ctx (Fin (midiToFreq m)) (vco2 (params s)))
    as [[t2 v2] log2] eqn:E2.
  cbn [fst snd].
  assert (forall (c' : string) (n' : Z),
            c' <> code e -> pressedKeys s !! c' = Some true ->
            keyToNoteMap c' = Some n' -> (n' <= m)%Z) as Hhighest.
  { intros c' n' H1 H2 H3. apply (Hmax c' n'); [|done].
    apply Hrem. split; [done|]. split; [done | by eexists]. }
  destruct (Qlt_le_dec q0_005 (portamentoTime (params s))) as [Hp|Hp].
  - rewrite set_pitch_glide by done.
    eexists _, _, m, c, ctx, f1, f2, _, _.
    split; [reflexivity|].
    repeat split; try done; try (intros; lra).
    all: simpl; rewrite ?E1, ?E2; by rewrite <- app_assoc.
  - rewrite set_pitch_jump by done.
    eexists _, _, m, c, ctx, f1, f2, _, _.
    split; [reflexivity|].
    repeat split; try done; try (intros; lra).
    all: simpl; rewrite ?E1, ?E2; by rewrite <- app_assoc.
Qed.

End Reachable.

Lemma set_isAudioResumed_same (s : State) :
  isAudioResumed s = false -> set_isAudioResumed false s = s.
Proof. destruct s. simpl. by intros ->. Qed.

(** A resume attempt that fails leaves an engine that was not resumed as
    it was. *)
Lemma ensureAudioContextResumed_fails (r : ResumeOutcome) (s : State) :
  isAudioResumed s = false ->
  (ensureAudioContextResumed r s).1.1 = false ->
  (ensureAudioContextResumed r s).1.2 = s.
Proof.
  intros Hr. unfold ensureAudioContextResumed.
  destruct (audioContext s) as [ctx|]; [|done].
  destruct (state ctx); [|done|].
  - destruct r; simpl; try done; intros _; by apply set_isAudioResumed_same.
  - simpl. intros _. by apply set_isAudioResumed_same.
Qed.

Lemma noteOn_rejected (note : Z) (freq : num) (s : State) :
  (forall ctx, audioContext s = Some ctx -> state ctx <> running) ->
  noteOn note freq s = (s, [noteOn_error]).
Proof.
  intros Hnot. unfold noteOn.
  destruct (audioContext s) as [ctx|]; [|done].
  destruct (vco1_frequency s), (vco2_frequency s); try done.
  specialize (Hnot ctx eq_refl). by destruct (state ctx).
Qed.

Section Rejection.

Variable Math_pow : Q -> Q -> Q.

Local Abbreviation midiToFreq := (Synth.midiToFreq Math_pow).
Local Abbreviation keydown := (Synth.keydown Math_pow).
Local Abbreviation keyup := (Synth.keyup Math_pow).
Local Abbreviation handle := (Synth.handle Math_pow).
Local Abbreviation run := (Synth.run Math_pow).

(** C4 (amended).  A key-down for a note while the engine is not resumed
    and cannot be resumed by the listener changes nothing: the state
    (voice, held keys, parameters, every automation list) is the one
    before the event, so that later events are handled as if the request
    had never been made.  The listener reports the rejection by a console
    warning when the engine is initialized and by a console error when it
    is not; [noteOn] itself, called on an engine that is not running,
    changes nothing either and logs an error. *)
Theorem C4_unready_engine_rejects_note_on (e : KeyboardEvent)
    (r : ResumeOutcome) (s : State) (note : Z) :
  keyToNoteMap (code e) = Some note ->
  metaKey e = false -> ctrlKey e = false -> altKey e = false ->
  repeat e = false ->
  pressedKeys s !! code e <> Some true ->
  isAudioResumed s = false ->
  (isAudioInitialized s = true ->
   (ensureAudioContextResumed r s).1.1 = false) ->
  (keydown e no_knob_arrow r s).1 = s /\
  (forall evs : list Event,
     run evs (keydown e no_knob_arrow r s).1 = run evs s) /\
  (isAudioInitialized s = true ->
   (keydown e no_knob_arrow r s).2 =
   (ensureAudioContextResumed r s).2 ++ [not_running_warning]) /\
  (isAudioInitialized s = false ->
   (keydown e no_knob_arrow r s).2 = [not_initialized_error]) /\
  (forall freq : num,
     (forall ctx, audioContext s = Some ctx -> state ctx <> running) ->
     noteOn note freq s = (s, [noteOn_error])).
Proof.
  intros Hnote Hm Hc Ha Hrep Hnp Hres Hfail.
  pose proof (keyToNoteMap_range _ _ Hnote) as Hrange.
  assert (keydown e no_knob_arrow r s =
          if isAudioInitialized s
          then (s, (ensureAudioContextResumed r s).2 ++ [not_running_warning])
          else (s, [not_initialized_error])) as Heq.
  { unfold Synth.keydown. rewrite Hm, Hc, Ha, Hnote, Hrep, Hres.
    rewrite (bool_decide_eq_false_2 (note = 0%Z)) by lia.
    rewrite bool_decide_eq_false_2 by done. cbn [orb negb andb].
    destruct (isAudioInitialized s) eqn:Hinit.
    - specialize (Hfail eq_refl).
      pose proof (ensureAudioContextResumed_fails r s Hres Hfail) as Hsame.
      destruct (ensureAudioContextResumed r s) as [[b s1] log].
      simpl in Hfail, Hsame. subst b s1. by rewrite Hinit.
    - by rewrite Hinit. }
  assert ((keydown e no_knob_arrow r s).1 = s) as Hsame
    by (rewrite Heq; by destruct (isAudioInitialized s)).
  split; [done|]. split; [intros evs; by rewrite Hsame|].
  split; [intros Hi; by rewrite Heq, Hi|].
  split; [intros Hi; by rewrite Heq, Hi|].
  intros freq Hnot. by apply noteOn_rejected.
Qed.

End Rejection.

(** C4 at a concrete input: key A on an initialized, suspended engine
    whose resume attempt leaves it suspended. *)
Lemma C4_unready_engine_witness :
  let s := (initAudio (init_ok sample_suspended) (loaded default_params)).1 in
  keyToNoteMap (code (key "KeyA")) = Some 60%Z /\
  pressedKeys s !! code (key "KeyA") <> Some true /\
  isAudioResumed s = false /\
  (isAudioInitialized s = true ->
   (ensureAudioContextResumed resume_not_running s).1.1 = false) /\
  (keydown sample_pow (key "KeyA") no_knob_arrow resume_not_running s).1 = s /\
  (keydown sample_pow (key "KeyA") no_knob_arrow resume_not_running s).2 =
  (ensureAudioContextResumed resume_not_running s).2 ++ [not_running_warning].
Proof.
  intros s.
  assert (keyToNoteMap (code (key "KeyA")) = Some 60%Z) as H1 by reflexivity.
  assert (pressedKeys s !! code (key "KeyA") <> Some true) as H2
    by (vm_compute; discriminate).
  assert (isAudioResumed s = false) as H3 by reflexivity.
  assert (isAudioInitialized s = true ->
          (ensureAudioContextResumed resume_not_running s).1.1 = false) as H4
    by reflexivity.
  split; [exact H1|]. split; [exact H2|]. split; [exact H3|].
  split; [exact H4|].
  destruct (C4_unready_engine_rejects_note_on sample_pow (key "KeyA")
              resume_not_running s 60 H1 eq_refl eq_refl eq_refl eq_refl
              H2 H3 H4) as (Hs & _ & Hw & _).
  split; [exact Hs | exact (Hw eq_refl)].
Defined.

(** C4 as stated fails twice.  With an engine that was never
    initialized the listener reports the rejected note by an error, not a
    warning; and with an engine that is suspended when the key goes down
    the listener resumes it and plays the note instead of rejecting
    it. *)
Lemma C4_counterexample :
  let s := (run sample_pow [DOMContentLoaded [] init_throws]
              (loaded default_params)).1 in
  let s' := (run sample_pow [DOMContentLoaded [] (init_ok sample_suspended)]
               (loaded default_params)).1 in
  (isAudioResumed s = false /\
   (keydown sample_pow (key "KeyA") no_knob_arrow resume_running s).2
   = [not_initialized_error] /\
   ~ no_error
       (keydown sample_pow (key "KeyA") no_knob_arrow resume_running s).2) /\
  (isAudioResumed s' = false /\ currentNote s' = None /\
   currentNote
     (keydown sample_pow (key "KeyA") no_knob_arrow resume_running s').1
   = Some 60%Z).
Proof.
  split.
  - split; [reflexivity|]. split; [reflexivity|].
    intros H. apply Forall_cons in H as [H _]. by apply H.
  - split; [reflexivity|]. split; reflexivity.
Qed.

(** ** Reverb gains *)

Lemma gain_target_call (a : Automation) (p : AudioParam) :
  gain_target (call a p) = automation_target a (gain_target p).
Proof. unfold gain_target, call. simpl. by rewrite fold_left_app. Qed.

Lemma reverb_ok_same (s s' : State) :
  reverb_same s s' -> reverb_ok s -> reverb_ok s'.
Proof. intros [H1 H2]. unfold reverb_ok. by rewrite H1, H2. Qed.

Lemma reverb_same_trans (s1 s2 s3 : State) :
  reverb_same s1 s2 -> reverb_same s2 s3 -> reverb_same s1 s3.
Proof. intros [A1 A2] [B1 B2]. split; congruence. Qed.

Lemma ensureAudioContextResumed_reverb (r : ResumeOutcome) (s : State) :
  reverb_same s (ensureAudioContextResumed r s).1.2.
Proof.
  unfold ensureAudioContextResumed.
  destruct (audioContext s) as [ctx|]; [|done].
  destruct (state ctx); [destruct r| |]; done.
Qed.

Lemma noteOn_reverb (note : Z) (freq : num) (s : State) :
  reverb_same s (noteOn note freq s).1.
Proof.
  destruct (audioContext s) as [ctx|] eqn:Hctx.
  - destruct (state ctx) eqn:Hrun.
    + rewrite noteOn_rejected; [done|]. intros ctx' H. rewrite Hctx in H.
      injection H as <-. congruence.
    + destruct (vco1_frequency s) as [f1|] eqn:Hf1;
        [destruct (vco2_frequency s) as [f2|] eqn:Hf2|].
      * destruct (noteOn_running note freq s ctx Hctx Hrun)
          as (s' & log & -> & H); [by rewrite Hf1 | by rewrite Hf2 |].
        simpl. split; apply H.
      * unfold noteOn. by rewrite Hctx, Hf1, Hf2.
      * unfold noteOn. by rewrite Hctx, Hf1.
    + rewrite noteOn_rejected; [done|]. intros ctx' H. rewrite Hctx in H.
      injection H as <-. congruence.
  - rewrite noteOn_rejected; [done|]. intros ctx' H. congruence.
Qed.

Lemma envelope_frame_reverb (s s' : State) :
  envelope_frame s s' -> reverb_same s s'.
Proof.
  intros (A1 & A2 & A3 & A4 & A5 & A6 & A7 & A8 & A9 & A10 & _). by split.
Qed.

Lemma updateParameter_other_reverb (u : ControlUpdate) (force : bool)
    (s : State) :
  paramPath u <> path_reverbWetGain_gain_value ->
  reverb_same s (updateParameter u force s).
Proof.
  intros Hp. unfold updateParameter.
  cbn [set_params audioContext isAudioInitialized isAudioResumed
       reverbWetGain_gain reverbDryGain_gain filter_frequency].
  destruct (audioContext s) as [ctx|]; [|done].
  destruct (isAudioInitialized s && (isAudioResumed s || force)); [|done].
  destruct (paramPath u); try done.
  by destruct (filter_frequency s).
Qed.

(** An update of the wet level that reaches the graph. *)
Lemma updateParameter_wet_applied (u : ControlUpdate) (force : bool)
    (s : State) (ctx : AudioContext) (wet dry : AudioParam) :
  paramPath u = path_reverbWetGain_gain_value ->
  audioContext s = Some ctx ->
  isAudioInitialized s = true ->
  isAudioResumed s = true \/ force = true ->
  reverbWetGain_gain s = Some wet -> reverbDryGain_gain s = Some dry ->
  updateParameter u force s =
  set_reverb_gains
    (Some (call (setTargetAtTime (Fin (actualAudioValue u))
                   (Fin (currentTime ctx)) (Fin q0_010)) wet))
    (Some (call (setTargetAtTime (Fin (1 - actualAudioValue u))
                   (Fin (currentTime ctx)) (Fin q0_010)) dry))
    (set_params
       (assign path_reverbWetGain_gain_value (actualAudioValue u) (params s))
       s).
Proof.
  intros Hp Hctx Hi Hr Hw Hd. unfold updateParameter.
  cbn [set_params audioContext isAudioInitialized isAudioResumed
       reverbWetGain_gain reverbDryGain_gain].
  rewrite Hctx, Hi, Hp, Hw, Hd.
  destruct Hr as [-> | ->]; [done|]. by rewrite orb_true_r.
Qed.

(** An update that does not reach the graph. *)
Lemma updateParameter_deferred (u : ControlUpdate) (s : State) :
  isAudioResumed s = false ->
  updateParameter u false s =
  set_params (assign (paramPath u) (actualAudioValue u) (params s)) s.
Proof.
  intros Hr. unfold updateParameter.
  cbn [set_params audioContext isAudioInitialized isAudioResumed].
  rewrite Hr. rewrite orb_false_r, andb_false_r.
  by destruct (audioContext s).
Qed.

Lemma updateParameter_reverb_ok (u : ControlUpdate) (force : bool)
    (s : State) :
  reverb_ok s -> reverb_ok (updateParameter u force s).
Proof.
  intros Hok.
  destruct (paramPath u) eqn:Hp;
    try (eapply reverb_ok_same;
         [apply updateParameter_other_reverb; rewrite Hp; discriminate
         | exact Hok]).
  unfold updateParameter.
  cbn [set_params audioContext isAudioInitialized isAudioResumed
       reverbWetGain_gain reverbDryGain_gain].
  destruct (audioContext s) as [ctx|]; [|done].
  destruct (isAudioInitialized s && (isAudioResumed s || force)); [|done].
  rewrite Hp.
  destruct (reverbWetGain_gain s) as [wet|] eqn:Hw; [|done].
  destruct (reverbDryGain_gain s) as [dry|] eqn:Hd; [|done].
  unfold reverb_ok. simpl.
  exists (actualAudioValue u), (1 + - actualAudioValue u)%Q.
  rewrite !gain_target_call. simpl. repeat split; try done. lra.
Qed.

Lemma updateAll_reverb_ok (controls : list ControlUpdate) (force : bool) :
  forall s : State, reverb_ok s -> reverb_ok (updateAll controls force s).
Proof.
  unfold updateAll. induction controls as [|u controls IH]; intros s Hok;
    [done|].
  simpl. apply IH. by apply updateParameter_reverb_ok.
Qed.

Lemma initAudio_reverb_ok (o : InitOutcome) (s : State) :
  reverb_ok s -> reverb_ok (initAudio o s).1.
Proof.
  intros Hok. unfold initAudio.
  destruct (isAudioInitialized s); [done|].
  destruct o as [|ctx]; [done|].
  unfold reverb_ok. simpl.
  exists (reverbWetGain_gain_value (params s)),
         (1 - reverbWetGain_gain_value (params s))%Q.
  repeat split; try done. lra.
Qed.

Section ReverbSteps.

Variable Math_pow : Q -> Q -> Q.

Local Abbreviation noteOff := (Synth.noteOff Math_pow).
Local Abbreviation keydown := (Synth.keydown Math_pow).
Local Abbreviation keyup := (Synth.keyup Math_pow).
Local Abbreviation handle := (Synth.handle Math_pow).
Local Abbreviation run := (Synth.run Math_pow).

Lemma noteOff_reverb (note : Z) (s : State) :
  reverb_same s (noteOff note s).1.
Proof.
  unfold Synth.noteOff.
  destruct (currentNote s) as [cur|]; [|done].
  destruct (vco1_frequency s) as [f1|]; [|done].
  destruct (vco2_frequency s) as [f2|]; [|done].
  destruct (negb (isAudioInitialized s) || negb (isAudioResumed s)); [done|].
  destruct (negb (bool_decide (note = cur))); [done|].
  destruct (audioContext s) as [ctx|]; [|done].
  destruct (remainingHeldCodes (pressedKeys s)) as [|c rest].
  - exact (envelope_frame_reverb s _
             (releaseEnvelopes_frame cur (Fin (currentTime ctx)) s)).
  - destruct (Synth.lastNote_of Math_pow (c :: rest)) as [m fm].
    destruct (calculateVcoFrequency ctx (Fin fm) (vco1 (params s)))
      as [[t1 v1] log1].
    destruct (calculateVcoFrequency ctx (Fin fm) (vco2 (params s)))
      as [[t2 v2] log2].
    match goal with
    | |- context [set_pitch ?p ?n ?a ?b f1 f2 ?st] =>
        destruct (set_pitch_frame p n a b f1 f2 st) as (f1' & f2' & ->)
    end.
    done.
Qed.

Lemma handle_reverb_ok (ev : Event) (s : State) :
  reverb_ok s -> reverb_ok (handle ev s).1.
Proof.
  intros Hok.
  destruct ev as [controls o|o controls r|r|u|e arrow r|e sr| |path v];
    cbn [Synth.handle].
  - unfold domContentLoaded. by apply initAudio_reverb_ok, updateAll_reverb_ok.
  - unfold powerButton.
    destruct (negb (isAudioInitialized s)).
    + pose proof (initAudio_reverb_ok o s Hok) as H1.
      destruct (initAudio o s) as [s1 log1]. simpl in H1.
      pose proof (updateAll_reverb_ok controls true s1 H1) as H2.
      destruct (audioContext (updateAll controls true s1)) as [ctx|]; [|done].
      destruct (ContextState_eqb (state ctx) suspended); [|done].
      pose proof (ensureAudioContextResumed_reverb r
                    (updateAll controls true s1)) as H3.
      destruct (ensureAudioContextResumed r _) as [[b s3] log3].
      simpl in *. by eapply reverb_ok_same.
    + pose proof (ensureAudioContextResumed_reverb r s) as H3.
      destruct (ensureAudioContextResumed r s) as [[b s3] log3].
      simpl in *. by eapply reverb_ok_same.
  - unfold click.
    destruct (negb (isAudioResumed s) && isAudioInitialized s); [|done].
    pose proof (ensureAudioContextResumed_reverb r s) as H3.
    destruct (ensureAudioContextResumed r s) as [[b s3] log3].
    simpl in *. by eapply reverb_ok_same.
  - simpl. by apply updateParameter_reverb_ok.
  - unfold Synth.keydown.
    destruct arrow as [| |u]; [|done|by apply updateParameter_reverb_ok].
    destruct (metaKey e || ctrlKey e || altKey e); [done|].
    destruct (keyToNoteMap (code e)) as [note|]; [|done].
    destruct (_ || _ || repeat e); [done|].
    assert (reverb_same s
              (if negb (isAudioResumed s) && isAudioInitialized s
               then ensureAudioContextResumed r s
               else (isAudioResumed s, s, [])).1.2) as H1.
    { destruct (negb (isAudioResumed s) && isAudioInitialized s); [|done].
      apply ensureAudioContextResumed_reverb. }
    destruct (if negb (isAudioResumed s) && isAudioInitialized s
              then ensureAudioContextResumed r s
              else (isAudioResumed s, s, [])) as [[canPlay s1] log].
    simpl in H1.
    destruct canPlay.
    + pose proof (noteOn_reverb note (Fin (Synth.midiToFreq Math_pow note))
                    (set_pressedKeys (<[code e := true]> (pressedKeys s1)) s1))
        as H2.
      destruct (noteOn _ _ _) as [s3 log']. simpl in *.
      eapply reverb_ok_same; [|exact Hok].
      eapply reverb_same_trans; [exact H1|]. exact H2.
    + destruct (isAudioInitialized s1); simpl; by eapply reverb_ok_same.
  - unfold Synth.keyup.
    set (s0 := match sr with
               | Some u => updateParameter u false s | None => s end).
    assert (reverb_ok s0) as H0.
    { unfold s0. destruct sr; [by apply updateParameter_reverb_ok | done]. }
    destruct (keyToNoteMap (code e)) as [note|]; [|done].
    destruct (_ && _); [|done].
    eapply reverb_ok_same; [apply noteOff_reverb|]. done.
  - simpl. unfold blur.
    assert (forall s0, reverb_ok s0 -> reverb_ok (set_pressedKeys ∅ s0)) as Hp
      by done.
    apply Hp. destruct (currentNote s) as [note|]; [|done].
    destruct (gtb _ _); [|done].
    eapply reverb_ok_same; [|exact Hok].
    exact (envelope_frame_reverb s _ (releaseEnvelopes_frame note _ s)).
  - eapply reverb_ok_same; [|exact Hok].
    destruct (updateOctave_frame path v false s)
      as (_ & _ & _ & _ & _ & _ & _ & Hw & Hd & _).
    by split.
Qed.

End ReverbSteps.

Section ReverbRuns.

Variable Math_pow : Q -> Q -> Q.

Local Abbreviation handle := (Synth.handle Math_pow).
Local Abbreviation run := (Synth.run Math_pow).

Lemma run_reverb_ok (evs : list Event) :
  forall s : State, reverb_ok s -> reverb_ok (run evs s).1.
Proof.
  induction evs as [|ev evs IH]; intros s Hok; [done|].
  cbn [Synth.run].
  pose proof (handle_reverb_ok Math_pow ev s Hok) as H1.
  destruct (handle ev s) as [s1 log1]. simpl in H1.
  specialize (IH s1 H1). destruct (run evs s1) as [s2 log2]. done.
Qed.

(** C10 (amended).  In every state reached from the loaded page the wet
    and dry reverb gains head to targets that sum to 1.  Graph
    initialization sets the dry gain to 1 minus the wet level; an update
    of the wet level sets the dry target to 1 minus the new level when it
    reaches the graph (engine initialized, and resumed or update forced),
    and leaves both gains as they were when the engine is not resumed. *)
Theorem C10_dry_gain_complements_wet (evs : list Event) (p : Params) :
  let s := (run evs (loaded p)).1 in
  reverb_ok s /\
  (forall ctx : AudioContext,
     isAudioInitialized s = false ->
     reverbWetGain_gain (initAudio (init_ok ctx) s).1 =
       Some {| value := reverbWetGain_gain_value (params s);
               scheduled := [] |} /\
     reverbDryGain_gain (initAudio (init_ok ctx) s).1 =
       Some {| value := 1 - reverbWetGain_gain_value (params s);
               scheduled := [] |}) /\
  (forall (u : ControlUpdate) (force : bool) (ctx : AudioContext)
          (wet dry : AudioParam),
     paramPath u = path_reverbWetGain_gain_value ->
     audioContext s = Some ctx ->
     isAudioInitialized s = true ->
     isAudioResumed s = true \/ force = true ->
     reverbWetGain_gain s = Some wet -> reverbDryGain_gain s = Some dry ->
     let s' := updateParameter u force s in
     reverbWetGain_gain_value (params s') = actualAudioValue u /\
     reverbWetGain_gain s' =
       Some (call (setTargetAtTime (Fin (actualAudioValue u))
                     (Fin (currentTime ctx)) (Fin q0_010)) wet) /\
     reverbDryGain_gain s' =
       Some (call (setTargetAtTime (Fin (1 - actualAudioValue u))
                     (Fin (currentTime ctx)) (Fin q0_010)) dry) /\
     gain_target (call (setTargetAtTime (Fin (1 - actualAudioValue u))
                          (Fin (currentTime ctx)) (Fin q0_010)) dry)
     = Fin (1 - actualAudioValue u)) /\
  (forall u : ControlUpdate,
     isAudioResumed s = false ->
     reverbWetGain_gain (updateParameter u false s) = reverbWetGain_gain s /\
     reverbDryGain_gain (updateParameter u false s) = reverbDryGain_gain s).
Proof.
  intros s. split; [|split; [|split]].
  - apply run_reverb_ok. done.
  - intros ctx Hinit. unfold initAudio. rewrite Hinit. done.
  - intros u force ctx wet dry Hp Hctx Hi Hr Hw Hd s'.
    unfold s'.
    rewrite (updateParameter_wet_applied u force s ctx wet dry) by done.
    rewrite gain_target_call. done.
  - intros u Hr. by rewrite updateParameter_deferred.
Qed.

End ReverbRuns.

(** C10 as stated fails: on an initialized but suspended engine an
    update of the wet level to 0.5 is stored in the parameters while the
    dry gain keeps its target 0.8. *)
Lemma C10_counterexample :
  let s := (run sample_pow [DOMContentLoaded [] (init_ok sample_suspended)]
              (loaded default_params)).1 in
  let s' := (handle sample_pow
               (ControlChange
                  (knob_update path_reverbWetGain_gain_value 0 1 (1 # 2)))
               s).1 in
  reverbWetGain_gain_value (params s') = (1 # 2)%Q /\
  exists (dry : AudioParam) (d : Q),
    reverbDryGain_gain s' = Some dry /\
    gain_target dry = Fin d /\
    (d == 8 # 10)%Q /\
    ~ (d == 1 - reverbWetGain_gain_value (params s'))%Q.
Proof.
  split; [reflexivity|].
  eexists _, _. split; [reflexivity|]. split; [reflexivity|].
  split; [reflexivity|]. vm_compute. discriminate.
Qed.

(** C1 at a concrete input: note 60 sounding on a running engine with the
    default parameters (legato on), then note 64. *)
Lemma C1_retrigger_witness :
  let s := (run sample_pow
              [DOMContentLoaded [] (init_ok sample_context);
               KeyDown (key "KeyA") no_knob_arrow resume_running]
              (loaded default_params)).1 in
  exists f1 f2 ff g : AudioParam,
    audioContext s = Some sample_context /\
    state sample_context = running /\
    vco1_frequency s = Some f1 /\ vco2_frequency s = Some f2 /\
    filter_frequency s = Some ff /\ vcaGainNode_gain s = Some g /\
    currentNote s = Some 60%Z /\ 64%Z <> 60%Z /\
    exists (s' : State) (log : list Msg),
      noteOn 64 (Fin 330) s = (s', log) /\
      currentNote s' = Some 64%Z /\
      filter_frequency s' = Some ff /\ vcaGainNode_gain s' = Some g.
Proof.
  intros s.
  destruct (vco1_frequency s) as [f1|] eqn:Hf1; [|discriminate].
  destruct (vco2_frequency s) as [f2|] eqn:Hf2; [|discriminate].
  destruct (filter_frequency s) as [ff|] eqn:Hff; [|discriminate].
  destruct (vcaGainNode_gain s) as [g|] eqn:Hg; [|discriminate].
  exists f1, f2, ff, g.
  assert (64%Z <> 60%Z) as Hne by discriminate.
  destruct (C1_retrigger_iff_legato_off s 64 60 (Fin 330) sample_context
              f1 f2 ff g eq_refl eq_refl Hf1 Hf2 Hff Hg eq_refl Hne)
    as (s' & log & f1' & f2' & ff' & g' & Hon & Hcn & _ & _ & _ & Hff' & Hg'
        & _ & Hleg & _).
  assert ((q0_5 <= legato (params s))%Q) as Hon_legato
    by (vm_compute; discriminate).
  destruct (Hleg Hon_legato) as [-> ->].
  repeat split; try done.
  by exists s', log.
Defined.

(** C2 at a concrete input: keys A (60) then D (64) held, D released. *)
Lemma C2_release_witness :
  let s := (run sample_pow sample_events (loaded default_params)).1 in
  keyToNoteMap (code (key "KeyD")) = Some 64%Z /\
  pressedKeys s !! code (key "KeyD") = Some true /\
  currentNote s = Some 64%Z /\
  (exists other : string,
     other <> code (key "KeyD") /\ pressedKeys s !! other = Some true /\
     is_Some (keyToNoteMap other)) /\
  exists (s' : State) (log : list Msg),
    keyup sample_pow (key "KeyD") None s = (s', log) /\
    currentNote s' = Some 60%Z /\
    filter_frequency s' = filter_frequency s /\
    vcaGainNode_gain s' = vcaGainNode_gain s.
Proof.
  intros s.
  assert (keyToNoteMap (code (key "KeyD")) = Some 64%Z) as H1 by reflexivity.
  assert (pressedKeys s !! code (key "KeyD") = Some true) as H2
    by (vm_compute; reflexivity).
  assert (currentNote s = Some 64%Z) as H3 by (vm_compute; reflexivity).
  assert (exists other : string,
            other <> code (key "KeyD") /\ pressedKeys s !! other = Some true /\
            is_Some (keyToNoteMap other)) as H4.
  { exists "KeyA". split; [discriminate|].
    split; [vm_compute; reflexivity | by eexists]. }
  split; [exact H1|]. split; [exact H2|]. split; [exact H3|].
  split; [exact H4|].
  destruct (C2_release_moves_to_highest_held sample_pow sample_events
              default_params (key "KeyD") 64 H1 H2 H3 H4)
    as (s' & log & m & c & ctx & f1 & f2 & f1' & f2' & Hup & _ & _ & _ & _
        & Hcn & _ & _ & _ & _ & _ & _ & _ & Hff & Hg & _).
  exists s', log. split; [exact Hup|]. split; [|by split].
  rewrite Hcn. vm_compute in Hup. injection Hup as <- _.
  vm_compute in Hcn. exact (eq_sym Hcn).
Defined.

(** C10 (amended) at a concrete input: a running engine with the default
    parameters, wet level set to 0.5. *)
Lemma C10_dry_gain_witness :
  let s := (run sample_pow [DOMContentLoaded [] (init_ok sample_context)]
              (loaded default_params)).1 in
  let u := knob_update path_reverbWetGain_gain_value 0 1 (1 # 2) in
  exists wet dry dry' : AudioParam,
    paramPath u = path_reverbWetGain_gain_value /\
    audioContext s = Some sample_context /\
    isAudioInitialized s = true /\
    (isAudioResumed s = true \/ false = true) /\
    reverbWetGain_gain s = Some wet /\ reverbDryGain_gain s = Some dry /\
    reverb_ok s /\
    reverbDryGain_gain (updateParameter u false s) = Some dry' /\
    gain_target dry' = Fin (1 - actualAudioValue u).
Proof.
  intros s u.
  destruct (reverbWetGain_gain s) as [wet|] eqn:Hw; [|discriminate].
  destruct (reverbDryGain_gain s) as [dry|] eqn:Hd; [|discriminate].
  destruct (C10_dry_gain_complements_wet sample_pow
              [DOMContentLoaded [] (init_ok sample_context)] default_params)
    as (Hok & _ & Hupd & _).
  destruct (Hupd u false sample_context wet dry eq_refl eq_refl eq_refl
              (or_introl eq_refl) Hw Hd) as (_ & _ & Hdry & Htarget).
  eexists wet, dry, _.
  split; [reflexivity|]. split; [reflexivity|]. split; [reflexivity|].
  split; [left; reflexivity|]. split; [reflexivity|]. split; [reflexivity|].
  split; [exact Hok|]. split; [exact Hdry | exact Htarget].
Defined.

(** Scenario: key-down of note 60 on a silent voice makes it the
    sounding note and triggers both envelopes; the key-up that follows
    releases them and silences the voice. *)
Example first_note_then_release :
  let s0 := (run sample_pow [DOMContentLoaded [] (init_ok sample_context)]
               (loaded default_params)).1 in
  let s1 := (keydown sample_pow (key "KeyA") no_knob_arrow resume_running
               s0).1 in
  let s2 := (keyup sample_pow (key "KeyA") None s1).1 in
  currentNote s0 = None /\
  currentNote s1 = Some 60%Z /\
  (scheduled <$> vcaGainNode_gain s1) =
    Some [cancelScheduledValues (Fin 1); setValueAtTime (Fin q0_0001) (Fin 1);
          linearRampToValueAtTime (Fin 1) (Fin (1 + (1 # 100)));
          linearRampToValueAtTime (Fin 1) (Fin (1 + (1 # 100) + (1 # 10)))] /\
  currentNote s2 = None /\
  remainingHeldCodes (pressedKeys s2) = [].
Proof. vm_compute. repeat split; reflexivity. Qed.

(** ** Notes from silence, ignored keys and silencing *)

(** X4.  The first note after silence on a running engine: whatever the
    portamento time and the legato switch, both oscillator frequencies
    jump ([cancelScheduledValues], then [setValueAtTime]) to their targets
    and both envelopes are triggered; the note becomes the sounding
    note. *)
Theorem X4_first_note_from_silence (s : State) (note : Z) (freq : num)
    (ctx : AudioContext) (f1 f2 ff g : AudioParam) :
  audioContext s = Some ctx -> state ctx = running ->
  vco1_frequency s = Some f1 -> vco2_frequency s = Some f2 ->
  filter_frequency s = Some ff -> vcaGainNode_gain s = Some g ->
  currentNote s = None ->
  let now := Fin (currentTime ctx) in
  let target1 := (calculateVcoFrequency ctx freq (vco1 (params s))).1.1 in
  let target2 := (calculateVcoFrequency ctx freq (vco2 (params s))).1.1 in
  exists (s' : State) (log : list Msg) (f1' f2' ff' g' : AudioParam),
    noteOn note freq s = (s', log) /\
    currentNote s' = Some note /\ currentFrequency s' = freq /\
    vco1_frequency s' = Some f1' /\ vco2_frequency s' = Some f2' /\
    filter_frequency s' = Some ff' /\ vcaGainNode_gain s' = Some g' /\
    scheduled f1' =
      scheduled f1 ++ [cancelScheduledValues now; setValueAtTime target1 now] /\
    scheduled f2' =
      scheduled f2 ++ [cancelScheduledValues now; setValueAtTime target2 now] /\
    retriggered ff ff' now /\ retriggered g g' now /\
    pressedKeys s' = pressedKeys s.
Proof.
  intros Hctx Hrun Hf1 Hf2 Hff Hg Hnote now target1 target2.
  unfold noteOn. rewrite Hctx, Hf1, Hf2, Hrun. cbn [ContextState_eqb negb].
  subst target1 target2.
  destruct (calculateVcoFrequency ctx freq (vco1 (params s)))
    as [[t1 v1] log1].
  destruct (calculateVcoFrequency ctx freq (vco2 (params s)))
    as [[t2 v2] log2].
  cbn [fst snd set_params currentNote]. rewrite Hnote.
  fold now.
  set (p' := set_vco2 v2 (set_vco1 v1 (params s))).
  rewrite set_pitch_zero.
  unfold triggerEnvelopes.
  cbn [set_vco_frequencies set_voice set_params filter_frequency
       vcaGainNode_gain audioContext params].
  rewrite Hff, Hg, Hctx.
  destruct (triggerEnvelope_retriggered ctx p' (vcfEnv p') ff
              (Fin (sustain (vcfEnv p'))) now true note)
    as (ff' & -> & _ & Hrf).
  destruct (triggerEnvelope_retriggered ctx p' (vcaEnv p') g
              (Fin (sustain (vcaEnv p'))) now false 69)
    as (g' & -> & _ & Hrg).
  eexists _, _, _, _, ff', g'.
  split; [reflexivity|].
  cbn. repeat split; try done; simpl; by rewrite <- app_assoc.
Qed.

Section Listeners.

Variable Math_pow : Q -> Q -> Q.

Local Abbreviation midiToFreq := (Synth.midiToFreq Math_pow).
Local Abbreviation keydown := (Synth.keydown Math_pow).
Local Abbreviation keyup := (Synth.keyup Math_pow).
Local Abbreviation run := (Synth.run Math_pow).

(** X5.  A key-down that is not a fresh note key is ignored altogether:
    with Meta, Ctrl or Alt held, for a key outside the note map, for a
    key already marked as held, and for an auto-repeat event, the state
    is left as it was, no resume is attempted and nothing is logged. *)
Theorem X5_key_down_ignored (e : KeyboardEvent) (r : ResumeOutcome)
    (s : State) :
  metaKey e = true \/ ctrlKey e = true \/ altKey e = true \/
  keyToNoteMap (code e) = None \/
  pressedKeys s !! code e = Some true \/ repeat e = true ->
  keydown e no_knob_arrow r s = (s, []).
Proof.
  intros H. unfold Synth.keydown.
  destruct (metaKey e) eqn:Hm; [done|].
  destruct (ctrlKey e) eqn:Hc; [done|].
  destruct (altKey e) eqn:Ha; [done|]. cbn [orb].
  destruct (keyToNoteMap (code e)) as [note|] eqn:Hn; [|done].
  destruct H as [?|[?|[?|[?|[H|H]]]]]; try done.
  - rewrite (bool_decide_eq_true_2 _ H). by rewrite orb_true_r.
  - rewrite H. by rewrite orb_true_r.
Qed.

(** X7.  A key-up that does not release the sounding note only updates
    the bookkeeping: for a key outside the note map or not marked as held
    nothing changes at all; for a held note key other than the sounding
    one the key is marked as released and the voice, the oscillators and
    the envelopes are left as they were. *)
Theorem X7_key_up_of_silent_key (e : KeyboardEvent) (s : State) :
  (keyToNoteMap (code e) = None \/ pressedKeys s !! code e <> Some true ->
   keyup e None s = (s, [])) /\
  (forall note : Z,
     keyToNoteMap (code e) = Some note ->
     pressedKeys s !! code e = Some true ->
     currentNote s <> Some note ->
     keyup e None s =
     (set_pressedKeys (<[code e := false]> (pressedKeys s)) s, [])).
Proof.
  split.
  - intros H. unfold Synth.keyup.
    destruct (keyToNoteMap (code e)) as [note|] eqn:Hn; [|done].
    destruct H as [?|H]; [done|].
    rewrite (bool_decide_eq_false_2 _ H). by rewrite andb_false_r.
  - intros note Hn Hheld Hcur. unfold Synth.keyup. rewrite Hn.
    pose proof (keyToNoteMap_range _ _ Hn) as Hrange.
    rewrite (bool_decide_eq_false_2 (note = 0%Z)) by lia.
    rewrite bool_decide_eq_true_2 by done. cbn [negb andb].
    set (s1 := set_pressedKeys (<[code e := false]> (pressedKeys s)) s).
    destruct (currentNote s) as [current|] eqn:Hc.
    + apply (noteOff_other Math_pow note current s1); [done | congruence].
    + by apply noteOff_silent.
Qed.

(** X6.  In any state reached from the loaded page, releasing the key of
    the sounding note while no other note key is held silences the voice:
    [currentNote] becomes null and [currentFrequency] 0, the gate gain is
    held at its current value and ramped to 0.0001 over the release time
    (at least 0.001 s), the filter cutoff is ramped back to its clamped
    base, and the oscillator frequencies are not touched. *)
Theorem X6_last_key_released (evs : list Event) (p : Params)
    (e : KeyboardEvent) (note : Z) :
  let s := (run evs (loaded p)).1 in
  keyToNoteMap (code e) = Some note ->
  pressedKeys s !! code e = Some true ->
  currentNote s = Some note ->
  (forall other : string,
     other <> code e -> pressedKeys s !! other = Some true ->
     keyToNoteMap other = None) ->
  exists (s' : State) (ctx : AudioContext) (ff g ff' g' : AudioParam),
    keyup e None s = (s', []) /\
    currentNote s' = None /\ currentFrequency s' = Fin 0 /\
    pressedKeys s' = <[code e := false]> (pressedKeys s) /\
    audioContext s = Some ctx /\
    filter_frequency s = Some ff /\ vcaGainNode_gain s = Some g /\
    filter_frequency s' = Some ff' /\ vcaGainNode_gain s' = Some g' /\
    (let now := Fin (currentTime ctx) in
     scheduled g' =
       scheduled g ++
         [cancelScheduledValues now;
          setValueAtTime (Fin (value g)) now;
          linearRampToValueAtTime (Fin q0_0001)
            (Fin (currentTime ctx
                  + maxQ q0_001 (release (vcaEnv (params s)))))] /\
     scheduled ff' =
       scheduled ff ++
         [cancelScheduledValues now;
          setValueAtTime (Fin (value ff)) now;
          linearRampToValueAtTime
            (Math_min (Fin (sampleRate ctx) / Fin 2)%num
               (Math_max (Fin 20) (baseFreqWithKeyFollow (params s) note)))
            (Fin (currentTime ctx
                  + maxQ q0_001 (release (vcfEnv (params s)))))]) /\
    vco1_frequency s' = vco1_frequency s /\
    vco2_frequency s' = vco2_frequency s /\
    params s' = params s.
Proof.
  intros s Hnote Hheld Hcn Hnone.
  destruct (loaded_ok p) as [He0 Hv0].
  destruct (run_ok Math_pow evs (loaded p) He0 Hv0) as [He [Hv1 Hv2]].
  fold s in He, Hv1, Hv2.
  destruct (Hv1 note Hcn) as (Hres & _).
  destruct He as (He_r & He_i & _).
  destruct (He_r Hres) as (Hinit & ctx & Hctx & Hrun).
  destruct (He_i Hinit) as (_ & Hf1 & Hf2 & [ff Hff] & [g Hg]).
  pose proof (keyToNoteMap_range _ _ Hnote) as Hrange.
  unfold Synth.keyup. rewrite Hnote.
  rewrite (bool_decide_eq_false_2 (note = 0%Z)) by lia.
  rewrite bool_decide_eq_true_2 by done. cbn [negb andb].
  set (s1 := set_pressedKeys (<[code e := false]> (pressedKeys s)) s).
  assert (remainingHeldCodes (pressedKeys s1) = []) as Hrem.
  { destruct (remainingHeldCodes (pressedKeys s1)) as [|c rest] eqn:E; [done|].
    assert (c ∈ remainingHeldCodes (pressedKeys s1)) as Hin
      by (rewrite E; apply elem_of_cons; by left).
    apply elem_of_remainingHeldCodes in Hin as [Hc [n Hn]]. simpl in Hc.
    destruct (decide (code e = c)) as [<-|Hne].
    - by rewrite lookup_insert_eq in Hc.
    - rewrite lookup_insert_ne in Hc by done.
      rewrite (Hnone c) in Hn; [done | congruence | done]. }
  rewrite (noteOff_last_key Math_pow note s1 ctx) by done.
  unfold releaseEnvelopes.
  change (filter_frequency s1) with (filter_frequency s).
  change (vcaGainNode_gain s1) with (vcaGainNode_gain s).
  change (audioContext s1) with (audioContext s).
  rewrite Hff, Hg, Hctx.
  eexists _, ctx, ff, g, _, _. split; [reflexivity|].
  cbn -[baseFreqWithKeyFollow div].
  repeat split; try done; cbn [scheduled call]; by rewrite <- !app_assoc.
Qed.

(** X8.  The blur listener silences the synthesizer: no note is sounding
    and no key is marked as held afterwards, so that every later key-up
    is ignored.  The envelopes are released only when a note was sounding
    and the context time is positive; with no note, no context or a
    context time of 0 nothing is scheduled on the filter and on the gate.
    The engine flags, the parameters and the oscillator frequencies are
    never touched. *)
Theorem X8_blur_silences (s : State) :
  let s' := blur s in
  currentNote s' = None /\ pressedKeys s' = ∅ /\
  (currentNote s <> None -> currentFrequency s' = Fin 0) /\
  (currentNote s = None -> currentFrequency s' = currentFrequency s) /\
  (forall (n : Z) (ctx : AudioContext),
     currentNote s = Some n -> audioContext s = Some ctx ->
     (0 < currentTime ctx)%Q ->
     s' = set_pressedKeys ∅
            (set_voice None (Fin 0)
               (releaseEnvelopes n (Fin (currentTime ctx)) s))) /\
  (currentNote s = None \/ audioContext s = None \/
   (exists ctx : AudioContext,
      audioContext s = Some ctx /\ (currentTime ctx <= 0)%Q) ->
   filter_frequency s' = filter_frequency s /\
   vcaGainNode_gain s' = vcaGainNode_gain s) /\
  audioContext s' = audioContext s /\
  isAudioInitialized s' = isAudioInitialized s /\
  isAudioResumed s' = isAudioResumed s /\
  params s' = params s /\
  vco1_frequency s' = vco1_frequency s /\
  vco2_frequency s' = vco2_frequency s /\
  (forall e : KeyboardEvent, keyup e None s' = (s', [])).
Proof.
  intros s'.
  assert (pressedKeys s' = ∅) as Hkeys by reflexivity.
  assert (forall (n : Z) (now : num),
            let s1 := if gtb now (Fin 0) then releaseEnvelopes n now s else s in
            audioContext s1 = audioContext s /\
            isAudioInitialized s1 = isAudioInitialized s /\
            isAudioResumed s1 = isAudioResumed s /\
            params s1 = params s /\
            vco1_frequency s1 = vco1_frequency s /\
            vco2_frequency s1 = vco2_frequency s) as Hframe.
  { intros n now. destruct (gtb _ _); [|done].
    destruct (releaseEnvelopes_frame n now s)
      as (? & ? & ? & ? & ? & ? & _). done. }
  split; [unfold s', blur; destruct (currentNote s) eqn:E;
          [reflexivity | exact E]|].
  split; [done|].
  split; [unfold s', blur; destruct (currentNote s); [reflexivity|done]|].
  split; [unfold s', blur; intros ->; reflexivity|].
  split.
  { intros n ctx Hn Hctx Ht. unfold s', blur. rewrite Hn, Hctx.
    unfold gtb. cbn [ltb]. by destruct (Qlt_le_dec 0 (currentTime ctx)); [|lra]. }
  split.
  { intros H. unfold s', blur.
    destruct (currentNote s) as [n|] eqn:Hn; [|done].
    destruct H as [?|[H|(ctx & H & Ht)]]; [done| |]; rewrite H.
    - unfold gtb. cbn [ltb]. by destruct (Qlt_le_dec 0 0); [lra|].
    - unfold gtb. cbn [ltb].
      by destruct (Qlt_le_dec 0 (currentTime ctx)); [lra|]. }
  assert (audioContext s' = audioContext s /\
          isAudioInitialized s' = isAudioInitialized s /\
          isAudioResumed s' = isAudioResumed s /\
          params s' = params s /\
          vco1_frequency s' = vco1_frequency s /\
          vco2_frequency s' = vco2_frequency s) as (? & ? & ? & ? & ? & ?).
  { unfold s', blur. destruct (currentNote s) as [n|]; [|done].
    apply (Hframe n). }
  repeat (split; [done|]).
  intros e. unfold Synth.keyup.
  destruct (keyToNoteMap (code e)); [|done].
  rewrite Hkeys, lookup_empty.
  rewrite (bool_decide_eq_false_2 (None = Some true)) by done.
  by rewrite andb_false_r.
Qed.

End Listeners.

(** X9.  [ensureAudioContextResumed] returns [true] exactly when the
    context is running afterwards, and then the resumed flag is set; when
    it returns [false] the flag is cleared, except that without a context
    nothing is changed at all.  Nothing but the context state and the
    flag is ever modified. *)
Theorem X9_resume_result (r : ResumeOutcome) (s : State) :
  exists (b : bool) (s' : State) (log : list Msg),
    ensureAudioContextResumed r s = (b, s', log) /\
    (b = true <->
     exists ctx' : AudioContext,
       audioContext s' = Some ctx' /\ state ctx' = running) /\
    (b = true -> isAudioResumed s' = true) /\
    (b = false -> is_Some (audioContext s) -> isAudioResumed s' = false) /\
    (audioContext s = None -> s' = s) /\
    (forall ctx ctx' : AudioContext,
       audioContext s = Some ctx -> audioContext s' = Some ctx' ->
       sampleRate ctx' = sampleRate ctx /\
       currentTime ctx' = currentTime ctx) /\
    isAudioInitialized s' = isAudioInitialized s /\
    params s' = params s /\
    vco1_frequency s' = vco1_frequency s /\
    vco2_frequency s' = vco2_frequency s /\
    filter_frequency s' = filter_frequency s /\
    vcaGainNode_gain s' = vcaGainNode_gain s /\
    reverbWetGain_gain s' = reverbWetGain_gain s /\
    reverbDryGain_gain s' = reverbDryGain_gain s /\
    pressedKeys s' = pressedKeys s /\
    currentNote s' = currentNote s /\
    currentFrequency s' = currentFrequency s.
Proof.
  unfold ensureAudioContextResumed.
  destruct (audioContext s) as [ctx|] eqn:Hctx.
  - destruct (state ctx) eqn:Hst; [destruct r| |]; eexists _, _, _;
      (split; [reflexivity|]); cbn; rewrite ?Hctx.
    + split; [split; [intros _; by eexists | done]|].
      repeat match goal with |- _ /\ _ => split end;
        try done; by intros ? ? [= <-] [= <-].
    + split; [split; [done | intros (ctx' & [= <-] & Hrun); congruence]|].
      repeat match goal with |- _ /\ _ => split end;
        try done; by intros ? ? [= <-] [= <-].
    + split; [split; [done | intros (ctx' & [= <-] & Hrun); congruence]|].
      repeat match goal with |- _ /\ _ => split end;
        try done; by intros ? ? [= <-] [= <-].
    + split; [split; [intros _; by eexists | done]|].
      repeat match goal with |- _ /\ _ => split end;
        try done; by intros ? ? [= <-] [= <-].
    + split; [split; [done | intros (ctx' & [= <-] & Hrun); congruence]|].
      repeat match goal with |- _ /\ _ => split end;
        try done; by intros ? ? [= <-] [= <-].
  - eexists _, _, _. split; [reflexivity|]. rewrite Hctx.
    split; [split; [done | by intros (? & ? & _)]|].
    repeat match goal with |- _ /\ _ => split end; done.
Qed.

(** ** Envelope shapes *)

(** X10.  A trigger of the gate-gain envelope cancels what was scheduled,
    starts at 0.0001, ramps to full volume and then to the sustain level
    floored at 0.0001, so that the gate is never scheduled to 0 or below;
    the attack and the decay each last at least 0.001 s, so that the
    three scheduled times are strictly increasing whatever the attack and
    decay parameters (zero and negative values included). *)
Theorem X10_gate_envelope_trigger (ctx : AudioContext) (p : Params)
    (envParams : EnvParams) (target : AudioParam)
    (sustainLevel now : Q) (baseNote : Z) :
  exists (vs t1 t2 : Q) (target' : AudioParam),
    triggerEnvelope (Some ctx) p envParams (Some target) (Fin sustainLevel)
      (Fin now) false baseNote = Some target' /\
    value target' = value target /\
    scheduled target' =
    scheduled target ++
      [cancelScheduledValues (Fin now);
       setValueAtTime (Fin q0_0001) (Fin now);
       linearRampToValueAtTime (Fin 1) (Fin t1);
       linearRampToValueAtTime (Fin vs) (Fin t2)] /\
    (t1 == now + maxQ q0_001 (attack envParams))%Q /\
    (t2 == t1 + maxQ q0_001 (decay envParams))%Q /\
    (now < t1 < t2)%Q /\
    (q0_001 <= t1 - now)%Q /\ (q0_001 <= t2 - t1)%Q /\
    (vs == maxQ q0_0001 sustainLevel)%Q /\
    (0 < q0_0001 <= vs)%Q /\
    ((q0_0001 <= sustainLevel)%Q -> (vs == sustainLevel)%Q).
Proof.
  eexists _, _, _, _. split; [reflexivity|]. split; [reflexivity|].
  split. { simpl. rewrite <- !app_assoc. reflexivity. }
  destruct (maxQ_spec q0_001 (attack envParams)) as (Ha & _ & _).
  destruct (maxQ_spec q0_001 (decay envParams)) as (Hd & _ & _).
  destruct (maxQ_spec q0_0001 sustainLevel) as (Hs & _ & _).
  assert (0 < q0_001)%Q as H1 by reflexivity.
  assert (0 < q0_0001)%Q as H2 by reflexivity.
  split; [reflexivity|]. split; [reflexivity|].
  split; [lra|]. split; [lra|]. split; [lra|].
  split; [reflexivity|]. split; [lra|].
  intros Hge. unfold maxQ. destruct (Qlt_le_dec q0_0001 sustainLevel); lra.
Qed.

(** X11.  The release of the filter-cutoff envelope ramps back to the
    value at which a trigger with the same parameters and note starts:
    the cutoff base clamped to [[20, sampleRate / 2]], whatever the
    envelope depth, the sustain level and the envelope times; the ramp
    starts from the value the cutoff has at the time of the release. *)
Theorem X11_filter_release_returns_to_base (ctx : AudioContext) (p : Params)
    (envParams : EnvParams) (target1 target2 : AudioParam)
    (sustainLevel now1 now2 : Q) (note : Z) :
  (40 <= sampleRate ctx)%Q ->
  exists (base vb vp vs t1 t2 t3 : Q) (target1' target2' : AudioParam),
    triggerEnvelope (Some ctx) p envParams (Some target1) (Fin sustainLevel)
      (Fin now1) true note = Some target1' /\
    releaseEnvelope (Some ctx) p envParams (Some target2) (Fin now2)
      true note = Some target2' /\
    scheduled target1' =
    scheduled target1 ++
      [cancelScheduledValues (Fin now1);
       setValueAtTime (Fin vb) (Fin now1);
       linearRampToValueAtTime (Fin vp) (Fin t1);
       linearRampToValueAtTime (Fin vs) (Fin t2)] /\
    scheduled target2' =
    scheduled target2 ++
      [cancelScheduledValues (Fin now2);
       setValueAtTime (Fin (value target2)) (Fin now2);
       linearRampToValueAtTime (Fin vb) (Fin t3)] /\
    (base == maxQ 20 (spec_base p note))%Q /\
    (vb == clampQ 20 (sampleRate ctx / 2) base)%Q /\
    (20 <= vb <= sampleRate ctx / 2)%Q /\
    (t3 == now2 + maxQ q0_001 (release envParams))%Q /\
    (now2 < t3)%Q.
Proof.
  intros Hsr.
  assert (20 <= sampleRate ctx / 2)%Q as Hnyq
    by (apply Qle_shift_div_l; lra).
  destruct (baseFreqWithKeyFollow_Fin p note) as (base & Hbase & Hspec).
  unfold triggerEnvelope, releaseEnvelope. rewrite Hbase, nyquist_Fin.
  cbn [mul add Math_max Math_min].
  exists base. eexists _, _, _, _, _, _, _, _.
  split; [reflexivity|]. split; [reflexivity|].
  split. { simpl. rewrite <- !app_assoc. reflexivity. }
  split. { simpl. rewrite <- !app_assoc. reflexivity. }
  pose proof (min_max_clamp 20 (sampleRate ctx / 2) base Hnyq) as H1.
  destruct (maxQ_spec q0_001 (release envParams)) as (Hr & _ & _).
  assert (0 < q0_001)%Q as H0 by reflexivity.
  split; [done|]. split; [done|].
  split; [rewrite H1; by apply clampQ_range|].
  split; [reflexivity | lra].
Qed.

Section Voice.

Variable Math_pow : Q -> Q -> Q.

Local Abbreviation midiToFreq := (Synth.midiToFreq Math_pow).
Local Abbreviation keydown := (Synth.keydown Math_pow).
Local Abbreviation keyup := (Synth.keyup Math_pow).
Local Abbreviation handle := (Synth.handle Math_pow).
Local Abbreviation run := (Synth.run Math_pow).

(** X12.  Last-note priority on key-down: in any state reached from the
    loaded page, a fresh note key (no modifier, no auto-repeat, not
    already held) pressed while the engine is resumed, or while it is
    initialized and the listener's resume attempt brings it to running,
    always takes the voice: it becomes the sounding note whatever note was
    sounding before, [currentFrequency] is its frequency, and the key is
    marked as held. *)
Theorem X12_fresh_key_takes_the_voice (evs : list Event) (p : Params)
    (e : KeyboardEvent) (note : Z) (r : ResumeOutcome) :
  let s := (run evs (loaded p)).1 in
  metaKey e = false -> ctrlKey e = false -> altKey e = false ->
  repeat e = false ->
  keyToNoteMap (code e) = Some note ->
  pressedKeys s !! code e <> Some true ->
  (isAudioResumed s = true \/
   isAudioInitialized s = true /\
   exists ctx : AudioContext,
     audioContext s = Some ctx /\
     (state ctx = running \/ state ctx = suspended /\ r = resume_running)) ->
  exists (s' : State) (log : list Msg),
    keydown e no_knob_arrow r s = (s', log) /\
    currentNote s' = Some note /\
    currentFrequency s' = Fin (midiToFreq note) /\
    pressedKeys s' = <[code e := true]> (pressedKeys s) /\
    isAudioResumed s' = true.
Proof.
  intros s Hm Hc Ha Hrep Hnote Hfresh Hready.
  destruct (loaded_ok p) as [He0 Hv0].
  destruct (run_ok Math_pow evs (loaded p) He0 Hv0) as [He _].
  fold s in He. destruct He as (He_r & He_i & _).
  pose proof (keyToNoteMap_range _ _ Hnote) as Hrange.
  unfold Synth.keydown. rewrite Hm, Hc, Ha, Hnote, Hrep. cbn [orb].
  rewrite (bool_decide_eq_false_2 (note = 0%Z)) by lia.
  rewrite (bool_decide_eq_false_2 _ Hfresh). cbn [orb].
  destruct (isAudioResumed s) eqn:Hres.
  - (* the engine is already resumed *)
    cbn [negb andb].
    destruct (He_r eq_refl) as (Hinit & ctx & Hctx & Hrun).
    destruct (He_i Hinit) as (_ & Hf1 & Hf2 & _).
    set (s2 := set_pressedKeys (<[code e := true]> (pressedKeys s)) s).
    destruct (noteOn_running note (Fin (midiToFreq note)) s2 ctx
                Hctx Hrun Hf1 Hf2)
      as (s' & log & -> & Hn & Hfr & _ & _ & Hr' & _ & _ & _ & _ & _ & _ & Hk).
    exists s', ([] ++ log). split; [done|].
    split; [done|]. split; [done|]. split; [done|].
    by rewrite Hr'.
  - (* the listener resumes the engine first *)
    destruct Hready as [?|(Hinit & ctx & Hctx & Hst)]; [done|].
    rewrite Hinit. cbn [negb andb].
    destruct (He_i Hinit) as (_ & Hf1 & Hf2 & _).
    unfold ensureAudioContextResumed. rewrite Hctx.
    destruct Hst as [Hrun|[Hsus ->]].
    + rewrite Hrun.
      set (s2 := set_pressedKeys _ _).
      destruct (noteOn_running note (Fin (midiToFreq note)) s2 ctx
                  Hctx Hrun Hf1 Hf2)
        as (s' & log & -> & Hn & Hfr & _ & _ & Hr' & _ & _ & _ & _ & _ & _ & Hk).
      exists s', ([] ++ log). split; [done|].
      split; [done|]. split; [done|]. split; [done|].
      by rewrite Hr'.
    + rewrite Hsus.
      set (s2 := set_pressedKeys _ _).
      destruct (noteOn_running note (Fin (midiToFreq note)) s2
                  (set_context_state running ctx) eq_refl eq_refl Hf1 Hf2)
        as (s' & log & -> & Hn & Hfr & _ & _ & Hr' & _ & _ & _ & _ & _ & _ & Hk).
      eexists s', _. split; [done|].
      split; [done|]. split; [done|]. split; [done|].
      by rewrite Hr'.
Qed.

End Voice.

(** ** Invariants of the pitch bookkeeping and of the oscillators *)

Import SynthSpec.

(** Whatever the base frequency and the octave parameter, the frequency
    computed for an oscillator is a finite number of
    [[20, sampleRate / 2]] as soon as 440 is one. *)
Lemma calculateVcoFrequency_within (ctx : AudioContext) (baseFreq : num)
    (vcoParams : VcoParams) :
  (880 <= sampleRate ctx)%Q ->
  exists q : Q,
    (calculateVcoFrequency ctx baseFreq vcoParams).1.1 = Fin q /\
    (20 <= q <= sampleRate ctx / 2)%Q.
Proof.
  intros Hsr.
  assert (440 <= sampleRate ctx / 2)%Q as Hnyq
    by (apply Qle_shift_div_l; lra).
  unfold calculateVcoFrequency. rewrite nyquist_Fin.
  destruct (octave_invalid (octave vcoParams)).
  - destruct (baseFreq * octaveMultipliers_at (JNumber (Fin 2)))%num as [y| | |];
      cbn [Math_min Math_max isFinite negb fst snd].
    + eexists. split; [reflexivity|].
      destruct (maxQ_spec 20 (minQ (sampleRate ctx / 2) y)) as (? & ? & _).
      destruct (minQ_spec (sampleRate ctx / 2) y) as (? & ? & _).
      unfold maxQ in *. destruct (Qlt_le_dec 20 _); lra.
    + eexists. split; [reflexivity|].
      unfold maxQ. destruct (Qlt_le_dec 20 _); lra.
    + eexists. split; [reflexivity|]. lra.
    + eexists. split; [reflexivity|]. lra.
  - destruct (baseFreq * octaveMultipliers_at (octave vcoParams))%num as [y| | |];
      cbn [Math_min Math_max isFinite negb fst snd].
    + eexists. split; [reflexivity|].
      destruct (maxQ_spec 20 (minQ (sampleRate ctx / 2) y)) as (? & ? & _).
      destruct (minQ_spec (sampleRate ctx / 2) y) as (? & ? & _).
      unfold maxQ in *. destruct (Qlt_le_dec 20 _); lra.
    + eexists. split; [reflexivity|].
      unfold maxQ. destruct (Qlt_le_dec 20 _); lra.
    + eexists. split; [reflexivity|]. lra.
    + eexists. split; [reflexivity|]. lra.
Qed.

(** The two calls a pitch change makes on each oscillator frequency. *)
Lemma set_pitch_calls (portamento now target1 target2 : num)
    (f1 f2 : AudioParam) (s : State) :
  exists a1 a2 : Automation,
    set_pitch portamento now target1 target2 f1 f2 s =
    set_vco_frequencies
      (Some (call a1 (call (cancelScheduledValues now) f1)))
      (Some (call a2 (call (cancelScheduledValues now) f2))) s /\
    (a1 = setValueAtTime target1 now \/
     exists tc : num, a1 = setTargetAtTime target1 now tc) /\
    (a2 = setValueAtTime target2 now \/
     exists tc : num, a2 = setTargetAtTime target2 now tc).
Proof.
  unfold set_pitch. destruct (gtb portamento (Fin 0)); eexists _, _;
    (split; [reflexivity|]); split; (by left) || (right; by eexists).
Qed.

(** What a call of [noteOn] does to the voice, the context and the
    oscillators: nothing (the guard), or the note takes the voice and both
    oscillator frequencies receive a cancellation and one call whose value
    is the computed target. *)
Lemma noteOn_effect (note : Z) (freq : num) (s : State) :
  exists (s' : State) (log : list Msg),
    noteOn note freq s = (s', log) /\
    audioContext s' = audioContext s /\
    ((currentNote s' = currentNote s /\
      currentFrequency s' = currentFrequency s /\
      vco1_frequency s' = vco1_frequency s /\
      vco2_frequency s' = vco2_frequency s) \/
     (exists (ctx : AudioContext) (f1 f2 : AudioParam) (a1 a2 : Automation),
        let now := Fin (currentTime ctx) in
        let target1 := (calculateVcoFrequency ctx freq (vco1 (params s))).1.1 in
        let target2 := (calculateVcoFrequency ctx freq (vco2 (params s))).1.1 in
        audioContext s = Some ctx /\
        vco1_frequency s = Some f1 /\ vco2_frequency s = Some f2 /\
        currentNote s' = Some note /\ currentFrequency s' = freq /\
        vco1_frequency s' =
          Some (call a1 (call (cancelScheduledValues now) f1)) /\
        vco2_frequency s' =
          Some (call a2 (call (cancelScheduledValues now) f2)) /\
        (a1 = setValueAtTime target1 now \/
         exists tc : num, a1 = setTargetAtTime target1 now tc) /\
        (a2 = setValueAtTime target2 now \/
         exists tc : num, a2 = setTargetAtTime target2 now tc))).
Proof.
  unfold noteOn.
  destruct (audioContext s) as [ctx|] eqn:Hctx;
    [|eexists _, _; split; [reflexivity|]; split; [done|]; by left].
  destruct (vco1_frequency s) as [f1|] eqn:Hf1;
    [|eexists _, _; split; [reflexivity|]; split; [done|]; by left].
  destruct (vco2_frequency s) as [f2|] eqn:Hf2;
    [|eexists _, _; split; [reflexivity|]; split; [done|]; by left].
  destruct (negb (ContextState_eqb (state ctx) running));
    [eexists _, _; split; [reflexivity|]; split; [done|]; by left|].
  destruct (calculateVcoFrequency ctx freq (vco1 (params s)))
    as [[t1 v1] log1] eqn:E1.
  destruct (calculateVcoFrequency ctx freq (vco2 (params s)))
    as [[t2 v2] log2] eqn:E2.
  cbn [fst snd set_params currentNote].
  set (p' := set_vco2 v2 (set_vco1 v1 (params s))).
  set (s2 := set_voice (Some note) freq (set_params p' s)).
  assert (forall portamento : num,
            exists (s3 : State) (a1 a2 : Automation),
              set_pitch portamento (Fin (currentTime ctx)) t1 t2 f1 f2 s2 = s3 /\
              audioContext s3 = Some ctx /\
              currentNote s3 = Some note /\ currentFrequency s3 = freq /\
              vco1_frequency s3 =
                Some (call a1 (call (cancelScheduledValues
                                       (Fin (currentTime ctx))) f1)) /\
              vco2_frequency s3 =
                Some (call a2 (call (cancelScheduledValues
                                       (Fin (currentTime ctx))) f2)) /\
              (a1 = setValueAtTime t1 (Fin (currentTime ctx)) \/
               exists tc : num,
                 a1 = setTargetAtTime t1 (Fin (currentTime ctx)) tc) /\
              (a2 = setValueAtTime t2 (Fin (currentTime ctx)) \/
               exists tc : num,
                 a2 = setTargetAtTime t2 (Fin (currentTime ctx)) tc))
    as Hpitch.
  { intros portamento.
    destruct (set_pitch_calls portamento (Fin (currentTime ctx)) t1 t2 f1 f2 s2)
      as (a1 & a2 & -> & H1 & H2).
    eexists _, a1, a2. split; [reflexivity|]. by repeat split. }
  assert (forall s3 : State,
            let s4 := triggerEnvelopes note (Fin (currentTime ctx)) s3 in
            audioContext s4 = audioContext s3 /\
            currentNote s4 = currentNote s3 /\
            currentFrequency s4 = currentFrequency s3 /\
            vco1_frequency s4 = vco1_frequency s3 /\
            vco2_frequency s4 = vco2_frequency s3) as Htrig.
  { intros s3 s4.
    destruct (triggerEnvelopes_frame note (Fin (currentTime ctx)) s3)
      as (Ha & _ & _ & _ & Hb & Hc & _ & _ & _ & _ & _ & Hd & He). done. }
  destruct (currentNote s) as [prev|] eqn:Hn.
  - destruct (Hpitch (portamento_of (params s)))
      as (s3 & a1 & a2 & -> & H1 & H2 & H3 & H4 & H5 & H6 & H7).
    destruct (ltb _ _).
    + destruct (Htrig s3) as (Ha & Hb & Hc & Hd & He).
      eexists _, _. split; [reflexivity|]. split; [by rewrite Ha|].
      right. exists ctx, f1, f2, a1, a2. cbv zeta.
      rewrite Hb, Hc, Hd, He, E1, E2. done.
    + eexists _, _. split; [reflexivity|]. split; [done|].
      right. exists ctx, f1, f2, a1, a2. cbv zeta. rewrite E1, E2. done.
  - destruct (Hpitch (Fin 0))
      as (s3 & a1 & a2 & -> & H1 & H2 & H3 & H4 & H5 & H6 & H7).
    destruct (Htrig s3) as (Ha & Hb & Hc & Hd & He).
    eexists _, _. split; [reflexivity|]. split; [by rewrite Ha|].
    right. exists ctx, f1, f2, a1, a2. cbv zeta.
    rewrite Hb, Hc, Hd, He, E1, E2. done.
Qed.

(** What an octave control does to the voice, the context and the
    oscillators: it leaves them as they are, or, while a note is
    sounding on an engine that accepts updates, it appends one call to
    the frequency of its oscillator, whose value is the pitch computed
    again from [currentFrequency]. *)
Lemma updateOctave_effect (path : OctavePath) (v : jsval) (force : bool)
    (s : State) :
  exists (s' : State) (log : list Msg),
    updateOctave path v force s = (s', log) /\
    audioContext s' = audioContext s /\
    currentNote s' = currentNote s /\
    currentFrequency s' = currentFrequency s /\
    ((vco1_frequency s' = vco1_frequency s /\
      vco2_frequency s' = vco2_frequency s) \/
     (exists (ctx : AudioContext) (f : AudioParam) (vcoParams : VcoParams)
             (n : Z),
        let a :=
          setTargetAtTime
            (calculateVcoFrequency ctx (currentFrequency s) vcoParams).1.1
            (Fin (currentTime ctx)) (Fin q0_010 * Fin 2)%num in
        audioContext s = Some ctx /\ currentNote s = Some n /\
        ((vco1_frequency s = Some f /\
          vco1_frequency s' = Some (call a f) /\
          vco2_frequency s' = vco2_frequency s) \/
         (vco2_frequency s = Some f /\
          vco2_frequency s' = Some (call a f) /\
          vco1_frequency s' = vco1_frequency s)))).
Proof.
  unfold updateOctave.
  cbn [set_params audioContext isAudioInitialized isAudioResumed
       currentNote vco1_frequency vco2_frequency currentFrequency params].
  destruct (audioContext s) as [ctx|] eqn:Hctx;
    [|eexists _, _; split; [reflexivity|]; cbn; rewrite ?Hctx;
      do 3 (split; [done|]); by left].
  destruct (isAudioInitialized s && (isAudioResumed s || force));
    [|eexists _, _; split; [reflexivity|]; cbn; rewrite ?Hctx;
      do 3 (split; [done|]); by left].
  destruct (currentNote s) as [n|] eqn:Hn;
    [|eexists _, _; split; [reflexivity|]; cbn; rewrite ?Hctx, ?Hn;
      do 3 (split; [done|]); by left].
  destruct path.
  - destruct (vco1_frequency s) as [f1|] eqn:Hf1;
      [|eexists _, _; split; [reflexivity|]; cbn; rewrite ?Hctx, ?Hn, ?Hf1;
        do 3 (split; [done|]); by left].
    destruct (calculateVcoFrequency ctx (currentFrequency s) _)
      as [[newFreq v1] log] eqn:E.
    eexists _, _. split; [reflexivity|]. cbn. rewrite Hctx, Hn.
    do 3 (split; [done|]). right.
    eexists ctx, f1, _, n. rewrite E. cbn. split; [done|]. split; [done|].
    left. by rewrite ?Hf1.
  - destruct (vco2_frequency s) as [f2|] eqn:Hf2;
      [|eexists _, _; split; [reflexivity|]; cbn; rewrite ?Hctx, ?Hn, ?Hf2;
        do 3 (split; [done|]); by left].
    destruct (calculateVcoFrequency ctx (currentFrequency s) _)
      as [[newFreq v2] log] eqn:E.
    eexists _, _. split; [reflexivity|]. cbn. rewrite Hctx, Hn.
    do 3 (split; [done|]). right.
    eexists ctx, f2, _, n. rewrite E. cbn. split; [done|]. split; [done|].
    right. by rewrite ?Hf2.
Qed.

Section Invariants.

Variable Math_pow : Q -> Q -> Q.

Local Abbreviation midiToFreq := (Synth.midiToFreq Math_pow).
Local Abbreviation noteOff := (Synth.noteOff Math_pow).
Local Abbreviation keydown := (Synth.keydown Math_pow).
Local Abbreviation keyup := (Synth.keyup Math_pow).
Local Abbreviation handle := (Synth.handle Math_pow).
Local Abbreviation run := (Synth.run Math_pow).
Local Abbreviation pitch_ok := (SynthSpec.pitch_ok Math_pow).

(** What a call of [noteOff] does to the voice, the context and the
    oscillators: nothing, or the voice falls silent, or it moves to a held
    note of the note map. *)
Lemma noteOff_effect (note : Z) (s : State) :
  exists (s' : State) (log : list Msg),
    noteOff note s = (s', log) /\
    audioContext s' = audioContext s /\
    ((currentNote s' = currentNote s /\
      currentFrequency s' = currentFrequency s /\
      vco1_frequency s' = vco1_frequency s /\
      vco2_frequency s' = vco2_frequency s) \/
     (currentNote s' = None /\ currentFrequency s' = Fin 0 /\
      vco1_frequency s' = vco1_frequency s /\
      vco2_frequency s' = vco2_frequency s) \/
     (exists (ctx : AudioContext) (f1 f2 : AudioParam) (a1 a2 : Automation)
             (m : Z) (c : string),
        let now := Fin (currentTime ctx) in
        let target1 :=
          (calculateVcoFrequency ctx (Fin (midiToFreq m))
             (vco1 (params s))).1.1 in
        let target2 :=
          (calculateVcoFrequency ctx (Fin (midiToFreq m))
             (vco2 (params s))).1.1 in
        keyToNoteMap c = Some m /\
        audioContext s = Some ctx /\
        vco1_frequency s = Some f1 /\ vco2_frequency s = Some f2 /\
        currentNote s' = Some m /\
        currentFrequency s' = Fin (midiToFreq m) /\
        vco1_frequency s' =
          Some (call a1 (call (cancelScheduledValues now) f1)) /\
        vco2_frequency s' =
          Some (call a2 (call (cancelScheduledValues now) f2)) /\
        (a1 = setValueAtTime target1 now \/
         exists tc : num, a1 = setTargetAtTime target1 now tc) /\
        (a2 = setValueAtTime target2 now \/
         exists tc : num, a2 = setTargetAtTime target2 now tc))).
Proof.
  unfold Synth.noteOff.
  destruct (currentNote s) as [current|] eqn:Hn;
    [|eexists _, _; split; [reflexivity|]; split; [done|]; by left].
  destruct (vco1_frequency s) as [f1|] eqn:Hf1;
    [|eexists _, _; split; [reflexivity|]; split; [done|]; by left].
  destruct (vco2_frequency s) as [f2|] eqn:Hf2;
    [|eexists _, _; split; [reflexivity|]; split; [done|]; by left].
  destruct (negb (isAudioInitialized s) || negb (isAudioResumed s));
    [eexists _, _; split; [reflexivity|]; split; [done|]; by left|].
  destruct (negb (bool_decide (note = current)));
    [eexists _, _; split; [reflexivity|]; split; [done|]; by left|].
  destruct (audioContext s) as [ctx|] eqn:Hctx;
    [|eexists _, _; split; [reflexivity|]; split; [done|]; by left].
  destruct (remainingHeldCodes (pressedKeys s)) as [|c0 rest] eqn:E.
  - destruct (releaseEnvelopes_frame current (Fin (currentTime ctx)) s)
      as (Ha & _ & _ & _ & Hb & Hc & _).
    eexists _, _. split; [reflexivity|].
    split; [cbn [set_voice audioContext]; by rewrite Ha, Hctx|].
    right. left. cbn [set_voice currentNote currentFrequency
                      vco1_frequency vco2_frequency].
    by rewrite Hb, Hc, Hf1, Hf2.
  - destruct (lastNote_of_highest Math_pow (c0 :: rest) ltac:(done))
      as (m & c & Hlast & Hc & Hm & _).
    { intros c Hc. rewrite <- E in Hc.
      by apply elem_of_remainingHeldCodes in Hc as [_ ?]. }
    rewrite Hlast.
    destruct (calculateVcoFrequency ctx (Fin (midiToFreq m)) (vco1 (params s)))
      as [[t1 v1] log1] eqn:E1.
    destruct (calculateVcoFrequency ctx (Fin (midiToFreq m)) (vco2 (params s)))
      as [[t2 v2] log2] eqn:E2.
    destruct (set_pitch_calls (portamento_of (params s))
                (Fin (currentTime ctx)) t1 t2 f1 f2
                (set_voice (Some m) (Fin (midiToFreq m))
                   (set_params (set_vco2 v2 (set_vco1 v1 (params s))) s)))
      as (a1 & a2 & -> & H1 & H2).
    eexists _, _. split; [reflexivity|].
    split; [cbn; by rewrite Hctx|].
    right. right. exists ctx, f1, f2, a1, a2, m, c. cbv zeta.
    rewrite E1, E2. done.
Qed.

Lemma pitch_ok_frame (s s' : State) :
  currentNote s' = currentNote s ->
  currentFrequency s' = currentFrequency s ->
  pitch_ok s -> pitch_ok s'.
Proof. unfold SynthSpec.pitch_ok. by intros -> ->. Qed.

Lemma ensureAudioContextResumed_frame (r : ResumeOutcome) (s : State) :
  let s' := (ensureAudioContextResumed r s).1.2 in
  (forall ctx' : AudioContext,
     audioContext s' = Some ctx' ->
     exists ctx : AudioContext,
       audioContext s = Some ctx /\ sampleRate ctx' = sampleRate ctx) /\
  vco1_frequency s' = vco1_frequency s /\
  vco2_frequency s' = vco2_frequency s /\
  currentNote s' = currentNote s /\
  currentFrequency s' = currentFrequency s /\
  pressedKeys s' = pressedKeys s.
Proof.
  unfold ensureAudioContextResumed.
  destruct (audioContext s) as [ctx|] eqn:Hctx.
  - destruct (state ctx); [destruct r| |]; cbn; rewrite ?Hctx;
      (split; [intros ctx' [= <-]; by exists ctx|done]).
  - cbn. rewrite Hctx. done.
Qed.

Lemma initAudio_frame (o : InitOutcome) (s : State) :
  let s' := (initAudio o s).1 in
  currentNote s' = currentNote s /\
  currentFrequency s' = currentFrequency s /\
  pressedKeys s' = pressedKeys s /\
  ((audioContext s' = audioContext s /\
    vco1_frequency s' = vco1_frequency s /\
    vco2_frequency s' = vco2_frequency s) \/
   (exists ctx : AudioContext,
      o = init_ok ctx /\ audioContext s' = Some ctx /\
      vco1_frequency s' = Some (new_param 440) /\
      vco2_frequency s' = Some (new_param 440))).
Proof.
  unfold initAudio. destruct (isAudioInitialized s); [by repeat split; left|].
  destruct o as [|ctx]; cbn; repeat split; try done; [by left|].
  right. by exists ctx.
Qed.

(** *** Properties kept by every listener

    A property of the context, of the oscillator frequencies and of the
    voice that is kept by the four kinds of change the handlers make is
    kept by every event. *)

Section Preservation.

Variable P : State -> Prop.
Variable R : AudioContext -> Prop.

(** Nothing changes but, possibly, the state of the context. *)
Hypothesis P_frame : forall s s' : State,
  (forall ctx' : AudioContext,
     audioContext s' = Some ctx' ->
     exists ctx : AudioContext,
       audioContext s = Some ctx /\ sampleRate ctx' = sampleRate ctx) ->
  vco1_frequency s' = vco1_frequency s ->
  vco2_frequency s' = vco2_frequency s ->
  currentNote s' = currentNote s ->
  currentFrequency s' = currentFrequency s ->
  P s -> P s'.

(** The graph is built on a new context. *)
Hypothesis P_init : forall (s s' : State) (ctx : AudioContext),
  R ctx -> audioContext s' = Some ctx ->
  vco1_frequency s' = Some (new_param 440) ->
  vco2_frequency s' = Some (new_param 440) ->
  currentNote s' = currentNote s ->
  currentFrequency s' = currentFrequency s ->
  P s -> P s'.

(** The voice falls silent. *)
Hypothesis P_silent : forall s s' : State,
  audioContext s' = audioContext s ->
  vco1_frequency s' = vco1_frequency s ->
  vco2_frequency s' = vco2_frequency s ->
  currentNote s' = None -> currentFrequency s' = Fin 0 ->
  P s -> P s'.

(** A note of the note map takes the voice. *)
Hypothesis P_note : forall (s s' : State) (ctx : AudioContext)
    (f1 f2 : AudioParam) (a1 a2 : Automation) (m : Z) (c : string)
    (v1 v2 : VcoParams),
  let now := Fin (currentTime ctx) in
  let target1 :=
    (calculateVcoFrequency ctx (Fin (midiToFreq m)) v1).1.1 in
  let target2 :=
    (calculateVcoFrequency ctx (Fin (midiToFreq m)) v2).1.1 in
  keyToNoteMap c = Some m ->
  audioContext s = Some ctx -> audioContext s' = Some ctx ->
  vco1_frequency s = Some f1 -> vco2_frequency s = Some f2 ->
  currentNote s' = Some m ->
  currentFrequency s' = Fin (midiToFreq m) ->
  vco1_frequency s' = Some (call a1 (call (cancelScheduledValues now) f1)) ->
  vco2_frequency s' = Some (call a2 (call (cancelScheduledValues now) f2)) ->
  (a1 = setValueAtTime target1 now \/
   exists tc : num, a1 = setTargetAtTime target1 now tc) ->
  (a2 = setValueAtTime target2 now \/
   exists tc : num, a2 = setTargetAtTime target2 now tc) ->
  P s -> P s'.

(** The pitch of one oscillator is computed again for the sounding
    note. *)
Hypothesis P_retune : forall (s s' : State) (ctx : AudioContext)
    (f : AudioParam) (v : VcoParams) (tc : num) (n : Z),
  let a :=
    setTargetAtTime (calculateVcoFrequency ctx (currentFrequency s) v).1.1
      (Fin (currentTime ctx)) tc in
  audioContext s = Some ctx -> audioContext s' = Some ctx ->
  currentNote s = Some n ->
  currentNote s' = currentNote s ->
  currentFrequency s' = currentFrequency s ->
  (vco1_frequency s = Some f /\ vco1_frequency s' = Some (call a f) /\
   vco2_frequency s' = vco2_frequency s) \/
  (vco2_frequency s = Some f /\ vco2_frequency s' = Some (call a f) /\
   vco1_frequency s' = vco1_frequency s) ->
  P s -> P s'.

Lemma P_same (s s' : State) :
  audioContext s' = audioContext s ->
  vco1_frequency s' = vco1_frequency s ->
  vco2_frequency s' = vco2_frequency s ->
  currentNote s' = currentNote s ->
  currentFrequency s' = currentFrequency s ->
  P s -> P s'.
Proof.
  intros Hc. apply P_frame. intros ctx' H. exists ctx'. by rewrite <- Hc.
Qed.

Lemma updateParameter_keeps (u : ControlUpdate) (force : bool) (s : State) :
  P s -> P (updateParameter u force s).
Proof.
  destruct (updateParameter_frame u force s)
    as (? & _ & _ & ? & ? & _ & _ & _ & ? & ?).
  by apply P_same.
Qed.

Lemma updateAll_keeps (controls : list ControlUpdate) (force : bool)
    (s : State) :
  P s -> P (updateAll controls force s).
Proof.
  destruct (updateAll_frame controls force s)
    as (? & _ & _ & ? & ? & _ & _ & _ & ? & ?).
  by apply P_same.
Qed.

Lemma updateOctave_keeps (path : OctavePath) (v : jsval) (force : bool)
    (s : State) :
  P s -> P (updateOctave path v force s).1.
Proof.
  destruct (updateOctave_effect path v force s)
    as (s' & log & -> & Hctx & Hn & Hf & [[H1 H2]|H]); cbn [fst].
  - by apply P_same.
  - destruct H as (ctx & f & vcoParams & n & H). cbv zeta in H.
    destruct H as (Hc & Hsome & H).
    apply (P_retune s s' ctx f vcoParams (Fin q0_010 * Fin 2)%num n);
      try done. congruence.
Qed.

Lemma ensureAudioContextResumed_keeps (r : ResumeOutcome) (s : State) :
  P s -> P (ensureAudioContextResumed r s).1.2.
Proof.
  destruct (ensureAudioContextResumed_frame r s) as (? & ? & ? & ? & ? & _).
  by apply P_frame.
Qed.

Lemma initAudio_keeps (o : InitOutcome) (s : State) :
  match o with init_ok ctx => R ctx | init_throws => True end ->
  P s -> P (initAudio o s).1.
Proof.
  intros HR.
  destruct (initAudio_frame o s) as (? & ? & _ & [(? & ? & ?)|(ctx & -> & ? & ? & ?)]).
  - by apply P_same.
  - by apply (P_init s _ ctx).
Qed.

Lemma set_pressedKeys_keeps (k : gmap string bool) (s : State) :
  P s -> P (set_pressedKeys k s).
Proof. by apply P_same. Qed.

Lemma noteOn_keeps (note : Z) (c : string) (s : State) :
  keyToNoteMap c = Some note ->
  P s -> P (noteOn note (Fin (midiToFreq note)) s).1.
Proof.
  intros Hc.
  destruct (noteOn_effect note (Fin (midiToFreq note)) s)
    as (s' & log & -> & Hctx & [(? & ? & ? & ?)|H]); cbn [fst].
  - by apply P_same.
  - destruct H as (ctx & f1 & f2 & a1 & a2 & H). cbv zeta in H.
    destruct H as (? & ? & ? & ? & ? & ? & ? & ? & ?).
    apply (P_note s s' ctx f1 f2 a1 a2 note c
             (vco1 (params s)) (vco2 (params s))); try done. congruence.
Qed.

Lemma noteOff_keeps (note : Z) (s : State) :
  P s -> P (noteOff note s).1.
Proof.
  destruct (noteOff_effect note s)
    as (s' & log & -> & Hctx & [(? & ? & ? & ?)|[(? & ? & ? & ?)|H]]);
    cbn [fst].
  - by apply P_same.
  - by apply P_silent.
  - destruct H as (ctx & f1 & f2 & a1 & a2 & m & c & H). cbv zeta in H.
    destruct H as (? & ? & ? & ? & ? & ? & ? & ? & ? & ?).
    apply (P_note s s' ctx f1 f2 a1 a2 m c
             (vco1 (params s)) (vco2 (params s))); try done. congruence.
Qed.

Lemma blur_keeps (s : State) : P s -> P (blur s).
Proof.
  intros HP. unfold blur. apply set_pressedKeys_keeps.
  destruct (currentNote s) as [n|] eqn:Hn; [|done].
  destruct (gtb _ _).
  - destruct (releaseEnvelopes_frame n
                match audioContext s with
                | Some ctx => Fin (currentTime ctx)
                | None => Fin 0
                end s)
      as (Ha & _ & _ & _ & Hb & Hc & _).
    apply (P_silent s); try done; cbn; by rewrite ?Ha, ?Hb, ?Hc.
  - by apply (P_silent s).
Qed.

Lemma keydown_keeps (e : KeyboardEvent) (arrow : KnobArrow)
    (r : ResumeOutcome) (s : State) :
  P s -> P (keydown e arrow r s).1.
Proof.
  intros HP. unfold Synth.keydown.
  destruct arrow as [| |u]; [|done|by apply updateParameter_keeps].
  destruct (metaKey e || ctrlKey e || altKey e); [done|].
  destruct (keyToNoteMap (code e)) as [note|] eqn:Hn; [|done].
  destruct (_ || _ || _); [done|].
  destruct (negb (isAudioResumed s) && isAudioInitialized s).
  - pose proof (ensureAudioContextResumed_keeps r s HP) as H1.
    destruct (ensureAudioContextResumed r s) as [[canPlay s1] log].
    cbn [fst snd] in H1.
    destruct canPlay.
    + pose proof (noteOn_keeps note (code e) _ Hn
                    (set_pressedKeys_keeps
                       (<[code e := true]> (pressedKeys s1)) s1 H1)) as H2.
      by destruct (noteOn _ _ _).
    + by destruct (isAudioInitialized s1).
  - destruct (isAudioResumed s).
    + pose proof (noteOn_keeps note (code e) _ Hn
                    (set_pressedKeys_keeps
                       (<[code e := true]> (pressedKeys s)) s HP)) as H2.
      by destruct (noteOn _ _ _).
    + by destruct (isAudioInitialized s).
Qed.

Lemma keyup_keeps (e : KeyboardEvent) (shiftRestart : option ControlUpdate)
    (s : State) :
  P s -> P (keyup e shiftRestart s).1.
Proof.
  intros HP. unfold Synth.keyup.
  assert (P match shiftRestart with
            | Some u => updateParameter u false s
            | None => s
            end) as H0
    by (destruct shiftRestart; [by apply updateParameter_keeps | done]).
  destruct (keyToNoteMap (code e)) as [note|]; [|done].
  destruct (_ && _); [|done].
  apply noteOff_keeps. by apply set_pressedKeys_keeps.
Qed.

Lemma click_keeps (r : ResumeOutcome) (s : State) : P s -> P (click r s).1.
Proof.
  intros HP. unfold click. destruct (_ && _); [|done].
  pose proof (ensureAudioContextResumed_keeps r s HP) as H1.
  by destruct (ensureAudioContextResumed r s) as [[b s1] log].
Qed.

Lemma powerButton_keeps (o : InitOutcome) (controls : list ControlUpdate)
    (r : ResumeOutcome) (s : State) :
  match o with init_ok ctx => R ctx | init_throws => True end ->
  P s -> P (powerButton o controls r s).1.
Proof.
  intros HR HP. unfold powerButton.
  destruct (negb (isAudioInitialized s)).
  - pose proof (initAudio_keeps o s HR HP) as H1.
    destruct (initAudio o s) as [s1 log1]. cbn [fst] in H1.
    pose proof (updateAll_keeps controls true s1 H1) as H2.
    destruct (audioContext (updateAll controls true s1)) as [ctx|]; [|done].
    destruct (ContextState_eqb (state ctx) suspended); [|done].
    pose proof (ensureAudioContextResumed_keeps r _ H2) as H3.
    by destruct (ensureAudioContextResumed r _) as [[b s3] log3].
  - pose proof (ensureAudioContextResumed_keeps r s HP) as H1.
    by destruct (ensureAudioContextResumed r s) as [[b s1] log].
Qed.

Lemma handle_keeps (ev : Event) (s : State) :
  match created_context ev with Some ctx => R ctx | None => True end ->
  P s -> P (handle ev s).1.
Proof.
  intros HR HP.
  destruct ev as [controls o|o controls r|r|u|e arrow r|e sr| |path v];
    cbn [Synth.handle].
  - unfold domContentLoaded. apply initAudio_keeps.
    + by destruct o.
    + by apply updateAll_keeps.
  - apply powerButton_keeps; [by destruct o | done].
  - by apply click_keeps.
  - by apply updateParameter_keeps.
  - by apply keydown_keeps.
  - by apply keyup_keeps.
  - by apply blur_keeps.
  - by apply updateOctave_keeps.
Qed.

Lemma run_keeps (evs : list Event) :
  forall s : State,
  Forall (fun ev => match created_context ev with
                    | Some ctx => R ctx
                    | None => True
                    end) evs ->
  P s -> P (run evs s).1.
Proof.
  induction evs as [|ev evs IH]; intros s HR HP; [done|].
  apply Forall_cons in HR as [HR1 HR2].
  cbn [Synth.run].
  pose proof (handle_keeps ev s HR1 HP) as H1.
  destruct (handle ev s) as [s1 log1]. cbn [fst] in H1.
  pose proof (IH s1 HR2 H1) as H2.
  by destruct (run evs s1) as [s2 log2].
Qed.

End Preservation.

(** X13.  In every state reached from the loaded page the pitch
    bookkeeping agrees with the voice: while a note is sounding it is a
    note of the key map (60 to 72) and [currentFrequency] is its
    frequency [midiToFreq(currentNote)]; in silence [currentFrequency] is
    0. *)
Theorem X13_pitch_bookkeeping (evs : list Event) (p : Params) :
  let s := (run evs (loaded p)).1 in
  pitch_ok s /\
  (forall n : Z,
     currentNote s = Some n ->
     (60 <= n <= 72)%Z /\ currentFrequency s = Fin (midiToFreq n)) /\
  (currentNote s = None -> currentFrequency s = Fin 0).
Proof.
  intros s.
  assert (pitch_ok s) as H.
  { apply (run_keeps pitch_ok (fun _ => True)).
    - intros s1 s2 _ _ _. apply pitch_ok_frame.
    - intros s1 s2 ctx _ _ _ _. apply pitch_ok_frame.
    - intros s1 s2 _ _ _ Hn Hf _. unfold SynthSpec.pitch_ok. by rewrite Hn.
    - intros s1 s2 ctx f1 f2 a1 a2 m c v1 v2 now t1 t2 Hc _ _ _ _ Hn Hf.
      intros. unfold SynthSpec.pitch_ok. rewrite Hn. split; [by exists c | done].
    - intros s1 s2 ctx f v tc n a _ _ _ Hn Hf _. by apply pitch_ok_frame.
    - apply Forall_forall. intros ev _. by destruct (created_context ev).
    - reflexivity. }
  split; [done|]. unfold SynthSpec.pitch_ok in H.
  destruct (currentNote s) as [n|]; split; try done.
  intros n' [= <-]. destruct H as [[c Hc] Hf].
  split; [by eapply keyToNoteMap_range | done].
Qed.

(** X14.  The oscillators are never asked for a frequency out of range:
    when every context handed out by the host has a sample rate of at
    least 880 Hz, everything scheduled on the two oscillator frequencies
    in any state reached from the loaded page, by a note handler or by
    an octave control, is a finite value between 20 Hz and half the
    sample rate of the context. *)
Theorem X14_oscillators_in_range (evs : list Event) (p : Params) :
  sample_rates_from 880 evs ->
  let s := (run evs (loaded p)).1 in
  context_rate_from 880 s /\ oscillators_safe s.
Proof.
  intros Hrates s.
  apply (run_keeps (fun s => context_rate_from 880 s /\ oscillators_safe s)
           (fun ctx => (880 <= sampleRate ctx)%Q)).
  - intros s1 s2 Hctx Hf1 Hf2 _ _ [Hr Hs]. split.
    + intros ctx' H'. destruct (Hctx ctx' H') as (ctx & H & ->). by apply Hr.
    + intros ctx' f H' Hf. destruct (Hctx ctx' H') as (ctx & H & ->).
      apply (Hs ctx f H). by rewrite <- Hf1, <- Hf2.
  - intros s1 s2 ctx HR Hctx Hf1 Hf2 _ _ _. split.
    + intros ctx' H'. rewrite Hctx in H'. by injection H' as <-.
    + intros ctx' f _ Hf. rewrite Hf1, Hf2 in Hf.
      destruct Hf as [[= <-]|[= <-]]; constructor.
  - intros s1 s2 Hctx Hf1 Hf2 _ _ [Hr Hs]. split.
    + intros ctx' H'. apply Hr. by rewrite <- Hctx.
    + intros ctx' f H' Hf. apply (Hs ctx' f); [by rewrite <- Hctx|].
      by rewrite <- Hf1, <- Hf2.
  - intros s1 s2 ctx f1 f2 a1 a2 m c v1 v2 now t1 t2 _ Hctx Hctx' Hf1 Hf2 _ _
           Hf1' Hf2' Ha1 Ha2 [Hr Hs].
    pose proof (Hr ctx Hctx) as Hrate.
    assert (forall (base : num) (v : VcoParams) (a : Automation),
              a = setValueAtTime (calculateVcoFrequency ctx base v).1.1 now \/
              (exists tc : num,
                 a = setTargetAtTime (calculateVcoFrequency ctx base v).1.1
                       now tc) ->
              automation_within 20 (sampleRate ctx / 2) a) as Hin.
    { intros base v a Ha.
      destruct (calculateVcoFrequency_within ctx base v Hrate) as (q & Hq & ?).
      destruct Ha as [->|[tc ->]]; cbn; by exists q. }
    split.
    + intros ctx' H'. rewrite Hctx' in H'. by injection H' as <-.
    + intros ctx' f H' Hf. rewrite Hctx' in H'. injection H' as <-.
      rewrite Hf1', Hf2' in Hf.
      destruct Hf as [[= <-]|[= <-]]; cbn [scheduled call];
        repeat (apply Forall_app; split);
        try (by repeat constructor);
        try (repeat constructor; by eapply Hin).
      * apply (Hs ctx f1 Hctx). by left.
      * apply (Hs ctx f2 Hctx). by right.
  - intros s1 s2 ctx f v tc n a Hctx Hctx' _ _ _ Hf [Hr Hs].
    pose proof (Hr ctx Hctx) as Hrate.
    assert (automation_within 20 (sampleRate ctx / 2) a) as Ha.
    { destruct (calculateVcoFrequency_within ctx (currentFrequency s1) v Hrate)
        as (q & Hq & ?).
      cbn. by exists q. }
    split.
    + intros ctx' H'. rewrite Hctx' in H'. by injection H' as <-.
    + intros ctx' g H' Hg. rewrite Hctx' in H'. injection H' as <-.
      destruct Hf as [(Hf & Hf' & Hsame)|(Hf & Hf' & Hsame)];
        rewrite Hf', Hsame in Hg;
        (destruct Hg as [Hg|Hg];
         [try (injection Hg as <-; cbn [scheduled call];
               apply Forall_app; split; [|by repeat constructor])
         |try (injection Hg as <-; cbn [scheduled call];
               apply Forall_app; split; [|by repeat constructor])]).
      * apply (Hs ctx f Hctx). by left.
      * apply (Hs ctx g Hctx). by right.
      * apply (Hs ctx g Hctx). by left.
      * apply (Hs ctx f Hctx). by right.
  - done.
  - split; [by intros ctx H | by intros ctx f H].
Qed.

End Invariants.

(** X14 at a concrete input: the page loaded with a running context at
    44100 Hz, the keys A and D pressed, then the octave knob of the
    first oscillator turned to its highest step. *)
Lemma X14_oscillators_in_range_witness :
  let evs :=
    sample_events ++ [OctaveChange path_vco1_octave (JNumber (Fin 4))] in
  sample_rates_from 880 evs /\
  oscillators_safe (run sample_pow evs (loaded default_params)).1.
Proof.
  intros evs.
  assert (sample_rates_from 880 evs) as H.
  { repeat constructor. cbn. unfold Qle; simpl; lia. }
  split; [exact H|].
  apply (X14_oscillators_in_range sample_pow evs default_params H).
Defined.

(** ** Notes, keys and envelopes at concrete inputs *)

(** X4 at a concrete input: note 60 on the page loaded with a running
    context and the default parameters. *)
Lemma X4_first_note_from_silence_witness :
  let s := (run sample_pow [DOMContentLoaded [] (init_ok sample_context)]
              (loaded default_params)).1 in
  exists f1 f2 ff g : AudioParam,
    audioContext s = Some sample_context /\
    state sample_context = running /\
    vco1_frequency s = Some f1 /\ vco2_frequency s = Some f2 /\
    filter_frequency s = Some ff /\ vcaGainNode_gain s = Some g /\
    currentNote s = None /\
    exists (s' : State) (log : list Msg),
      noteOn 60 (Fin 262) s = (s', log) /\
      currentNote s' = Some 60%Z /\ currentFrequency s' = Fin 262.
Proof.
  intros s.
  destruct (vco1_frequency s) as [f1|] eqn:Hf1; [|discriminate].
  destruct (vco2_frequency s) as [f2|] eqn:Hf2; [|discriminate].
  destruct (filter_frequency s) as [ff|] eqn:Hff; [|discriminate].
  destruct (vcaGainNode_gain s) as [g|] eqn:Hg; [|discriminate].
  exists f1, f2, ff, g.
  destruct (X4_first_note_from_silence s 60 (Fin 262) sample_context
              f1 f2 ff g eq_refl eq_refl Hf1 Hf2 Hff Hg eq_refl)
    as (s' & log & f1' & f2' & ff' & g' & Hon & Hcn & Hcf & _).
  repeat split; try done. by exists s', log.
Defined.

(** X5 at a concrete input: the key Q, which is not a note key. *)
Lemma X5_key_down_ignored_witness :
  keyToNoteMap (code (key "KeyQ")) = None /\
  keydown sample_pow (key "KeyQ") no_knob_arrow resume_running
    (loaded default_params)
  = (loaded default_params, []).
Proof.
  split; [reflexivity|].
  apply (X5_key_down_ignored sample_pow (key "KeyQ") resume_running
           (loaded default_params)).
  right. right. right. left. reflexivity.
Defined.

(** X6 at a concrete input: the key A pressed and released on the page
    loaded with a running context. *)
Lemma X6_last_key_released_witness :
  let s := (run sample_pow
              [DOMContentLoaded [] (init_ok sample_context);
               KeyDown (key "KeyA") no_knob_arrow resume_running]
              (loaded default_params)).1 in
  keyToNoteMap (code (key "KeyA")) = Some 60%Z /\
  pressedKeys s !! code (key "KeyA") = Some true /\
  currentNote s = Some 60%Z /\
  (forall other : string,
     other <> code (key "KeyA") -> pressedKeys s !! other = Some true ->
     keyToNoteMap other = None) /\
  exists s' : State,
    keyup sample_pow (key "KeyA") None s = (s', []) /\
    currentNote s' = None /\ currentFrequency s' = Fin 0.
Proof.
  intros s.
  assert (keyToNoteMap (code (key "KeyA")) = Some 60%Z) as H1 by reflexivity.
  assert (pressedKeys s = <["KeyA" := true]> ∅) as Hkeys
    by (vm_compute; reflexivity).
  assert (pressedKeys s !! code (key "KeyA") = Some true) as H2
    by (rewrite Hkeys; apply lookup_insert_eq).
  assert (currentNote s = Some 60%Z) as H3 by (vm_compute; reflexivity).
  assert (forall other : string,
            other <> code (key "KeyA") -> pressedKeys s !! other = Some true ->
            keyToNoteMap other = None) as H4.
  { intros other Hne. rewrite Hkeys, lookup_insert_ne by done.
    by rewrite lookup_empty. }
  split; [exact H1|]. split; [exact H2|]. split; [exact H3|].
  split; [exact H4|].
  destruct (X6_last_key_released sample_pow
              [DOMContentLoaded [] (init_ok sample_context);
               KeyDown (key "KeyA") no_knob_arrow resume_running]
              default_params (key "KeyA") 60 H1 H2 H3 H4)
    as (s' & ctx & ff & g & ff' & g' & Hup & Hcn & Hcf & _).
  exists s'. split; [exact Hup|]. split; [exact Hcn | exact Hcf].
Defined.

(** X11 at a concrete input: the default parameters, note 60, a sample
    rate of 44100 Hz. *)
Lemma X11_filter_release_returns_to_base_witness :
  (40 <= sampleRate sample_context)%Q /\
  exists (vb vp vs t1 t2 t3 : Q) (target1' target2' : AudioParam),
    triggerEnvelope (Some sample_context) default_params
      (vcfEnv default_params) (Some (new_param 350)) (Fin (8 # 10)) (Fin 1)
      true 60 = Some target1' /\
    releaseEnvelope (Some sample_context) default_params
      (vcfEnv default_params) (Some (new_param 350)) (Fin 2)
      true 60 = Some target2' /\
    scheduled target1' =
      [cancelScheduledValues (Fin 1); setValueAtTime (Fin vb) (Fin 1);
       linearRampToValueAtTime (Fin vp) (Fin t1);
       linearRampToValueAtTime (Fin vs) (Fin t2)] /\
    scheduled target2' =
      [cancelScheduledValues (Fin 2); setValueAtTime (Fin 350) (Fin 2);
       linearRampToValueAtTime (Fin vb) (Fin t3)] /\
    (20 <= vb <= sampleRate sample_context / 2)%Q.
Proof.
  assert ((40 <= sampleRate sample_context)%Q) as H
    by (unfold Qle; simpl; lia).
  split; [exact H|].
  destruct (X11_filter_release_returns_to_base sample_context default_params
              (vcfEnv default_params) (new_param 350) (new_param 350)
              (8 # 10) 1 2 60 H)
    as (base & vb & vp & vs & t1 & t2 & t3 & target1' & target2'
        & Ht & Hr & Hs1 & Hs2 & _ & _ & Hrange & _).
  exists vb, vp, vs, t1, t2, t3, target1', target2'.
  split; [exact Ht|]. split; [exact Hr|]. split; [exact Hs1|].
  split; [exact Hs2 | exact Hrange].
Defined.

(** X12 at a concrete input: with the key A held and sounding, the key D
    is pressed. *)
Lemma X12_fresh_key_takes_the_voice_witness :
  let s := (run sample_pow
              [DOMContentLoaded [] (init_ok sample_context);
               KeyDown (key "KeyA") no_knob_arrow resume_running]
              (loaded default_params)).1 in
  keyToNoteMap (code (key "KeyD")) = Some 64%Z /\
  pressedKeys s !! code (key "KeyD") <> Some true /\
  isAudioResumed s = true /\
  currentNote s = Some 60%Z /\
  exists (s' : State) (log : list Msg),
    keydown sample_pow (key "KeyD") no_knob_arrow resume_running s
    = (s', log) /\
    currentNote s' = Some 64%Z.
Proof.
  intros s.
  assert (keyToNoteMap (code (key "KeyD")) = Some 64%Z) as H1 by reflexivity.
  assert (pressedKeys s !! code (key "KeyD") <> Some true) as H2
    by (vm_compute; discriminate).
  assert (isAudioResumed s = true) as H3 by (vm_compute; reflexivity).
  split; [exact H1|]. split; [exact H2|]. split; [exact H3|].
  split; [vm_compute; reflexivity|].
  destruct (X12_fresh_key_takes_the_voice sample_pow
              [DOMContentLoaded [] (init_ok sample_context);
               KeyDown (key "KeyA") no_knob_arrow resume_running]
              default_params (key "KeyD") 64 resume_running
              eq_refl eq_refl eq_refl eq_refl H1 H2 (or_introl H3))
    as (s' & log & Hk & Hcn & _).
  exists s', log. split; [exact Hk | exact Hcn].
Defined.

(** ** Controls and the next note *)

(** A control whose parameter is only read when a note is handled leaves
    the audio graph alone, whatever the state of the engine. *)
Lemma updateParameter_stored (u : ControlUpdate) (force : bool) (s : State) :
  paramPath u <> path_reverbWetGain_gain_value ->
  paramPath u <> path_filter_frequency_value ->
  updateParameter u force s =
  set_params (assign (paramPath u) (actualAudioValue u) (params s)) s.
Proof.
  intros H1 H2. unfold updateParameter.
  cbn [set_params audioContext isAudioInitialized isAudioResumed].
  destruct (audioContext s); [|done].
  destruct (isAudioInitialized s && (isAudioResumed s || force)); [|done].
  by destruct (paramPath u).
Qed.

(** A note transition on a running engine, step by step. *)
Lemma noteOn_transition (s : State) (note prev : Z) (freq : num)
    (ctx : AudioContext) (f1 f2 : AudioParam) :
  audioContext s = Some ctx -> state ctx = running ->
  vco1_frequency s = Some f1 -> vco2_frequency s = Some f2 ->
  currentNote s = Some prev ->
  let now := Fin (currentTime ctx) in
  let r1 := calculateVcoFrequency ctx freq (vco1 (params s)) in
  let r2 := calculateVcoFrequency ctx freq (vco2 (params s)) in
  let s3 :=
    set_pitch (portamento_of (params s)) now r1.1.1 r2.1.1 f1 f2
      (set_voice (Some note) freq
         (set_params (set_vco2 r2.1.2 (set_vco1 r1.1.2 (params s))) s)) in
  noteOn note freq s =
  (if ltb (Fin (legato (params s))) (Fin q0_5)
   then triggerEnvelopes note now s3 else s3,
   r1.2 ++ r2.2).
Proof.
  intros Hctx Hrun Hf1 Hf2 Hn now r1 r2 s3.
  unfold noteOn. rewrite Hctx, Hf1, Hf2, Hrun. cbn [ContextState_eqb negb].
  subst s3 r1 r2.
  destruct (calculateVcoFrequency ctx freq (vco1 (params s)))
    as [[t1 v1] log1].
  destruct (calculateVcoFrequency ctx freq (vco2 (params s)))
    as [[t2 v2] log2].
  cbn [fst snd set_params currentNote]. by rewrite Hn.
Qed.

(** X22.  The legato switch decides the next transition: after the
    switch bound to [legato] has been set, by any call of
    [updateParameter] and whatever the engine state, a note played while
    another one is sounding retriggers both envelopes when the switch is
    down and leaves the filter and gate targets untouched when it is
    up. *)
Theorem X22_legato_switch_decides_retrigger (s : State) (note prev : Z)
    (freq : num) (ctx : AudioContext) (f1 f2 ff g : AudioParam)
    (up force : bool) :
  audioContext s = Some ctx -> state ctx = running ->
  vco1_frequency s = Some f1 -> vco2_frequency s = Some f2 ->
  filter_frequency s = Some ff -> vcaGainNode_gain s = Some g ->
  currentNote s = Some prev ->
  let now := Fin (currentTime ctx) in
  let s1 := updateParameter (switch_update path_legato up) force s in
  exists (s' : State) (log : list Msg) (ff' g' : AudioParam),
    legato (params s1) = (if up then 1 else 0)%Q /\
    filter_frequency s1 = Some ff /\ vcaGainNode_gain s1 = Some g /\
    noteOn note freq s1 = (s', log) /\
    currentNote s' = Some note /\
    filter_frequency s' = Some ff' /\ vcaGainNode_gain s' = Some g' /\
    (up = false -> retriggered ff ff' now /\ retriggered g g' now) /\
    (up = true -> ff' = ff /\ g' = g).
Proof.
  intros Hctx Hrun Hf1 Hf2 Hff Hg Hn now s1.
  assert (s1 = set_params (assign path_legato (if up then 1 else 0)%Q
                             (params s)) s) as Hs1
    by (by apply updateParameter_stored).
  rewrite Hs1.
  set (p1 := assign path_legato (if up then 1 else 0)%Q (params s)).
  rewrite (noteOn_transition (set_params p1 s) note prev freq ctx f1 f2)
    by done.
  cbv zeta. cbn [set_params params].
  destruct (calculateVcoFrequency ctx freq (vco1 p1)) as [[t1 v1] log1].
  destruct (calculateVcoFrequency ctx freq (vco2 p1)) as [[t2 v2] log2].
  cbn [fst snd].
  set (p' := set_vco2 v2 (set_vco1 v1 p1)).
  destruct (set_pitch_frame (portamento_of p1) (Fin (currentTime ctx))
              t1 t2 f1 f2
              (set_voice (Some note) freq (set_params p' (set_params p1 s))))
    as (f1' & f2' & ->).
  destruct up; cbn [assign legato p1].
  - (* up: legato *)
    assert (ltb (Fin 1) (Fin q0_5) = false) as -> by reflexivity.
    eexists _, _, ff, g.
    do 7 (split; [done|]). split; [done | by intros _].
  - (* down: retrigger *)
    assert (ltb (Fin 0) (Fin q0_5) = true) as -> by reflexivity.
    unfold triggerEnvelopes.
    cbn [set_vco_frequencies set_voice set_params filter_frequency
         vcaGainNode_gain audioContext params].
    rewrite Hff, Hg, Hctx.
    destruct (triggerEnvelope_retriggered ctx p' (vcfEnv p') ff
                (Fin (sustain (vcfEnv p'))) (Fin (currentTime ctx)) true note)
      as (ff' & -> & _ & Hrf).
    destruct (triggerEnvelope_retriggered ctx p' (vcaEnv p') g
                (Fin (sustain (vcaEnv p'))) (Fin (currentTime ctx)) false 69)
      as (g' & -> & _ & Hrg).
    eexists _, _, ff', g'.
    do 7 (split; [done|]). split; [by intros _ | done].
Qed.

(** X23.  The portamento knob decides how the next transition changes
    the pitch: after the knob bound to [portamentoTime] has been set, the
    stored time is the new value clamped to the range of the knob, and a
    note played while another one is sounding glides with
    [setTargetAtTime] and a time constant of a quarter of that time when
    it exceeds 0.005 s, and jumps with [setValueAtTime] otherwise. *)
Theorem X23_portamento_knob_sets_the_glide (s : State) (note prev : Z)
    (freq : num) (ctx : AudioContext) (f1 f2 : AudioParam)
    (lo hi v : Q) (force : bool) :
  audioContext s = Some ctx -> state ctx = running ->
  vco1_frequency s = Some f1 -> vco2_frequency s = Some f2 ->
  currentNote s = Some prev -> (lo <= hi)%Q ->
  let now := Fin (currentTime ctx) in
  let s1 := updateParameter (knob_update path_portamentoTime lo hi v)
              force s in
  let target1 := (calculateVcoFrequency ctx freq (vco1 (params s))).1.1 in
  let target2 := (calculateVcoFrequency ctx freq (vco2 (params s))).1.1 in
  exists (t : Q) (s' : State) (log : list Msg) (f1' f2' : AudioParam),
    portamentoTime (params s1) = t /\ (t == clampQ lo hi v)%Q /\
    (lo <= t <= hi)%Q /\
    noteOn note freq s1 = (s', log) /\
    currentNote s' = Some note /\
    vco1_frequency s' = Some f1' /\ vco2_frequency s' = Some f2' /\
    ((q0_005 < t)%Q ->
     scheduled f1' =
       scheduled f1 ++
         [cancelScheduledValues now; setTargetAtTime target1 now (Fin (t / 4))] /\
     scheduled f2' =
       scheduled f2 ++
         [cancelScheduledValues now; setTargetAtTime target2 now (Fin (t / 4))]) /\
    ((t <= q0_005)%Q ->
     scheduled f1' =
       scheduled f1 ++ [cancelScheduledValues now; setValueAtTime target1 now] /\
     scheduled f2' =
       scheduled f2 ++ [cancelScheduledValues now; setValueAtTime target2 now]).
Proof.
  intros Hctx Hrun Hf1 Hf2 Hn Hle now s1 target1 target2.
  set (t := maxQ lo (minQ hi v)).
  assert (s1 = set_params (assign path_portamentoTime t (params s)) s) as Hs1
    by (by apply updateParameter_stored).
  rewrite Hs1.
  set (p1 := assign path_portamentoTime t (params s)).
  rewrite (noteOn_transition (set_params p1 s) note prev freq ctx f1 f2)
    by done.
  cbv zeta. cbn [set_params params].
  change (vco1 p1) with (vco1 (params s)).
  change (vco2 p1) with (vco2 (params s)).
  subst target1 target2.
  destruct (calculateVcoFrequency ctx freq (vco1 (params s)))
    as [[t1 v1] log1].
  destruct (calculateVcoFrequency ctx freq (vco2 (params s)))
    as [[t2 v2] log2].
  cbn [fst snd].
  set (p' := set_vco2 v2 (set_vco1 v1 p1)).
  set (s2 := set_voice (Some note) freq (set_params p' (set_params p1 s))).
  assert (forall s3 : State,
            is_Some (vco1_frequency s3) -> currentNote s3 = Some note ->
            let s4 := if ltb (Fin (legato p1)) (Fin q0_5)
                      then triggerEnvelopes note now s3 else s3 in
            currentNote s4 = Some note /\
            vco1_frequency s4 = vco1_frequency s3 /\
            vco2_frequency s4 = vco2_frequency s3) as Henv.
  { intros s3 _ Hn3 s4. unfold s4. destruct (ltb _ _); [|done].
    destruct (triggerEnvelopes_frame note now s3)
      as (_ & _ & _ & _ & Hb & Hc & _ & _ & _ & _ & _ & Hd & _).
    by rewrite Hb, Hc, Hd. }
  exists t.
  assert (portamentoTime p1 = t) as Hp1 by reflexivity.
  pose proof (max_min_clamp lo hi v Hle) as Hclamp.
  pose proof (clampQ_range lo hi v Hle) as Hrange.
  destruct (Qlt_le_dec q0_005 t) as [Hglide|Hjump].
  - rewrite (set_pitch_glide p1) by done. rewrite Hp1.
    match goal with |- context [set_vco_frequencies ?a ?b s2] =>
      destruct (Henv (set_vco_frequencies a b s2) ltac:(by eexists) eq_refl)
        as (H1 & H2 & H3) end.
    eexists _, _, _, _. split; [done|]. split; [done|].
    split; [fold t in Hclamp; rewrite Hclamp; done|].
    split; [reflexivity|]. split; [exact H1|].
    split; [etrans; [exact H2 | reflexivity]|].
    split; [etrans; [exact H3 | reflexivity]|].
    split; [intros _|intros; lra].
    cbn [scheduled call]. by rewrite <- !app_assoc.
  - rewrite (set_pitch_jump p1) by done.
    match goal with |- context [set_vco_frequencies ?a ?b s2] =>
      destruct (Henv (set_vco_frequencies a b s2) ltac:(by eexists) eq_refl)
        as (H1 & H2 & H3) end.
    eexists _, _, _, _. split; [done|]. split; [done|].
    split; [fold t in Hclamp; rewrite Hclamp; done|].
    split; [reflexivity|]. split; [exact H1|].
    split; [etrans; [exact H2 | reflexivity]|].
    split; [etrans; [exact H3 | reflexivity]|].
    split; [intros; lra|intros _].
    cbn [scheduled call]. by rewrite <- !app_assoc.
Qed.

(** ** Power-on *)

(** In silence an octave control only stores the octave, whatever the
    state of the engine and also when the update is forced. *)
Lemma updateOctave_silent (path : OctavePath) (v : jsval) (force : bool)
    (s : State) :
  currentNote s = None ->
  updateOctave path v force s =
  (set_params
     (match path with
      | path_vco1_octave => set_vco1 {| octave := v |} (params s)
      | path_vco2_octave => set_vco2 {| octave := v |} (params s)
      end) s, []).
Proof.
  intros Hn. unfold updateOctave.
  cbn [set_params audioContext isAudioInitialized isAudioResumed currentNote].
  rewrite Hn. destruct (audioContext s); [|done]. by destruct (_ && _).
Qed.

(** X21.  The power button on a silent page whose engine is not
    initialized builds the graph and pushes the controls to it:
    afterwards the engine is initialized on the context handed out by
    the host, which runs exactly when it was created running or was
    suspended and could be resumed, and the resumed flag says so; both
    oscillators wait at 440 Hz with nothing scheduled and the gate gain
    is 0 with nothing scheduled, whatever the knobs and switches pushed;
    the voice and the held keys are left as they were.  When building
    the graph fails on a page without context, the engine stays
    uninitialized and without context. *)
Theorem X21_power_on (s : State) (ctx : AudioContext)
    (controls : list ControlUpdate) (r : ResumeOutcome) :
  isAudioInitialized s = false ->
  currentNote s = None ->
  (exists (s' : State) (log : list Msg) (ctx' : AudioContext),
     powerButton (init_ok ctx) controls r s = (s', log) /\
     isAudioInitialized s' = true /\
     audioContext s' = Some ctx' /\
     sampleRate ctx' = sampleRate ctx /\
     currentTime ctx' = currentTime ctx /\
     (state ctx' = running <->
      state ctx = running \/ state ctx = suspended /\ r = resume_running) /\
     (isAudioResumed s' = true <-> state ctx' = running) /\
     vco1_frequency s' = Some (new_param 440) /\
     vco2_frequency s' = Some (new_param 440) /\
     vcaGainNode_gain s' = Some (set_value 0 (new_param 1)) /\
     currentNote s' = None /\
     currentFrequency s' = currentFrequency s /\
     pressedKeys s' = pressedKeys s) /\
  (audioContext s = None ->
   exists (s' : State) (log : list Msg),
     powerButton init_throws controls r s = (s', log) /\
     isAudioInitialized s' = false /\ audioContext s' = None /\
     isAudioResumed s' = isAudioResumed s /\
     currentNote s' = None /\ pressedKeys s' = pressedKeys s /\
     ~ no_error log).
Proof.
  intros Hinit Hsilent. rewrite <- Hsilent. split.
  - unfold powerButton, initAudio. rewrite Hinit. cbn [negb].
    set (s1 := {| audioContext := Some ctx; isAudioInitialized := true;
                  isAudioResumed := ContextState_eqb (state ctx) running;
                  params := params s;
                  vco1_frequency := Some (new_param 440);
                  vco2_frequency := Some (new_param 440);
                  filter_frequency := _; vcaGainNode_gain := _;
                  reverbWetGain_gain := _; reverbDryGain_gain := _;
                  pressedKeys := pressedKeys s;
                  currentNote := currentNote s;
                  currentFrequency := currentFrequency s |}).
    destruct (updateAll_frame controls true s1)
      as (Hc & Hi & Hr & Hv1 & Hv2 & _ & Hg & Hk & Hn & Hf).
    set (s2 := updateAll controls true s1) in *.
    rewrite Hc. cbn [audioContext s1].
    destruct (state ctx) eqn:Hst; cbn [ContextState_eqb].
    + (* suspended: the listener tries to resume *)
      unfold ensureAudioContextResumed. rewrite Hc. cbn [audioContext s1].
      rewrite Hst.
      destruct r.
      * exists (set_isAudioResumed true
                  (set_audioContext (Some (set_context_state running ctx)) s2)).
        eexists _, (set_context_state running ctx).
        split; [reflexivity|].
        cbn [set_isAudioResumed set_audioContext audioContext
             isAudioInitialized isAudioResumed vco1_frequency vco2_frequency
             vcaGainNode_gain currentNote currentFrequency pressedKeys
             set_context_state sampleRate currentTime state].
        rewrite Hi, Hv1, Hv2, Hg, Hk, Hn, Hf.
        do 4 (split; [done|]).
        split; [split; [intros _; right; by split | done]|].
        split; [done|]. by repeat split.
      * exists (set_isAudioResumed false s2). eexists _, ctx.
        split; [reflexivity|].
        cbn [set_isAudioResumed audioContext
             isAudioInitialized isAudioResumed vco1_frequency vco2_frequency
             vcaGainNode_gain currentNote currentFrequency pressedKeys].
        rewrite Hc, Hi, Hv1, Hv2, Hg, Hk, Hn, Hf.
        do 4 (split; [done|]).
        split; [split; [by rewrite Hst | intros [?|[_ ?]]; congruence]|].
        split; [split; [done | by rewrite Hst]|]. by repeat split.
      * exists (set_isAudioResumed false s2). eexists _, ctx.
        split; [reflexivity|].
        cbn [set_isAudioResumed audioContext
             isAudioInitialized isAudioResumed vco1_frequency vco2_frequency
             vcaGainNode_gain currentNote currentFrequency pressedKeys].
        rewrite Hc, Hi, Hv1, Hv2, Hg, Hk, Hn, Hf.
        do 4 (split; [done|]).
        split; [split; [by rewrite Hst | intros [?|[_ ?]]; congruence]|].
        split; [split; [done | by rewrite Hst]|]. by repeat split.
    + (* running *)
      exists s2, [console_log "Initializing AudioContext..."], ctx.
      rewrite Hc, Hi, Hr, Hv1, Hv2, Hg, Hk, Hn, Hf. cbn. rewrite Hst.
      split; [done|]. split; [done|]. split; [done|]. split; [done|].
      split; [done|]. cbn [ContextState_eqb].
      split; [split; [intros _; by left | done]|].
      split; [done|]. by repeat split.
    + (* closed *)
      exists s2, [console_log "Initializing AudioContext..."], ctx.
      rewrite Hc, Hi, Hr, Hv1, Hv2, Hg, Hk, Hn, Hf. cbn. rewrite Hst.
      split; [done|]. split; [done|]. split; [done|]. split; [done|].
      split; [done|]. cbn [ContextState_eqb].
      split; [split; [done | intros [?|[? _]]; done]|].
      split; [done|]. by repeat split.
  - intros Hnone. unfold powerButton, initAudio. rewrite Hinit. cbn [negb].
    destruct (updateAll_frame controls true (set_isAudioInitialized false s))
      as (Hc & Hi & Hr & _ & _ & _ & _ & Hk & Hn & _).
    cbn [set_isAudioInitialized audioContext isAudioInitialized isAudioResumed
         pressedKeys currentNote] in Hc, Hi, Hr, Hk, Hn.
    rewrite Hc, Hnone.
    eexists _, _. split; [reflexivity|].
    rewrite Hc, Hi, Hr, Hk, Hn. repeat (split; [done|]).
    intros H. apply Forall_cons in H as [_ H]. apply Forall_cons in H as [H _].
    by apply H.
Qed.

Section Held.

Variable Math_pow : Q -> Q -> Q.

Local Abbreviation run := (Synth.run Math_pow).

(** X20.  In every state reached from the loaded page the sounding note
    is the note of a key that is marked as held. *)
Theorem X20_sounding_note_is_held (evs : list Event) (p : Params) (n : Z) :
  let s := (run evs (loaded p)).1 in
  currentNote s = Some n ->
  exists c : string,
    pressedKeys s !! c = Some true /\ keyToNoteMap c = Some n /\
    c ∈ remainingHeldCodes (pressedKeys s).
Proof.
  intros s Hn.
  destruct (loaded_ok p) as [He0 Hv0].
  destruct (run_ok Math_pow evs (loaded p) He0 Hv0) as [_ [Hv1 _]].
  fold s in Hv1.
  destruct (Hv1 n Hn) as (_ & c & Hc & Hk).
  exists c. split; [done|]. split; [done|].
  apply elem_of_remainingHeldCodes. split; [done | by eexists].
Qed.

End Held.

(** X20 at a concrete input: the keys A and D held, D sounding. *)
Lemma X20_sounding_note_is_held_witness :
  let s := (run sample_pow sample_events (loaded default_params)).1 in
  currentNote s = Some 64%Z /\
  exists c : string,
    pressedKeys s !! c = Some true /\ keyToNoteMap c = Some 64%Z.
Proof.
  intros s.
  assert (currentNote s = Some 64%Z) as H by (vm_compute; reflexivity).
  split; [exact H|].
  destruct (X20_sounding_note_is_held sample_pow sample_events default_params
              64 H) as (c & Hc & Hk & _).
  exists c. split; [exact Hc | exact Hk].
Defined.

(** X21 at a concrete input: the power button on the loaded page, with a
    suspended context that can be resumed. *)
Lemma X21_power_on_witness :
  isAudioInitialized (loaded default_params) = false /\
  currentNote (loaded default_params) = None /\
  exists (s' : State) (log : list Msg),
    powerButton (init_ok sample_suspended) [] resume_running
      (loaded default_params) = (s', log) /\
    isAudioInitialized s' = true /\ isAudioResumed s' = true.
Proof.
  split; [reflexivity|]. split; [reflexivity|].
  destruct (X21_power_on (loaded default_params) sample_suspended []
              resume_running eq_refl eq_refl)
    as [(s' & log & ctx' & Hp & Hi & _ & _ & _ & Hrun & Hres & _) _].
  exists s', log. split; [exact Hp|]. split; [exact Hi|].
  apply Hres, Hrun. right. split; reflexivity.
Defined.

(** X22 at a concrete input: with note 60 sounding, the legato switch is
    put down and note 64 is played. *)
Lemma X22_legato_switch_decides_retrigger_witness :
  let s := (run sample_pow
              [DOMContentLoaded [] (init_ok sample_context);
               KeyDown (key "KeyA") no_knob_arrow resume_running]
              (loaded default_params)).1 in
  exists f1 f2 ff g : AudioParam,
    audioContext s = Some sample_context /\
    state sample_context = running /\
    vco1_frequency s = Some f1 /\ vco2_frequency s = Some f2 /\
    filter_frequency s = Some ff /\ vcaGainNode_gain s = Some g /\
    currentNote s = Some 60%Z /\
    exists (s' : State) (log : list Msg) (ff' g' : AudioParam),
      noteOn 64 (Fin 330)
        (updateParameter (switch_update path_legato false) false s)
      = (s', log) /\
      filter_frequency s' = Some ff' /\ vcaGainNode_gain s' = Some g' /\
      retriggered ff ff' (Fin 1) /\ retriggered g g' (Fin 1).
Proof.
  intros s.
  destruct (vco1_frequency s) as [f1|] eqn:Hf1; [|discriminate].
  destruct (vco2_frequency s) as [f2|] eqn:Hf2; [|discriminate].
  destruct (filter_frequency s) as [ff|] eqn:Hff; [|discriminate].
  destruct (vcaGainNode_gain s) as [g|] eqn:Hg; [|discriminate].
  exists f1, f2, ff, g.
  destruct (X22_legato_switch_decides_retrigger s 64 60 (Fin 330)
              sample_context f1 f2 ff g false false
              eq_refl eq_refl Hf1 Hf2 Hff Hg eq_refl)
    as (s' & log & ff' & g' & _ & _ & _ & Hon & _ & Hff' & Hg' & Hdown & _).
  destruct (Hdown eq_refl) as [Hr1 Hr2].
  do 7 (split; [done|]).
  exists s', log, ff', g'. split; [exact Hon|]. split; [exact Hff'|].
  split; [exact Hg'|]. split; [exact Hr1 | exact Hr2].
Defined.

(** X23 at a concrete input: with note 60 sounding, the portamento knob
    (0 to 2 s) is set to 0.4 s and note 64 is played. *)
Lemma X23_portamento_knob_sets_the_glide_witness :
  let s := (run sample_pow
              [DOMContentLoaded [] (init_ok sample_context);
               KeyDown (key "KeyA") no_knob_arrow resume_running]
              (loaded default_params)).1 in
  exists f1 f2 : AudioParam,
    audioContext s = Some sample_context /\
    state sample_context = running /\
    vco1_frequency s = Some f1 /\ vco2_frequency s = Some f2 /\
    currentNote s = Some 60%Z /\ (0 <= 2)%Q /\
    exists (t : Q) (s' : State) (log : list Msg),
      noteOn 64 (Fin 330)
        (updateParameter (knob_update path_portamentoTime 0 2 (4 # 10))
           false s)
      = (s', log) /\
      (0 <= t <= 2)%Q /\ currentNote s' = Some 64%Z.
Proof.
  intros s.
  destruct (vco1_frequency s) as [f1|] eqn:Hf1; [|discriminate].
  destruct (vco2_frequency s) as [f2|] eqn:Hf2; [|discriminate].
  exists f1, f2.
  assert (0 <= 2)%Q as Hle by (unfold Qle; simpl; lia).
  destruct (X23_portamento_knob_sets_the_glide s 64 60 (Fin 330)
              sample_context f1 f2 0 2 (4 # 10) false
              eq_refl eq_refl Hf1 Hf2 eq_refl Hle)
    as (t & s' & log & f1' & f2' & _ & _ & Hrange & Hon & Hcn & _).
  do 6 (split; [done|]).
  exists t, s', log. split; [exact Hon|]. split; [exact Hrange | exact Hcn].
Defined.

(** Scenario: with note 60 sounding (220 Hz with the stand-in for
    [Math.pow]), the octave knob of the first oscillator is turned to
    step 4: the octave is stored and the first oscillator is sent to
    220 * 2 Hz with a time constant of 0.02 s; the second oscillator is
    left alone. *)
Example octave_knob_retunes_sounding_note :
  let s := (run sample_pow
              [DOMContentLoaded [] (init_ok sample_context);
               KeyDown (key "KeyA") no_knob_arrow resume_running]
              (loaded default_params)).1 in
  let s' := (handle sample_pow
               (OctaveChange path_vco1_octave (JNumber (Fin 4))) s).1 in
  exists (f1 : AudioParam) (q tc : Q),
    vco1_frequency s = Some f1 /\
    vco1_frequency s' =
      Some (call (setTargetAtTime (Fin q) (Fin 1) (Fin tc)) f1) /\
    (q == 440)%Q /\ (tc == 2 # 100)%Q /\
    octave (vco1 (params s')) = JNumber (Fin 4) /\
    vco2_frequency s' = vco2_frequency s.
Proof.
  vm_compute. eexists _, _, _.
  split; [reflexivity|]. split; [reflexivity|].
  split; [reflexivity|]. split; [reflexivity|]. split; reflexivity.
Qed.

End SynthFacts.

(* ===================================================================== *)
(** ** Facts about the knobs of the panel *)
(* ===================================================================== *)

Module PanelFacts.

Import Synth Panel SynthFacts.

(** *** Rounding and clamping *)

Lemma clamp01 (x : Q) :
  (0 <= maxQ 0 (minQ 1 x) <= 1)%Q /\
  ((0 <= x <= 1)%Q -> (maxQ 0 (minQ 1 x) == x)%Q).
Proof.
  unfold maxQ, minQ.
  destruct (Qlt_le_dec x 1); destruct (Qlt_le_dec 0 _); split; intros; lra.
Qed.

Lemma max_min_range (lo hi x : Q) :
  (lo <= hi)%Q ->
  (lo <= maxQ lo (minQ hi x) <= hi)%Q /\
  ((lo <= x <= hi)%Q -> (maxQ lo (minQ hi x) == x)%Q) /\
  ((x <= lo)%Q -> (maxQ lo (minQ hi x) == lo)%Q) /\
  ((hi <= x)%Q -> (maxQ lo (minQ hi x) == hi)%Q).
Proof.
  intros H. unfold maxQ, minQ.
  destruct (Qlt_le_dec x hi); destruct (Qlt_le_dec lo _);
    repeat split; intros; lra.
Qed.

(** [toFixed(5)] moves a number by at most half a unit of the fifth
    decimal. *)
Lemma toFixed5_close (q : Q) :
  exists d : Q,
    toFixed5 (Fin q) = Fin d /\ (Qabs (d - q) <= 1 # 200000)%Q.
Proof.
  unfold toFixed5.
  destruct (Qlt_le_dec (Qabs q) (inject_Z (10 ^ 21))) as [_|_].
  - set (n := Qfloor (Qabs q * 100000 + (1 # 2))).
    pose proof (Qfloor_le (Qabs q * 100000 + (1 # 2))) as Hlo.
    pose proof (Qlt_floor (Qabs q * 100000 + (1 # 2))) as Hhi.
    fold n in Hlo, Hhi. rewrite inject_Z_plus in Hhi.
    change (inject_Z 1) with 1%Q in Hhi.
    assert (Qabs (inject_Z n / 100000 - Qabs q) <= 1 # 200000)%Q as Hclose.
    { apply Qabs_Qle_condition. split.
      - assert (Qabs q - (1 # 200000) <= inject_Z n / 100000)%Q; [|lra].
        apply Qle_shift_div_l; lra.
      - assert (inject_Z n / 100000 <= Qabs q + (1 # 200000))%Q; [|lra].
        apply Qle_shift_div_r; lra. }
    destruct (Qlt_le_dec q 0) as [Hneg|Hpos]; eexists; (split; [reflexivity|]).
    + rewrite (Qabs_neg q) in Hclose by lra.
      apply Qabs_Qle_condition in Hclose. apply Qabs_Qle_condition. lra.
    + rewrite (Qabs_pos q) in Hclose by lra. done.
  - exists q. split; [done|].
    apply Qabs_Qle_condition. lra.
Qed.

(** *** Continuous knobs *)

(** The rotation written by [updateKnobVisual] for a continuous knob. *)
Lemma updateKnobVisual_continuous (knob : Knob) (lo hi q : Q) :
  knob_steps knob = None ->
  knob_min knob = Fin lo -> knob_max knob = Fin hi ->
  (lo <= hi)%Q -> (lo <= q <= hi)%Q ->
  exists r : Q,
    updateKnobVisual knob (Fin q)
    = (set_knob_value (toFixed5 (Fin q)) knob, Fin r) /\
    (-135 <= r <= 135)%Q /\
    ((lo < hi)%Q -> (r == -135 + 270 * ((q - lo) / (hi - lo)))%Q) /\
    ((lo == hi)%Q -> (r == 0)%Q).
Proof.
  intros Hsteps Hmin Hmax Hle Hq.
  unfold updateKnobVisual. rewrite Hsteps, Hmin, Hmax.
  cbn [sub opp add eqb].
  destruct (Qeq_dec (hi + - lo) 0) as [Heq|Hne]; cbn [negb].
  - cbn [Math_min Math_max mul add].
    destruct (clamp01 (1 # 2)) as [Hr Hid].
    eexists. split; [reflexivity|].
    split; [lra|]. split; [intros; lra|].
    intros _. rewrite Hid by lra. reflexivity.
  - rewrite div_Fin by done.
    cbn [Math_min Math_max mul add].
    set (pct := ((q + - lo) / (hi + - lo))%Q).
    destruct (clamp01 pct) as [Hr Hid].
    assert (0 <= pct <= 1)%Q as Hpct.
    { unfold pct. split.
      - apply Qle_shift_div_l; lra.
      - apply Qle_shift_div_r; lra. }
    eexists. split; [reflexivity|].
    split; [lra|]. split; [|intros; lra].
    intros _. rewrite (Hid Hpct). unfold pct, Qminus. ring.
Qed.

(** X16.  A continuous knob never leaves its range: for a knob with
    [min <= max] that is not ignored, [updateParameter] sends the new
    value clamped to [[min, max]] on to the parameters (the value itself
    when it is inside the range), stores it in [dataset.value] rounded to
    five decimals, and turns the knob by an angle of [[-135, 135]]
    degrees that is linear in the value: -135 at [min], 135 at [max], and
    0 when the range is empty. *)
Theorem X16_continuous_knob_stays_in_range (element : Knob) (lo hi v : Q) :
  ignored_control (knob_param element) = false ->
  knob_steps element = None ->
  knob_min element = Fin lo -> knob_max element = Fin hi ->
  (lo <= hi)%Q ->
  exists (q d r : Q) (element' : Knob),
    updateParameter_knob element (Fin v)
    = Some (element', Fin r, JNumber (Fin q)) /\
    (q == clampQ lo hi v)%Q /\ (lo <= q <= hi)%Q /\
    ((lo <= v <= hi)%Q -> (q == v)%Q) /\
    knob_value element' = Fin d /\ (Qabs (d - q) <= 1 # 200000)%Q /\
    knob_min element' = Fin lo /\ knob_max element' = Fin hi /\
    knob_steps element' = None /\
    (-135 <= r <= 135)%Q /\
    ((lo < hi)%Q -> (r == -135 + 270 * ((q - lo) / (hi - lo)))%Q) /\
    ((lo == hi)%Q -> (r == 0)%Q).
Proof.
  intros Hign Hsteps Hmin Hmax Hle.
  unfold updateParameter_knob. rewrite Hign, Hsteps, Hmin, Hmax.
  cbn [Math_min Math_max].
  set (q := maxQ lo (minQ hi v)).
  destruct (max_min_range lo hi v Hle) as (Hrange & Hid & _). fold q in Hrange, Hid.
  destruct (updateKnobVisual_continuous element lo hi q
              Hsteps Hmin Hmax Hle Hrange) as (r & -> & Hr & Hlin & Hzero).
  destruct (toFixed5_close q) as (d & Hd & Hclose).
  exists q, d, r. eexists. split; [reflexivity|].
  split; [by apply max_min_clamp|]. split; [done|]. split; [done|].
  cbn [set_knob_value knob_value knob_min knob_max knob_steps].
  repeat (split; [done|]). done.
Qed.

(** *** Stepped knobs *)

Lemma Qfloor_between (x : Q) (z : Z) :
  (inject_Z z <= x)%Q -> (x < inject_Z z + 1)%Q -> Qfloor x = z.
Proof.
  intros Hlo Hhi.
  pose proof (Qfloor_le x) as H1. pose proof (Qlt_floor x) as H2.
  assert (inject_Z (Qfloor x) < inject_Z (z + 1))%Q as H3
    by (rewrite inject_Z_plus; change (inject_Z 1) with 1%Q; lra).
  assert (inject_Z z < inject_Z (Qfloor x + 1))%Q as H4 by lra.
  rewrite <- Zlt_Qlt in H3, H4. lia.
Qed.

Lemma Qfloor_half (q : Q) (z : Z) :
  (q == inject_Z z)%Q -> Qfloor (q + (1 # 2)) = z.
Proof. intros H. apply Qfloor_between; lra. Qed.

(** Clamping a whole number to the indices of the steps. *)
Lemma clampIndex_whole (steps : list Step) (q : Q) (z : Z) :
  steps <> [] -> (q == inject_Z z)%Q ->
  exists (c : Q) (i : nat),
    clampIndex steps (Fin q) = Fin c /\
    (c == inject_Z (Z.of_nat i))%Q /\ i < length steps /\
    Z.of_nat i = Z.max 0 (Z.min (Z.of_nat (length steps) - 1) z).
Proof.
  intros Hne Hq.
  assert (0 < length steps) as Hlen by (destruct steps; [done | simpl; lia]).
  unfold clampIndex, ofZ. cbn [sub opp add Math_min Math_max].
  set (L := (Z.of_nat (length steps) - 1)%Z).
  assert (inject_Z (Z.of_nat (length steps)) + - (1) == inject_Z L)%Q as HL.
  { unfold L, Z.sub. rewrite inject_Z_plus. reflexivity. }
  exists (maxQ 0 (minQ (inject_Z (Z.of_nat (length steps)) + - (1)) q)),
         (Z.to_nat (Z.max 0 (Z.min L z))).
  split; [done|].
  rewrite Z2Nat.id by lia.
  split; [|split; [lia | done]].
  unfold maxQ, minQ.
  destruct (Qlt_le_dec q _) as [H1|H1]; rewrite HL, Hq in H1;
    [rewrite <- Zlt_Qlt in H1 | rewrite <- Zle_Qle in H1];
    destruct (Qlt_le_dec 0 _) as [H2|H2]; rewrite ?HL, ?Hq in H2;
    change 0%Q with (inject_Z 0) in H2;
    [rewrite <- Zlt_Qlt in H2 | rewrite <- Zle_Qle in H2
    |rewrite <- Zlt_Qlt in H2 | rewrite <- Zle_Qle in H2];
    rewrite ?HL, ?Hq; change 0%Q with (inject_Z 0);
    apply inject_Z_injective; lia.
Qed.

Lemma step_at_whole (steps : list Step) (c : Q) (i : nat) :
  (c == inject_Z (Z.of_nat i))%Q -> step_at steps (Fin c) = steps !! i.
Proof.
  intros Hc. unfold step_at, array_index.
  assert (Qfloor c = Z.of_nat i) as Hfl
    by (rewrite (Qfloor_comp _ _ Hc); apply Qfloor_Z).
  rewrite Hfl.
  destruct (Qeq_dec c (inject_Z (Z.of_nat i))) as [_|H]; [|done].
  destruct (Z_lt_le_dec (Z.of_nat i) 0); [lia|].
  by rewrite Nat2Z.id.
Qed.

(** The index selected for a number: the nearest integer, clamped. *)
Lemma clampIndex_round (steps : list Step) (v : Q) :
  steps <> [] ->
  exists (c : Q) (i : nat),
    clampIndex steps (Math_round (Fin v)) = Fin c /\
    (c == inject_Z (Z.of_nat i))%Q /\ i < length steps /\
    Z.of_nat i =
      Z.max 0 (Z.min (Z.of_nat (length steps) - 1) (Qfloor (v + (1 # 2)))).
Proof.
  intros Hne. unfold Math_round.
  by apply clampIndex_whole.
Qed.

(** The rotation written by [updateKnobVisual] for a stepped knob whose
    value is an index of its steps. *)
Lemma updateKnobVisual_stepped (knob : Knob) (steps : list Step)
    (c : Q) (i : nat) :
  knob_steps knob = Some steps ->
  (c == inject_Z (Z.of_nat i))%Q -> i < length steps ->
  exists r : Q,
    updateKnobVisual knob (Fin c)
    = (set_knob_value (Fin (inject_Z (Z.of_nat i))) knob, Fin r) /\
    (-135 <= r <= 135)%Q /\
    (1 < length steps ->
     (r == -135 + 270 * (inject_Z (Z.of_nat i)
                         / (inject_Z (Z.of_nat (length steps)) - 1)))%Q) /\
    (length steps = 1 -> (r == 0)%Q).
Proof.
  intros Hsteps Hc Hi.
  assert (steps <> []) as Hne by (destruct steps; [simpl in Hi; lia | done]).
  unfold updateKnobVisual. rewrite Hsteps.
  unfold Math_round at 1. rewrite (Qfloor_half c _ Hc).
  unfold Math_round.
  destruct (clampIndex_whole steps (inject_Z (Qfloor (c + (1 # 2))))
              (Z.of_nat i) Hne) as (c' & i' & -> & Hc' & Hi' & Hmax).
  { by rewrite (Qfloor_half c _ Hc). }
  assert (i' = i) as -> by lia.
  unfold gtb, ofZ. cbn [ltb sub opp add].
  assert (0 <= inject_Z (Z.of_nat i))%Q as Hi0
    by (change 0%Q with (inject_Z 0); rewrite <- Zle_Qle; lia).
  destruct (Qlt_le_dec 1 (inject_Z (Z.of_nat (length steps)))) as [Hgt|Hle].
  - assert (1 < length steps) as Hlen.
    { change 1%Q with (inject_Z 1) in Hgt. rewrite <- Zlt_Qlt in Hgt. lia. }
    rewrite div_Fin by lra.
    cbn [Math_min Math_max mul add].
    set (pct := (c' / (inject_Z (Z.of_nat (length steps)) + - (1)))%Q).
    assert (inject_Z (Z.of_nat i) <= inject_Z (Z.of_nat (length steps)) + - (1))%Q
      as Hile.
    { assert (inject_Z (Z.of_nat i) <= inject_Z (Z.of_nat (length steps) - 1))%Q
        as H by (rewrite <- Zle_Qle; lia).
      unfold Z.sub in H. rewrite inject_Z_plus in H.
      change (inject_Z (- (1))) with (- (1))%Q in H. lra. }
    assert (0 <= pct <= 1)%Q as Hpct.
    { unfold pct. split.
      - apply Qle_shift_div_l; lra.
      - apply Qle_shift_div_r; lra. }
    destruct (clamp01 pct) as [Hr Hid].
    eexists. split; [reflexivity|].
    split; [lra|]. split; [|intros; lia].
    intros _. rewrite (Hid Hpct). unfold pct, Qminus. rewrite Hc'. ring.
  - assert (length steps = 1) as Hlen.
    { change 1%Q with (inject_Z 1) in Hle. rewrite <- Zle_Qle in Hle. lia. }
    cbn [Math_min Math_max mul add].
    destruct (clamp01 (1 # 2)) as [Hr Hid].
    eexists. split; [reflexivity|].
    split; [lra|]. split; [intros; lia|].
    intros _. rewrite Hid by lra. reflexivity.
Qed.

(** X15.  A stepped knob always rests on one of its steps: for a knob
    that is not ignored and has at least one step, [updateParameter]
    selects the step whose index is the new value rounded to the nearest
    integer (halves up) and clamped to the indices of the steps; it
    stores that index in [dataset.value], sends the number read from the
    step (or its text when it holds no number) on to the parameters, and
    turns the knob by an angle of [[-135, 135]] degrees proportional to
    the index (0 for a single step). *)
Theorem X15_stepped_knob_stays_on_a_step (element : Knob)
    (steps : list Step) (v : Q) :
  ignored_control (knob_param element) = false ->
  knob_steps element = Some steps -> steps <> [] ->
  exists (i : nat) (st : Step) (r : Q) (element' : Knob) (actual : jsval),
    updateParameter_knob element (Fin v) = Some (element', Fin r, actual) /\
    Z.of_nat i =
      Z.max 0 (Z.min (Z.of_nat (length steps) - 1) (Qfloor (v + (1 # 2)))) /\
    i < length steps /\ steps !! i = Some st /\
    actual = (if isNaN (step_number st) then JString (step_text st)
              else JNumber (step_number st)) /\
    knob_value element' = Fin (inject_Z (Z.of_nat i)) /\
    knob_steps element' = Some steps /\
    (-135 <= r <= 135)%Q /\
    (1 < length steps ->
     (r == -135 + 270 * (inject_Z (Z.of_nat i)
                         / (inject_Z (Z.of_nat (length steps)) - 1)))%Q) /\
    (length steps = 1 -> (r == 0)%Q).
Proof.
  intros Hign Hsteps Hne.
  unfold updateParameter_knob. rewrite Hign, Hsteps.
  destruct (clampIndex_round steps v Hne) as (c & i & -> & Hc & Hi & Hmax).
  rewrite (step_at_whole steps c i Hc).
  destruct (lookup_lt_is_Some_2 steps i Hi) as [st Hst]. rewrite Hst.
  destruct (updateKnobVisual_stepped element steps c i Hsteps Hc Hi)
    as (r & -> & Hr & Hlin & Hone).
  exists i, st, r. eexists _, _. split; [reflexivity|].
  repeat (split; [done|]). done.
Qed.

(** *** Arrow keys and dragging *)

(** The test that decides whether [updateParameter] is called. *)
Lemma changed_enough (new c : Q) :
  (if gtb (Math_abs (Fin new - Fin c)%num) (Fin (1 # 1000000000))
   then Some (Fin new) else None) =
  if Qlt_le_dec (1 # 1000000000) (Qabs (new - c))
  then Some (Fin new) else None.
Proof.
  unfold gtb. cbn [sub opp add Math_abs ltb]. unfold Qminus.
  by destruct (Qlt_le_dec _ _).
Qed.

(** [handleKnobInteraction] on a continuous knob with a proper range. *)
Lemma handleKnobInteraction_continuous (knob : Knob)
    (adjustmentFn : num -> num -> num) (lo hi c a : Q) :
  knob_steps knob = None ->
  knob_min knob = Fin lo -> knob_max knob = Fin hi ->
  knob_value knob = Fin c -> (lo < hi)%Q ->
  adjustmentFn (Fin c) (Fin ((hi + - lo) / 100)) = Fin a ->
  handleKnobInteraction knob adjustmentFn =
  if Qlt_le_dec (1 # 1000000000) (Qabs (maxQ lo (minQ hi a) - c))
  then Some (Fin (maxQ lo (minQ hi a))) else None.
Proof.
  intros Hsteps Hmin Hmax Hval Hlt Hadj.
  unfold handleKnobInteraction. rewrite Hsteps, Hmin, Hmax, Hval.
  cbn [sub opp add leb].
  destruct (Qlt_le_dec 0 (hi + - lo)) as [_|H]; [|lra].
  rewrite div_Fin by (intros H; lra).
  rewrite Hadj. cbn [Math_min Math_max].
  apply changed_enough.
Qed.

(** X17.  The arrow keys on a continuous knob with [min < max] and a
    value inside its range: one press moves the value by one hundredth of
    the range, ten hundredths with Shift, towards [max] for the right
    arrow and towards [min] for the left arrow, and stops at the end of
    the range; [updateParameter] is called with the new value only when
    it differs from the current one by more than 1e-9, so that a press
    at the end of the range does nothing. *)
Theorem X17_arrow_keys_on_continuous_knob (knob : Knob)
    (direction : Direction) (isShift : bool) (lo hi c : Q) :
  knob_steps knob = None ->
  knob_min knob = Fin lo -> knob_max knob = Fin hi ->
  knob_value knob = Fin c -> (lo < hi)%Q -> (lo <= c <= hi)%Q ->
  let step := ((hi - lo) / 100 * (if isShift then 10 else 1))%Q in
  let delta := match direction with
               | dir_left => (- step)%Q
               | dir_right => step
               end in
  exists new : Q,
    (new == clampQ lo hi (c + delta))%Q /\ (lo <= new <= hi)%Q /\
    ((1 # 1000000000 < Qabs (new - c))%Q ->
     handleArrowPress knob direction isShift = Some (Fin new)) /\
    ((Qabs (new - c) <= 1 # 1000000000)%Q ->
     handleArrowPress knob direction isShift = None) /\
    ((lo <= c + delta <= hi)%Q -> (new == c + delta)%Q) /\
    (direction = dir_right -> (c <= new)%Q /\
       ((c == hi)%Q -> handleArrowPress knob direction isShift = None)) /\
    (direction = dir_left -> (new <= c)%Q /\
       ((c == lo)%Q -> handleArrowPress knob direction isShift = None)).
Proof.
  intros Hsteps Hmin Hmax Hval Hlt Hc step delta.
  assert (0 < step)%Q as Hstep.
  { unfold step. assert (0 < (hi - lo) / 100)%Q as H
      by (apply Qlt_shift_div_l; lra).
    destruct isShift; lra. }
  assert (exists a : Q,
            (a == c + delta)%Q /\
            handleArrowPress knob direction isShift =
            if Qlt_le_dec (1 # 1000000000) (Qabs (maxQ lo (minQ hi a) - c))
            then Some (Fin (maxQ lo (minQ hi a))) else None)
    as (a & Ha & Hpress).
  { unfold handleArrowPress.
    destruct direction, isShift; eexists;
      (split; [|apply (handleKnobInteraction_continuous knob _ lo hi c);
                [done|done|done|done|done|reflexivity]]);
      unfold delta, step, Qminus; ring. }
  assert (lo <= hi)%Q as Hle by lra.
  destruct (max_min_range lo hi a Hle) as (Hrange & Hid & Hlow & Hhigh).
  set (new := maxQ lo (minQ hi a)) in *.
  exists new.
  split.
  { unfold new. rewrite (max_min_clamp lo hi a Hle). unfold clampQ.
    destruct (Qlt_le_dec a lo), (Qlt_le_dec (c + delta) lo); try lra;
      destruct (Qlt_le_dec hi a), (Qlt_le_dec hi (c + delta)); lra. }
  split; [done|].
  split. { intros H. rewrite Hpress. destruct (Qlt_le_dec _ _); [done|lra]. }
  assert ((Qabs (new - c) <= 1 # 1000000000)%Q ->
          handleArrowPress knob direction isShift = None) as Hnone.
  { intros H. rewrite Hpress. destruct (Qlt_le_dec _ _); [lra|done]. }
  split; [done|].
  split. { intros H. rewrite <- Ha. apply Hid. lra. }
  split.
  - intros ->. unfold delta in Ha.
    assert (c <= new)%Q as Hmono.
    { destruct (Qlt_le_dec a hi); [rewrite Hid; lra | rewrite Hhigh; lra]. }
    split; [done|]. intros Hend. apply Hnone.
    apply Qabs_Qle_condition. lra.
  - intros ->. unfold delta in Ha.
    assert (new <= c)%Q as Hmono.
    { destruct (Qlt_le_dec lo a); [rewrite Hid; lra | rewrite Hlow; lra]. }
    split; [done|]. intros Hend. apply Hnone.
    apply Qabs_Qle_condition. lra.
Qed.

(** X18.  The arrow keys on a stepped knob resting on step [j]: one
    press moves to the next step, ten steps further with Shift, to the
    right or to the left, and stops at the last and at the first step;
    [updateParameter] is called with the new index only when the step
    changes.  With Shift, a knob of at most eleven steps jumps to its
    last or first step. *)
Theorem X18_arrow_keys_on_stepped_knob (knob : Knob)
    (direction : Direction) (isShift : bool) (steps : list Step)
    (c : Q) (j : nat) :
  knob_steps knob = Some steps -> knob_value knob = Fin c ->
  (c == inject_Z (Z.of_nat j))%Q -> j < length steps ->
  let m := (if isShift then 10 else 1)%Z in
  let target := match direction with
                | dir_left => (Z.of_nat j - m)%Z
                | dir_right => (Z.of_nat j + m)%Z
                end in
  exists i : nat,
    Z.of_nat i = Z.max 0 (Z.min (Z.of_nat (length steps) - 1) target) /\
    i < length steps /\
    (i = j -> handleArrowPress knob direction isShift = None) /\
    (i <> j ->
     exists q : Q,
       handleArrowPress knob direction isShift = Some (Fin q) /\
       (q == inject_Z (Z.of_nat i))%Q) /\
    (direction = dir_right -> j <= i) /\
    (direction = dir_left -> i <= j) /\
    (isShift = true -> length steps <= 11 ->
     (direction = dir_right -> i = length steps - 1) /\
     (direction = dir_left -> i = 0)).
Proof.
  intros Hsteps Hval Hc Hj m target.
  assert (steps <> []) as Hne by (destruct steps; [simpl in Hj; lia | done]).
  assert (exists a : Q,
            (a == inject_Z target)%Q /\
            handleArrowPress knob direction isShift =
            if gtb (Math_abs (clampIndex steps (Fin a) - Fin c)%num)
                 (Fin (1 # 1000000000))
            then Some (clampIndex steps (Fin a)) else None)
    as (a & Ha & Hpress).
  { unfold handleArrowPress, handleKnobInteraction.
    rewrite Hsteps, Hval. unfold Math_round.
    rewrite (Qfloor_half c _ Hc).
    destruct direction, isShift; cbn [mul sub opp add];
      eexists; (split; [|reflexivity]);
      unfold target, m, Z.sub; rewrite inject_Z_plus; reflexivity. }
  destruct (clampIndex_whole steps a target Hne Ha)
    as (q & i & Hq & Hqi & Hi & Hmax).
  rewrite Hq, changed_enough in Hpress.
  exists i. split; [done|]. split; [done|].
  split.
  { intros ->. rewrite Hpress.
    destruct (Qlt_le_dec _ _) as [H|_]; [|done].
    assert (q - c == 0)%Q as H0 by lra.
    rewrite (Qabs_wd _ _ H0) in H. by vm_compute in H. }
  split.
  { intros Hij. exists q. split; [|done]. rewrite Hpress.
    destruct (Qlt_le_dec _ _) as [_|H]; [done|]. exfalso.
    apply Qabs_Qle_condition in H.
    assert (inject_Z (Z.of_nat i) - inject_Z (Z.of_nat j) < inject_Z 1)%Q
      as H1 by (change (inject_Z 1) with 1%Q; lra).
    assert (inject_Z (Z.of_nat j) - inject_Z (Z.of_nat i) < inject_Z 1)%Q
      as H2 by (change (inject_Z 1) with 1%Q; lra).
    unfold Qminus in H1, H2.
    rewrite <- inject_Z_opp, <- inject_Z_plus, <- Zlt_Qlt in H1, H2. lia. }
  unfold target, m in Hmax.
  split; [intros ->; destruct isShift; lia|].
  split; [intros ->; destruct isShift; lia|].
  intros -> Hlen. split; intros ->; lia.
Qed.

(** X19.  Dragging a continuous knob with [min < max] is absolute: the
    new value is the value the knob had when the drag started plus 1.2
    hundredths of the range per pixel moved up, clamped to
    [[min, max]]; bringing the pointer back to the height where the drag
    started brings back the starting value, and moving it up by 250/3
    pixels (about 84) or more from anywhere in the range reaches [max].
    Without a drag under way a mouse move does nothing. *)
Theorem X19_drag_is_absolute (dragKnob : Knob) (d : Drag)
    (lo hi c y0 v0 y : Q) :
  knob_steps dragKnob = None ->
  knob_min dragKnob = Fin lo -> knob_max dragKnob = Fin hi ->
  knob_value dragKnob = Fin c -> (lo < hi)%Q ->
  startY d = Fin y0 -> startValue d = Fin v0 ->
  exists new : Q,
    (new == clampQ lo hi (v0 + (y0 - y) * ((hi - lo) * (12 # 1000))))%Q /\
    (lo <= new <= hi)%Q /\
    ((1 # 1000000000 < Qabs (new - c))%Q ->
     handleKnobMouseMove (Some d) dragKnob (Fin y) = Some (Fin new)) /\
    ((Qabs (new - c) <= 1 # 1000000000)%Q ->
     handleKnobMouseMove (Some d) dragKnob (Fin y) = None) /\
    ((y == y0)%Q -> (lo <= v0 <= hi)%Q -> (new == v0)%Q) /\
    ((250 # 3 <= y0 - y)%Q -> (lo <= v0)%Q -> (new == hi)%Q) /\
    handleKnobMouseMove None dragKnob (Fin y) = None.
Proof.
  intros Hsteps Hmin Hmax Hval Hlt Hy0 Hv0.
  assert (exists a : Q,
            (a == v0 + (y0 - y) * ((hi - lo) * (12 # 1000)))%Q /\
            handleKnobMouseMove (Some d) dragKnob (Fin y) =
            if Qlt_le_dec (1 # 1000000000) (Qabs (maxQ lo (minQ hi a) - c))
            then Some (Fin (maxQ lo (minQ hi a))) else None)
    as (a & Ha & Hmove).
  { unfold handleKnobMouseMove.
    eexists. split;
      [|apply (handleKnobInteraction_continuous dragKnob _ lo hi c);
        [done|done|done|done|done|]].
    2: { rewrite Hsteps, Hmin, Hmax, Hy0, Hv0.
         unfold gtb. cbn [sub opp add ltb].
         destruct (Qlt_le_dec 0 (hi + - lo)) as [_|H]; [|lra].
         rewrite div_Fin by (intros H; lra).
         cbn [mul add]. reflexivity. }
    unfold Qminus. field. }
  assert (lo <= hi)%Q as Hle by lra.
  destruct (max_min_range lo hi a Hle) as (Hrange & Hid & Hlow & Hhigh).
  set (new := maxQ lo (minQ hi a)) in *.
  exists new.
  split.
  { unfold new. rewrite (max_min_clamp lo hi a Hle). unfold clampQ.
    destruct (Qlt_le_dec a lo), (Qlt_le_dec (v0 + _) lo); try lra;
      destruct (Qlt_le_dec hi a), (Qlt_le_dec hi (v0 + _)); lra. }
  split; [done|].
  split. { intros H. rewrite Hmove. destruct (Qlt_le_dec _ _); [done|lra]. }
  split. { intros H. rewrite Hmove. destruct (Qlt_le_dec _ _); [lra|done]. }
  split.
  { intros Hy Hv. rewrite Hid.
    - rewrite Ha, Hy. ring.
    - assert (a == v0)%Q as -> by (rewrite Ha, Hy; ring). done. }
  split; [|done].
  intros Hy Hv. apply Hhigh. rewrite Ha.
  assert ((250 # 3) * ((hi - lo) * (12 # 1000))
          <= (y0 - y) * ((hi - lo) * (12 # 1000)))%Q as Hmul.
  { apply Qmult_le_compat_r; [done|]. apply Qmult_le_0_compat; lra. }
  assert ((250 # 3) * ((hi - lo) * (12 # 1000)) == hi - lo)%Q as Heq
    by (unfold Qminus; ring).
  lra.
Qed.

(** *** The facts about the knobs at concrete inputs *)

(** X15 at a concrete input: the value 7 on the five-step knob. *)
Lemma X15_stepped_knob_stays_on_a_step_witness :
  ignored_control (knob_param sample_stepped_knob) = false /\
  knob_steps sample_stepped_knob = Some sample_steps /\
  sample_steps <> [] /\
  exists (r : Q) (element' : Knob),
    updateParameter_knob sample_stepped_knob (Fin 7)
    = Some (element', Fin r, JNumber (Fin 4)) /\
    knob_value element' = Fin 4.
Proof.
  assert (sample_steps <> []) as Hne by discriminate.
  split; [reflexivity|]. split; [reflexivity|]. split; [exact Hne|].
  destruct (X15_stepped_knob_stays_on_a_step sample_stepped_knob sample_steps
              7 eq_refl eq_refl Hne)
    as (i & st & r & element' & actual & Hup & Hi & _ & Hst & Hact & Hval & _).
  assert (Z.of_nat i = 4%Z) as Hi4 by (rewrite Hi; reflexivity).
  assert (i = 4) as -> by lia.
  injection Hst as <-. cbn in Hact. subst actual.
  exists r, element'. split; [exact Hup | exact Hval].
Defined.

(** X16 at a concrete input: the value 30000 on the cutoff knob. *)
Lemma X16_continuous_knob_stays_in_range_witness :
  ignored_control (knob_param sample_knob) = false /\
  knob_steps sample_knob = None /\
  knob_min sample_knob = Fin 20 /\ knob_max sample_knob = Fin 20000 /\
  (20 <= 20000)%Q /\
  exists (q r : Q) (element' : Knob),
    updateParameter_knob sample_knob (Fin 30000)
    = Some (element', Fin r, JNumber (Fin q)) /\
    (20 <= q <= 20000)%Q.
Proof.
  assert (20 <= 20000)%Q as Hle by (unfold Qle; simpl; lia).
  split; [reflexivity|]. split; [reflexivity|]. split; [reflexivity|].
  split; [reflexivity|]. split; [exact Hle|].
  destruct (X16_continuous_knob_stays_in_range sample_knob 20 20000 30000
              eq_refl eq_refl eq_refl eq_refl Hle)
    as (q & d & r & element' & Hup & _ & Hrange & _).
  exists q, r, element'. split; [exact Hup | exact Hrange].
Defined.

(** X17 at a concrete input: the right arrow on the cutoff knob at 20000,
    the end of its range. *)
Lemma X17_arrow_keys_on_continuous_knob_witness :
  let knob := set_knob_value (Fin 20000) sample_knob in
  knob_steps knob = None /\
  knob_min knob = Fin 20 /\ knob_max knob = Fin 20000 /\
  knob_value knob = Fin 20000 /\
  (20 < 20000)%Q /\ (20 <= 20000 <= 20000)%Q /\
  handleArrowPress knob dir_right false = None.
Proof.
  intros knob.
  assert (20 < 20000)%Q as Hlt by reflexivity.
  assert (20 <= 20000 <= 20000)%Q as Hc
    by (split; unfold Qle; simpl; lia).
  split; [reflexivity|]. split; [reflexivity|]. split; [reflexivity|].
  split; [reflexivity|]. split; [exact Hlt|]. split; [exact Hc|].
  destruct (X17_arrow_keys_on_continuous_knob knob dir_right false
              20 20000 20000 eq_refl eq_refl eq_refl eq_refl Hlt Hc)
    as (new & _ & _ & _ & _ & _ & Hright & _).
  destruct (Hright eq_refl) as [_ Hend]. apply Hend. reflexivity.
Defined.

(** X18 at a concrete input: Shift and the right arrow on the five-step
    knob resting on step 2. *)
Lemma X18_arrow_keys_on_stepped_knob_witness :
  knob_steps sample_stepped_knob = Some sample_steps /\
  knob_value sample_stepped_knob = Fin 2 /\
  (2 == inject_Z (Z.of_nat 2))%Q /\ 2 < length sample_steps /\
  exists q : Q,
    handleArrowPress sample_stepped_knob dir_right true = Some (Fin q) /\
    (q == 4)%Q.
Proof.
  assert (2 == inject_Z (Z.of_nat 2))%Q as Hc by reflexivity.
  assert (2 < length sample_steps) as Hj by (simpl; lia).
  split; [reflexivity|]. split; [reflexivity|]. split; [exact Hc|].
  split; [exact Hj|].
  destruct (X18_arrow_keys_on_stepped_knob sample_stepped_knob dir_right true
              sample_steps 2 2 eq_refl eq_refl Hc Hj)
    as (i & Hi & _ & _ & Hmove & _).
  assert (Z.of_nat i = 4%Z) as Hi4 by (rewrite Hi; reflexivity).
  assert (i = 4) as -> by lia.
  destruct (Hmove ltac:(lia)) as (q & Hq & Heq).
  exists q. split; [exact Hq | exact Heq].
Defined.

(** X19 at a concrete input: a drag on the cutoff knob that started at
    height 300 with the value 1000, the pointer back at height 300. *)
Lemma X19_drag_is_absolute_witness :
  let d := {| startY := Fin 300; startValue := Fin 1000 |} in
  knob_steps sample_knob = None /\
  knob_min sample_knob = Fin 20 /\ knob_max sample_knob = Fin 20000 /\
  knob_value sample_knob = Fin 1000 /\ (20 < 20000)%Q /\
  exists new : Q,
    (20 <= new <= 20000)%Q /\ (new == 1000)%Q.
Proof.
  intros d.
  assert (20 < 20000)%Q as Hlt by reflexivity.
  split; [reflexivity|]. split; [reflexivity|]. split; [reflexivity|].
  split; [reflexivity|]. split; [exact Hlt|].
  destruct (X19_drag_is_absolute sample_knob d 20 20000 1000 300 1000 300
              eq_refl eq_refl eq_refl eq_refl Hlt eq_refl eq_refl)
    as (new & _ & Hrange & _ & _ & Hback & _).
  exists new. split; [exact Hrange|].
  apply Hback; [reflexivity|]. split; unfold Qle; simpl; lia.
Defined.

End PanelFacts.
